(** * DiffusionTransformer: a shallow embedding of [model.py]

    The file embeds the modules of [model.py] (TimestepEmbedder,
    LabelEmbedder, Attention, AttentionPerceptron, DiffusionTransformer,
    FinalLayer, and the helpers [modulate] and [n_tuples]) together with
    the part of the tensor framework they call.

    Conventions of the embedding.
    - A tensor is a shape and its elements in row-major (contiguous)
      order.  [view] keeps the elements and changes the shape; [permute]
      moves the elements, so [.contiguous()] is the identity.
    - float32 values are read twice.  The first reading takes them as
      real numbers, and keeps the [-inf] written by [masked_fill_] and the
      [nan] that softmax returns on a row holding nothing but [-inf] in
      [score] and [val].  It tells which entry is computed from which, what
      shape comes out and what is raised.  The second reading (module
      [F32]) takes them as real numbers, the two infinities and [nan],
      with a rounding that can overflow.  The identities on values
      ([0 * v = 0], [x + 0 = x], the sum of a row of weights) are stated on
      the second reading: they fail on an infinity and on [nan].
    - A Python float is a binary64 value ([SpecFloat]); the product that
      [int(hidden_size * mlp_ratio)] truncates is the rounded one.
    - A size (a dimension, a number of heads or of classes) is a natural
      number.
    - A Python exception is a [Raise]; every function that can raise
      returns a [res].
    - Random draws ([torch.rand], the default initialisation of
      [nn.Linear] and [nn.Embedding], dropout) read a generator that is
      passed in and returned; no theorem assumes anything about the
      variates it yields. *)

From Stdlib Require Import List Arith ZArith Reals Lia Lra Bool.
From Stdlib Require Floats.SpecFloat.
Import ListNotations.

Close Scope R_scope.
Close Scope Z_scope.
Open Scope nat_scope.

Set Implicit Arguments.

(** ** Exceptions and results *)

Inductive exn : Type :=
| AssertionError
| ZeroDivisionError
| ValueError
| IndexError
| RuntimeError
| OverflowError.

Inductive res (A : Type) : Type :=
| Ok (a : A)
| Raise (e : exn).

Arguments Ok {A} a.
Arguments Raise {A} e.

Definition bind {A B : Type} (c : res A) (k : A -> res B) : res B :=
  match c with
  | Ok a => k a
  | Raise e => Raise e
  end.

Notation "x <- c ;; k" := (bind c (fun x => k))
  (at level 61, c at next level, right associativity).
Notation "' p <- c ;; k" := (bind c (fun x => match x with p => k end))
  (at level 61, p pattern, c at next level, right associativity).

Definition is_ok {A : Type} (c : res A) : bool :=
  match c with Ok _ => true | Raise _ => false end.

(** ** The random generator: a stream of variates, read from the front *)

Definition gen : Type := nat -> R.

Definition draw (n : nat) (g : gen) : list R * gen :=
  (map g (seq 0 n), fun i => g (n + i)).

(** ** Tensors *)

Record tensor (A : Type) : Type := Tensor { shape : list nat; data : list A }.

Definition numel (s : list nat) : nat := fold_right Nat.mul 1 s.

Definition wf {A : Type} (t : tensor A) : Prop :=
  length (data t) = numel (shape t).

(** Row-major offset of a multi-index, and the multi-index of an offset. *)
Fixpoint ravel (s idx : list nat) : nat :=
  match s, idx with
  | _ :: s', i :: idx' => i * numel s' + ravel s' idx'
  | _, _ => 0
  end.

Fixpoint unravel (s : list nat) (k : nat) : list nat :=
  match s with
  | [] => []
  | _ :: s' => (k / numel s') :: unravel s' (k mod numel s')
  end.

Definition tabulate {A : Type} (s : list nat) (f : list nat -> A) : tensor A :=
  Tensor s (map (fun k => f (unravel s k)) (seq 0 (numel s))).

Definition get {A : Type} (d : A) (t : tensor A) (idx : list nat) : A :=
  nth (ravel (shape t) idx) (data t) d.

Definition tmap {A B : Type} (f : A -> B) (t : tensor A) : tensor B :=
  Tensor (shape t) (map f (data t)).

Definition in_range (s idx : list nat) : Prop := Forall2 lt idx s.

Definition list_eqb (s1 s2 : list nat) : bool :=
  if list_eq_dec Nat.eq_dec s1 s2 then true else false.

(** *** Sums *)

Definition Rsum (l : list R) : R := fold_right Rplus 0%R l.

(** [sum_{k < n} f k] *)
Definition sigma (n : nat) (f : nat -> R) : R := Rsum (map f (seq 0 n)).

(** *** Shape operations *)

(** [t.view(spec)]; [None] in [spec] is the [-1] whose size is inferred. *)
Definition known (spec : list (option nat)) : nat :=
  fold_right (fun o acc => match o with Some d => d * acc | None => acc end) 1 spec.

Definition inferred (spec : list (option nat)) : nat :=
  length (filter (fun o => match o with None => true | Some _ => false end) spec).

Definition view {A : Type} (spec : list (option nat)) (t : tensor A) : res (tensor A) :=
  let n := numel (shape t) in
  let k := known spec in
  match inferred spec with
  | 0 =>
      if n =? k
      then Ok (Tensor (map (fun o => match o with Some d => d | None => 0 end) spec) (data t))
      else Raise RuntimeError
  | 1 =>
      if k =? 0 then Raise RuntimeError
      else if n mod k =? 0
      then Ok (Tensor (map (fun o => match o with Some d => d | None => n / k end) spec) (data t))
      else Raise RuntimeError
  | _ => Raise RuntimeError
  end.

(** Position of [j] in [p]. *)
Fixpoint index_of (j : nat) (p : list nat) : nat :=
  match p with
  | [] => 0
  | x :: p' => if x =? j then 0 else S (index_of j p')
  end.

Definition is_perm (p : list nat) (rank : nat) : bool :=
  (length p =? rank) && forallb (fun j => existsb (Nat.eqb j) p) (seq 0 rank).

(** [t.permute(p)]: axis [i] of the result is axis [p_i] of [t]. *)
Definition permute {A : Type} (d : A) (p : list nat) (t : tensor A) : res (tensor A) :=
  if is_perm p (length (shape t))
  then Ok (tabulate (map (fun a => nth a (shape t) 0) p)
             (fun idx => get d t (map (fun j => nth (index_of j p) idx 0)
                                      (seq 0 (length (shape t))))))
  else Raise RuntimeError.

(** [t.contiguous()] *)
Definition contiguous {A : Type} (t : tensor A) : tensor A := t.

(** [t.transpose(1, 2)] *)
Definition transpose12 {A : Type} (d : A) (t : tensor A) : res (tensor A) :=
  match shape t with
  | a :: b :: c :: rest =>
      permute d (0 :: 2 :: 1 :: seq 3 (length rest)) t
  | _ => Raise IndexError
  end.

(** [t.unsqueeze(1)], also written [t[:, None]] *)
Definition unsqueeze1 {A : Type} (t : tensor A) : res (tensor A) :=
  match shape t with
  | a :: rest => Ok (Tensor (a :: 1 :: rest) (data t))
  | [] => Raise IndexError
  end.

(** [t[None]] *)
Definition unsqueeze0 {A : Type} (t : tensor A) : tensor A :=
  Tensor (1 :: shape t) (data t).

(** [t.repeat(reps)] *)
Definition repeat_tensor {A : Type} (d : A) (reps : list nat) (t : tensor A) : res (tensor A) :=
  if length reps <? length (shape t) then Raise RuntimeError
  else
    let pad := length reps - length (shape t) in
    let s := List.repeat 1 pad ++ shape t in
    Ok (tabulate (map (fun '(r, n) => r * n) (combine reps s))
          (fun idx => get d t (skipn pad (map (fun '(i, n) => i mod n) (combine idx s))))).

(** *** Broadcasting *)

Fixpoint broadcast_rev (r1 r2 : list nat) : option (list nat) :=
  match r1, r2 with
  | [], _ => Some r2
  | _, [] => Some r1
  | a :: r1', b :: r2' =>
      match broadcast_rev r1' r2' with
      | None => None
      | Some r =>
          if a =? b then Some (a :: r)
          else if a =? 1 then Some (b :: r)
          else if b =? 1 then Some (a :: r)
          else None
      end
  end.

Definition broadcast_shapes (s1 s2 : list nat) : option (list nat) :=
  option_map (@rev nat) (broadcast_rev (rev s1) (rev s2)).

(** The index into an operand of shape [s] for the index [idx] of the
    broadcast result: the leading axes the operand lacks are dropped and an
    axis of size 1 is read at 0. *)
Definition bidx (s idx : list nat) : list nat :=
  map (fun '(i, n) => if n =? 1 then 0 else i)
      (combine (skipn (length idx - length s) idx) s).

Definition map2b {A B C : Type} (da : A) (db : B) (f : A -> B -> C)
    (a : tensor A) (b : tensor B) : res (tensor C) :=
  match broadcast_shapes (shape a) (shape b) with
  | Some s =>
      Ok (tabulate s (fun idx => f (get da a (bidx (shape a) idx))
                                   (get db b (bidx (shape b) idx))))
  | None => Raise RuntimeError
  end.

Definition tadd := map2b 0%R 0%R Rplus.
Definition tmul := map2b 0%R 0%R Rmult.

(** *** Concatenation, slicing, chunking along the last axis *)

(** [torch.cat([a, b], dim=-1)] *)
Definition cat_last {A : Type} (d : A) (a b : tensor A) : res (tensor A) :=
  match rev (shape a), rev (shape b) with
  | ka :: la, kb :: lb =>
      if list_eqb la lb
      then Ok (tabulate (rev la ++ [ka + kb])
                 (fun idx =>
                    let j := last idx 0 in
                    if j <? ka then get d a idx
                    else get d b (removelast idx ++ [j - ka])))
      else Raise RuntimeError
  | _, _ => Raise RuntimeError
  end.

(** [t[:, :n]] *)
Definition slice1_to {A : Type} (d : A) (n : nat) (t : tensor A) : res (tensor A) :=
  match shape t with
  | a :: b :: rest => Ok (tabulate (a :: Nat.min n b :: rest) (get d t))
  | _ => Raise IndexError
  end.

Definition zeros_like (t : tensor R) : tensor R := tmap (fun _ => 0%R) t.

(** Sizes of the pieces [t.chunk(n, dim)] cuts an axis of size [size] into. *)
Definition chunk_sizes (size n : nat) : list nat :=
  let split := (size + n - 1) / n in
  if (split =? 0) && (size =? 0) then List.repeat 0 n
  else List.repeat split (size / split)
       ++ (if size mod split =? 0 then [] else [size mod split]).

Fixpoint offsets (start : nat) (sizes : list nat) : list (nat * nat) :=
  match sizes with
  | [] => []
  | k :: rest => (start, k) :: offsets (start + k) rest
  end.

(** The piece of [t] that starts at column [off]. *)
Definition piece {A : Type} (d : A) (t : tensor A) (off : nat) (idx : list nat) : A :=
  match idx with
  | i :: j :: tl => get d t (i :: off + j :: tl)
  | _ => d
  end.

(** [t.chunk(n, dim=1)] *)
Definition chunk1 {A : Type} (d : A) (n : nat) (t : tensor A) : res (list (tensor A)) :=
  match n, shape t with
  | 0, _ => Raise RuntimeError
  | _, a :: b :: rest =>
      Ok (map (fun '(off, k) => tabulate (a :: k :: rest) (piece d t off))
              (offsets 0 (chunk_sizes b n)))
  | _, _ => Raise IndexError
  end.

(** *** Batched matrix product *)

Definition bmm_gen {A : Type} (d : A) (sum : list A -> A) (mul : A -> A -> A)
    (a b : tensor A) : res (tensor A) :=
  match shape a, shape b with
  | [n; p; q], [n'; q'; r] =>
      if (n =? n') && (q =? q')
      then Ok (tabulate [n; p; r]
                 (fun idx => match idx with
                             | [i; j; k] =>
                                 sum (map (fun l => mul (get d a [i; j; l]) (get d b [i; l; k]))
                                          (seq 0 q))
                             | _ => d
                             end))
      else Raise RuntimeError
  | _, _ => Raise RuntimeError
  end.

Definition bmm := bmm_gen 0%R Rsum Rmult.

(** *** Comparisons on the reals, as booleans *)

Definition Rltb (x y : R) : bool := if Rlt_dec x y then true else false.
Definition Reqb (x y : R) : bool := if Req_dec_T x y then true else false.

(** ** Values outside the reals *)

(** An attention score: a real, or the [-inf] of [masked_fill_]. *)
Inductive score : Type :=
| Sc (r : R)
| NegInf.

(** An attention weight or a context entry: a real, or [nan]. *)
Inductive val : Type :=
| Re (r : R)
| NaN.

Definition vadd (a b : val) : val :=
  match a, b with
  | Re x, Re y => Re (x + y)
  | _, _ => NaN
  end.

Definition vmul (a b : val) : val :=
  match a, b with
  | Re x, Re y => Re (x * y)
  | _, _ => NaN
  end.

Definition vsum (l : list val) : val := fold_right vadd (Re 0) l.

Definition real_part (v : val) : R :=
  match v with Re r => r | NaN => 0%R end.

Definition is_neginf (s : score) : bool :=
  match s with NegInf => true | Sc _ => false end.

(** [exp] on scores: [exp(-inf) = 0]. *)
Definition sexp (s : score) : R :=
  match s with Sc r => exp r | NegInf => 0%R end.

(** Softmax of one row.  A row of [-inf] only is [0/0 = nan] throughout. *)
Definition softmax_row (row : list score) : list val :=
  if forallb is_neginf row
  then map (fun _ => NaN) row
  else map (fun s => Re (sexp s / Rsum (map sexp row))) row.

(** [F.softmax(t, dim=-1)] *)
Definition softmax (t : tensor score) : tensor val :=
  let K := last (shape t) 1 in
  tabulate (shape t)
    (fun idx =>
       nth (last idx 0)
           (softmax_row (map (fun l => get NegInf t (removelast idx ++ [l])) (seq 0 K)))
           NaN).

(** [t.masked_fill_(mask, -inf)] *)
Definition masked_fill (t : tensor score) (mask : tensor bool) : res (tensor score) :=
  match broadcast_shapes (shape t) (shape mask) with
  | Some s =>
      if list_eqb s (shape t)
      then Ok (tabulate (shape t)
                 (fun idx => if get false mask (bidx (shape mask) idx)
                             then NegInf else get NegInf t idx))
      else Raise RuntimeError
  | None => Raise RuntimeError
  end.

Definition bmm_val := bmm_gen NaN vsum vmul.

(** ** The layers of [torch.nn] the program uses *)

(** [tensor.uniform_(lo, hi)] over [n] elements. *)
Definition uniform_ (lo hi : R) (n : nat) (g : gen) : list R * gen :=
  let (us, g') := draw n g in
  (map (fun u => (lo + (hi - lo) * u)%R) us, g').

(** [nn.init.constant_(t, c)] *)
Definition constant_ (t : tensor R) (c : R) : tensor R := tmap (fun _ => c) t.

Module Linear.

Record t : Type := mk {
  in_features : nat;
  out_features : nat;
  weight : tensor R;          (* [out_features, in_features] *)
  bias : option (tensor R)    (* [out_features] *)
}.

(** The bound of the default initialisation, [1 / sqrt(fan_in)]. *)
Definition bound (fan_in : nat) : R :=
  if fan_in =? 0 then 0%R else (1 / sqrt (INR fan_in))%R.

(** [nn.Linear(in_f, out_f, bias=use_bias)]: weight and bias are drawn
    uniformly from [(-bound, bound)]. *)
Definition init (in_f out_f : nat) (use_bias : bool) (g : gen) : t * gen :=
  let b := bound in_f in
  let (w, g1) := uniform_ (- b) b (out_f * in_f) g in
  if use_bias
  then let (bs, g2) := uniform_ (- b) b out_f g1 in
       (mk in_f out_f (Tensor [out_f; in_f] w) (Some (Tensor [out_f] bs)), g2)
  else (mk in_f out_f (Tensor [out_f; in_f] w) None, g1).

(** The entry of [x W^T + b] at [idx]: the row of [x] at the leading
    part of [idx], against row [j] of the weight, [j] the last index. *)
Definition entry (l : t) (x : tensor R) (idx : list nat) : R :=
  let j := last idx 0 in
  let pre := removelast idx in
  (sigma (in_features l)
     (fun k => get 0 x (pre ++ [k]) * get 0 (weight l) [j; k])
   + match bias l with
     | Some b => get 0 b [j]
     | None => 0
     end)%R.

Definition forward (l : t) (x : tensor R) : res (tensor R) :=
  match rev (shape x) with
  | k :: lead =>
      if k =? in_features l
      then Ok (tabulate (rev lead ++ [out_features l]) (entry l x))
      else Raise RuntimeError
  | [] => Raise RuntimeError
  end.

End Linear.

(** [nn.SiLU] *)
Definition SiLU (x : tensor R) : tensor R :=
  tmap (fun v => (v / (1 + exp (- v)))%R) x.

(** [nn.GELU(approximate="tanh")] *)
Definition GELU_tanh (x : tensor R) : tensor R :=
  tmap (fun v => (0.5 * v * (1 + tanh (sqrt (2 / PI) * (v + 0.044715 * (v * v * v)))))%R) x.

Module LayerNorm.

Record t : Type := mk {
  normalized_shape : nat;
  eps : R;
  weight : option (tensor R);
  bias : option (tensor R)
}.

(** [nn.LayerNorm(n, elementwise_affine=affine, eps=e)] *)
Definition init (n : nat) (affine : bool) (e : R) : t :=
  if affine
  then mk n e (Some (Tensor [n] (List.repeat 1%R n))) (Some (Tensor [n] (List.repeat 0%R n)))
  else mk n e None None.

(** The normalised entry at [idx]: mean and (biased) variance are taken
    over the last axis. *)
Definition entry (l : t) (x : tensor R) (idx : list nat) : R :=
  let n := normalized_shape l in
  let j := last idx 0 in
  let pre := removelast idx in
  let row := fun k => get 0%R x (pre ++ [k]) in
  let mean := (sigma n row / INR n)%R in
  let var := (sigma n (fun k => (row k - mean) * (row k - mean)) / INR n)%R in
  ((row j - mean) / sqrt (var + eps l)
   * match weight l with Some w => get 0 w [j] | None => 1 end
   + match bias l with Some b => get 0 b [j] | None => 0 end)%R.

Definition forward (l : t) (x : tensor R) : res (tensor R) :=
  match rev (shape x) with
  | k :: _ =>
      if k =? normalized_shape l
      then Ok (tabulate (shape x) (entry l x))
      else Raise RuntimeError
  | [] => Raise RuntimeError
  end.

End LayerNorm.

Module Dropout.

Record t : Type := mk { p : R; training : bool }.

(** [nn.Dropout(p)]; a fresh module is in training mode. *)
Definition init (prob : R) : res t :=
  if Rltb prob 0 || Rltb 1 prob then Raise ValueError else Ok (mk prob true).

Definition forward (d : t) (x : tensor R) (g : gen) : tensor R * gen :=
  if negb (training d) || Reqb (p d) 0 || (numel (shape x) =? 0) then (x, g)
  else if Reqb (p d) 1 then (tmap (fun _ => 0%R) x, g)
  else
    let (us, g') := draw (length (data x)) g in
    (Tensor (shape x)
       (map (fun '(v, u) => (v * (if Rltb u (1 - p d) then 1 else 0) / (1 - p d))%R)
            (combine (data x) us)), g').

End Dropout.

Module Embedding.

Record t : Type := mk {
  num_embeddings : nat;
  embedding_dim : nat;
  weight : tensor R           (* [num_embeddings, embedding_dim] *)
}.

(** [nn.Embedding(n, dim)]: the table is filled with normal variates. *)
Definition init (n dim : nat) (g : gen) : t * gen :=
  let (w, g') := draw (n * dim) g in
  (mk n dim (Tensor [n; dim] w), g').

Definition in_table (e : t) (i : Z) : bool :=
  ((0 <=? i) && (i <? Z.of_nat (num_embeddings e)))%Z.

Definition forward (e : t) (labels : tensor Z) : res (tensor R) :=
  if forallb (in_table e) (data labels)
  then Ok (tabulate (shape labels ++ [embedding_dim e])
             (fun idx =>
                get 0%R (weight e)
                    [Z.to_nat (get 0%Z labels (removelast idx)); last idx 0]))
  else Raise IndexError.

End Embedding.

(** ** [model.py] *)

(** [modulate(tensor, shift, scale)] *)
Definition modulate (x shift scale : tensor R) : res (tensor R) :=
  sc <- unsqueeze1 scale ;;
  m <- tmul x (tmap (Rplus 1) sc) ;;
  sh <- unsqueeze1 shift ;;
  tadd m sh.

(** A configuration value that is a scalar or an iterable of scalars. *)
Inductive arg (A : Type) : Type :=
| Scalar (a : A)
| Iterable (l : list A).

Definition n_tuples {A : Type} (n : nat) (x : arg A) : list A :=
  match x with
  | Iterable l => l
  | Scalar a => List.repeat a n
  end.

Definition to_2tuple {A : Type} : arg A -> list A := n_tuples 2.

(** [a % b] on sizes *)
Definition py_mod (a b : nat) : res nat :=
  if b =? 0 then Raise ZeroDivisionError else Ok (a mod b).

(** [l[i]] on a tuple *)
Definition item {A : Type} (l : list A) (i : nat) : res A :=
  match nth_error l i with
  | Some a => Ok a
  | None => Raise IndexError
  end.

Module TimestepEmbedder.

Record t : Type := mk {
  frequency_embedding_size : nat;
  perceptron : Linear.t * Linear.t   (* Linear, SiLU, Linear *)
}.

Definition init (timestep_hidden_size frequency_embedding_size : nat)
    (perceptron_bias : bool) (g : gen) : t * gen :=
  let (l0, g1) := Linear.init frequency_embedding_size timestep_hidden_size perceptron_bias g in
  let (l2, g2) := Linear.init timestep_hidden_size timestep_hidden_size perceptron_bias g1 in
  (mk frequency_embedding_size (l0, l2), g2).

Definition time_stepper (x : tensor R) (embedding_size : nat) (max_period : Z)
  : res (tensor R) :=
  let half := embedding_size / 2 in
  if (max_period <=? 0)%Z then Raise ValueError else
  let frequency :=
    Tensor [half]
      (map (fun i => exp (- ln (IZR max_period) * INR i / INR half)) (seq 0 half)) in
  x1 <- unsqueeze1 x ;;
  args <- tmul x1 (unsqueeze0 frequency) ;;
  embedding <- cat_last 0%R (tmap cos args) (tmap sin args) ;;
  if negb (embedding_size mod 2 =? 0)
  then z <- slice1_to 0%R 1 embedding ;;
       cat_last 0%R embedding (zeros_like z)
  else Ok embedding.

Definition forward (m : t) (x : tensor R) : res (tensor R) :=
  t_frequency <- time_stepper x (frequency_embedding_size m) 10000%Z ;;
  h <- Linear.forward (fst (perceptron m)) t_frequency ;;
  Linear.forward (snd (perceptron m)) (SiLU h).

End TimestepEmbedder.

Module LabelEmbedder.

Record t : Type := mk {
  num_classes : nat;
  dropout_prob : R;
  embedding_table : Embedding.t
}.

Definition init (num_classes hidden_size : nat) (dropout_prob : R) (g : gen) : t * gen :=
  let use_config_embedding := Rltb 0 dropout_prob in
  let (table, g') :=
    Embedding.init (num_classes + (if use_config_embedding then 1 else 0)) hidden_size g in
  (mk num_classes dropout_prob table, g').

Definition token_dropper (m : t) (labels : tensor Z) (g : gen) : res (tensor Z * gen) :=
  match shape labels with
  | n :: _ =>
      let (us, g') := draw n g in
      let drop_id := Tensor [n] (map (fun u => Rltb u (dropout_prob m)) us) in
      new_labels <- map2b false 0%Z
                      (fun (c : bool) l => if c then Z.of_nat (num_classes m) else l)
                      drop_id labels ;;
      Ok (new_labels, g')
  | [] => Raise IndexError
  end.

(** The labels that [forward] hands to the embedding table. *)
Definition looked_up (m : t) (labels : tensor Z) (g : gen) : res (tensor Z * gen) :=
  let use_dropout := Rltb 0 (dropout_prob m) in
  if use_dropout then token_dropper m labels g else Ok (labels, g).

Definition forward (m : t) (labels : tensor Z) (g : gen) : res (tensor R * gen) :=
  '(labels', g') <- looked_up m labels g ;;
  embeddings <- Embedding.forward (embedding_table m) labels' ;;
  Ok (embeddings, g').

End LabelEmbedder.

Module Attention.

Record t : Type := mk {
  num_heads : nat;
  div_dimension : nat;
  query_projection : Linear.t;
  key_projection : Linear.t;
  value_projection : Linear.t
}.

Definition init (attention_dimension attention_heads : nat) (g : gen) : res (t * gen) :=
  r <- py_mod attention_dimension attention_heads ;;
  if negb (r =? 0) then Raise AssertionError else
  let num_heads := attention_heads in
  let div_dimension := attention_dimension / attention_heads in
  let (q, g1) := Linear.init attention_dimension (num_heads * div_dimension) true g in
  let (k, g2) := Linear.init attention_dimension (num_heads * div_dimension) true g1 in
  let (v, g3) := Linear.init attention_dimension (num_heads * div_dimension) true g2 in
  Ok (mk num_heads div_dimension q k v, g3).

(** [proj(x).view(batch_size, -1, num_heads, div_dimension)] *)
Definition split_heads (m : t) (proj : Linear.t) (batch_size : nat) (x : tensor R)
  : res (tensor R) :=
  y <- Linear.forward proj x ;;
  view [Some batch_size; None; Some (num_heads m); Some (div_dimension m)] y.

(** [x.permute(2, 0, 1, 3).contiguous().view(batch_size * num_heads, -1, div_dimension)] *)
Definition merge_heads (m : t) (batch_size : nat) (x : tensor R) : res (tensor R) :=
  y <- permute 0%R [2; 0; 1; 3] x ;;
  view [Some (batch_size * num_heads m); None; Some (div_dimension m)] (contiguous y).

(** Lines 195-241: from the merge of batch and heads to the result. *)
Definition attend (m : t) (batch_size : nat) (query key value : tensor R)
    (mask : option (tensor bool)) : res (tensor val * tensor val) :=
  query <- merge_heads m batch_size query ;;
  key <- merge_heads m batch_size key ;;
  value <- merge_heads m batch_size value ;;
  key_t <- transpose12 0%R key ;;
  qk <- bmm query key_t ;;
  let attention_score :=
    tmap (fun v => Sc (v / sqrt (INR (div_dimension m)))) qk in
  attention_score <-
    match mask with
    | Some mask =>
        mask <- unsqueeze1 mask ;;
        mask <- repeat_tensor false [1; num_heads m; 1; 1] mask ;;
        mask <- view (map (@Some nat) (shape attention_score)) mask ;;
        masked_fill attention_score mask
    | None => Ok attention_score
    end ;;
  let attention_matrix := softmax attention_score in
  context <- bmm_val attention_matrix (tmap Re value) ;;
  context <- view [Some (num_heads m); Some batch_size; None; Some (div_dimension m)] context ;;
  context <- permute NaN [1; 2; 0; 3] context ;;
  context <- view [Some batch_size; None; Some (num_heads m * div_dimension m)]
               (contiguous context) ;;
  Ok (context, attention_matrix).

Definition forward (m : t) (query key value : tensor R) (mask : option (tensor bool))
  : res (tensor val * tensor val) :=
  batch_size <- match shape value with
                | b :: _ => Ok b
                | [] => Raise IndexError
                end ;;
  query <- split_heads m (query_projection m) batch_size query ;;
  key <- split_heads m (query_projection m) batch_size key ;;
  value <- split_heads m (query_projection m) batch_size value ;;
  attend m batch_size query key value mask.

(** The forward pass as the specification words it: query, key and value
    each go through their own projection.  Only the three projection lines
    differ from [forward]. *)
Definition forward_independent (m : t) (query key value : tensor R)
    (mask : option (tensor bool)) : res (tensor val * tensor val) :=
  batch_size <- match shape value with
                | b :: _ => Ok b
                | [] => Raise IndexError
                end ;;
  query <- split_heads m (query_projection m) batch_size query ;;
  key <- split_heads m (key_projection m) batch_size key ;;
  value <- split_heads m (value_projection m) batch_size value ;;
  attend m batch_size query key value mask.

End Attention.

Module AttentionPerceptron.

Record t : Type := mk {
  fc1 : Linear.t;
  drop1 : Dropout.t;
  norm : option LayerNorm.t;   (* [None] is [nn.Identity()] *)
  fc2 : Linear.t;
  drop2 : Dropout.t
}.

Definition init (in_features : nat) (hidden_features out_features : option nat)
    (layer_norm : bool) (bias : arg bool) (dropout_prob : arg R) (g : gen)
  : res (t * gen) :=
  let out_features := match out_features with None => in_features | Some o => o end in
  let hidden_features := match hidden_features with None => in_features | Some h => h end in
  let bias := to_2tuple bias in
  let drop_probs := to_2tuple dropout_prob in
  b0 <- item bias 0 ;;
  let (fc1, g1) := Linear.init in_features hidden_features b0 g in
  p0 <- item drop_probs 0 ;;
  drop1 <- Dropout.init p0 ;;
  let norm := if layer_norm
              then Some (LayerNorm.init hidden_features true 1e-5%R)
              else None in
  b1 <- item bias 1 ;;
  let (fc2, g2) := Linear.init hidden_features out_features b1 g1 in
  p1 <- item drop_probs 1 ;;
  drop2 <- Dropout.init p1 ;;
  Ok (mk fc1 drop1 norm fc2 drop2, g2).

Definition forward (m : t) (x : tensor R) (g : gen) : res (tensor R * gen) :=
  x <- Linear.forward (fc1 m) x ;;
  let x := GELU_tanh x in
  let (x, g1) := Dropout.forward (drop1 m) x g in
  x <- match norm m with
       | Some ln => LayerNorm.forward ln x
       | None => Ok x
       end ;;
  x <- Linear.forward (fc2 m) x ;;
  let (x, g2) := Dropout.forward (drop2 m) x g1 in
  Ok (x, g2).

End AttentionPerceptron.

(** *** Python numbers *)

(** A Python [float] is a binary64 value. *)
Definition float64 : Type := SpecFloat.spec_float.

(** [float(z)] for an [int]: the nearest binary64 value, ties to even; an
    [int] that rounds beyond the largest of them raises. *)
Definition float_of_int (z : Z) : res float64 :=
  match SpecFloat.binary_normalize 53 1024 z 0 false with
  | SpecFloat.S754_infinity _ => Raise OverflowError
  | f => Ok f
  end.

(** [int(f)]: truncation toward zero. *)
Definition int_of_float (f : float64) : res Z :=
  match f with
  | SpecFloat.S754_zero _ => Ok 0%Z
  | SpecFloat.S754_infinity _ => Raise OverflowError
  | SpecFloat.S754_nan => Raise ValueError
  | SpecFloat.S754_finite s m e =>
      let a := match e with
               | Z0 => Zpos m
               | Zpos p => (Zpos m * Z.pow_pos 2 p)%Z
               | Zneg p => Z.quot (Zpos m) (Z.pow_pos 2 p)
               end in
      Ok (if s then (- a)%Z else a)
  end.

(** The [float] that the literal [n / d * 10^0] denotes for small [n] and
    [d]: the binary64 value nearest to the quotient. *)
Definition float_ratio (n d : Z) : float64 :=
  SpecFloat.SFdiv 53 1024 (SpecFloat.binary_normalize 53 1024 n 0 false)
                          (SpecFloat.binary_normalize 53 1024 d 0 false).

(** A number as [mlp_ratio] receives it: an [int] (the script passes [1])
    or a [float]. *)
Inductive number : Type :=
| PyInt (z : Z)
| PyFloat (f : float64).

(** [int(n * q)] for a size [n]: the product with an [int] is exact, the
    product with a [float] is the binary64 product of [float(n)] and [q],
    rounded to nearest. *)
Definition int_mul (n : nat) (q : number) : res Z :=
  match q with
  | PyInt z => Ok (Z.of_nat n * z)%Z
  | PyFloat f =>
      a <- float_of_int (Z.of_nat n) ;;
      int_of_float (SpecFloat.SFmul 53 1024 a f)
  end.

Module DiffusionTransformer.

Record t : Type := mk {
  norm1 : LayerNorm.t;
  norm2 : LayerNorm.t;
  attention : Attention.t;
  perceptron_hidden_dim : Z;
  perceptron : AttentionPerceptron.t;
  adaptiveLN : Linear.t        (* SiLU, Linear *)
}.

Definition init (attention_embedding_size attention_heads hidden_size : nat)
    (mlp_ratio : number) (layernorm_affine : bool) (layernorm_epsilon : R)
    (perceptron_dropout_rate : R) (perceptron_bias perceptron_layernorm : bool)
    (g : gen) : res (t * gen) :=
  let norm1 := LayerNorm.init hidden_size layernorm_affine layernorm_epsilon in
  let norm2 := LayerNorm.init hidden_size layernorm_affine layernorm_epsilon in
  '(attention, g1) <- Attention.init attention_embedding_size attention_heads g ;;
  perceptron_hidden_dim <- int_mul hidden_size mlp_ratio ;;
  (* a negative size is refused when [nn.Linear] allocates its weight *)
  hidden <- (if (perceptron_hidden_dim <? 0)%Z then Raise RuntimeError
             else Ok (Z.to_nat perceptron_hidden_dim)) ;;
  '(perceptron, g2) <- AttentionPerceptron.init hidden_size (Some hidden) (Some hidden_size)
                         perceptron_layernorm (Scalar perceptron_bias)
                         (Scalar perceptron_dropout_rate) g1 ;;
  let (ada, g3) := Linear.init hidden_size (6 * hidden_size) true g2 in
  Ok (mk norm1 norm2 attention perceptron_hidden_dim perceptron ada, g3).

(** The context read back by [real_part] is real throughout: the block
    passes no mask to its attention. *)
Definition forward (m : t) (x c : tensor R) (g : gen) : res (tensor R * gen) :=
  a <- Linear.forward (adaptiveLN m) (SiLU c) ;;
  chunks <- chunk1 0%R 6 a ;;
  match chunks with
  | [attn_shift; attn_scale; attn_gate; mlp_shift; mlp_scale; mlp_gate] =>
      n1 <- LayerNorm.forward (norm1 m) x ;;
      attn_input <- modulate n1 attn_shift attn_scale ;;
      gate <- unsqueeze1 attn_gate ;;
      '(context, _) <- Attention.forward (attention m) attn_input attn_input attn_input None ;;
      gated <- tmul gate (tmap real_part context) ;;
      attn_out <- tadd x gated ;;
      n2 <- LayerNorm.forward (norm2 m) attn_out ;;
      perceptron_input <- modulate n2 mlp_shift mlp_scale ;;
      gate <- unsqueeze1 mlp_gate ;;
      '(h, g') <- AttentionPerceptron.forward (perceptron m) perceptron_input g ;;
      gated <- tmul gate h ;;
      x <- tadd x gated ;;
      Ok (x, g')
  | _ => Raise ValueError
  end.

(** The forward pass as the specification words it: the perceptron
    sub-layer repeats the residual pattern on the running value, so its
    gated output is added to [attn_out].  Only the last addition differs
    from [forward]. *)
Definition forward_running (m : t) (x c : tensor R) (g : gen) : res (tensor R * gen) :=
  a <- Linear.forward (adaptiveLN m) (SiLU c) ;;
  chunks <- chunk1 0%R 6 a ;;
  match chunks with
  | [attn_shift; attn_scale; attn_gate; mlp_shift; mlp_scale; mlp_gate] =>
      n1 <- LayerNorm.forward (norm1 m) x ;;
      attn_input <- modulate n1 attn_shift attn_scale ;;
      gate <- unsqueeze1 attn_gate ;;
      '(context, _) <- Attention.forward (attention m) attn_input attn_input attn_input None ;;
      gated <- tmul gate (tmap real_part context) ;;
      attn_out <- tadd x gated ;;
      n2 <- LayerNorm.forward (norm2 m) attn_out ;;
      perceptron_input <- modulate n2 mlp_shift mlp_scale ;;
      gate <- unsqueeze1 mlp_gate ;;
      '(h, g') <- AttentionPerceptron.forward (perceptron m) perceptron_input g ;;
      gated <- tmul gate h ;;
      x <- tadd attn_out gated ;;
      Ok (x, g')
  | _ => Raise ValueError
  end.

End DiffusionTransformer.

Module FinalLayer.

Record t : Type := mk {
  layernorm : LayerNorm.t;
  linear : Linear.t;
  AdaptiveLN : Linear.t        (* SiLU, Linear *)
}.

Definition init (hidden_size patch_size out_channels : nat) (g : gen) : t * gen :=
  let layernorm := LayerNorm.init hidden_size false 1e-6%R in
  let (linear, g1) := Linear.init hidden_size (patch_size * patch_size * out_channels) true g in
  let (ada, g2) := Linear.init hidden_size (2 * hidden_size) true g1 in
  (mk layernorm linear ada, g2).

Definition forward (m : t) (x c : tensor R) : res (tensor R) :=
  a <- Linear.forward (AdaptiveLN m) (SiLU c) ;;
  chunks <- chunk1 0%R 2 a ;;
  match chunks with
  | [shift; scale] =>
      n <- LayerNorm.forward (layernorm m) x ;;
      x <- modulate n shift scale ;;
      Linear.forward (linear m) x
  | _ => Raise ValueError
  end.

End FinalLayer.

(** * What the statements are about *)

(** ** Zero parameters *)

Definition all_zero (t : tensor R) : Prop := Forall (eq 0%R) (data t).

(** Weight and bias of a linear layer hold zeros only. *)
Definition zero_linear (l : Linear.t) : Prop :=
  all_zero (Linear.weight l) /\
  match Linear.bias l with Some b => all_zero b | None => True end.

(** [nn.init.constant_(l.weight, 0)] and [nn.init.constant_(l.bias, 0)] *)
Definition zeroed (l : Linear.t) : Linear.t :=
  Linear.mk (Linear.in_features l) (Linear.out_features l)
            (constant_ (Linear.weight l) 0)
            (option_map (fun b => constant_ b 0) (Linear.bias l)).

(** The step the script applies to a block it has constructed (lines
    445-446): [adaptiveLN[-1]] is zeroed. *)
Definition zero_block (m : DiffusionTransformer.t) : DiffusionTransformer.t :=
  DiffusionTransformer.mk
    (DiffusionTransformer.norm1 m) (DiffusionTransformer.norm2 m)
    (DiffusionTransformer.attention m) (DiffusionTransformer.perceptron_hidden_dim m)
    (DiffusionTransformer.perceptron m) (zeroed (DiffusionTransformer.adaptiveLN m)).

(** The step the script applies to the final layer it has constructed
    (lines 457-460): [AdaptiveLN[-1]] and [linear] are zeroed. *)
Definition zero_final (m : FinalLayer.t) : FinalLayer.t :=
  FinalLayer.mk (FinalLayer.layernorm m) (zeroed (FinalLayer.linear m))
                (zeroed (FinalLayer.AdaptiveLN m)).

(** ** Real values *)

Definition is_real (v : val) : Prop :=
  match v with Re _ => True | NaN => False end.

(** No entry of [t] is [nan]. *)
Definition real_values (t : tensor val) : Prop := Forall is_real (data t).

(** No entry of [sc] is [-inf]. *)
Definition real_scores (sc : tensor score) : Prop :=
  Forall (fun s => is_neginf s = false) (data sc).

(** ** The mask over the scores *)

(** The mask as [attend] lays it over the scores: [unsqueeze(1)],
    [repeat(1, heads, 1, 1)], [view] to the shape of the scores. *)
Definition laid_mask (m : Attention.t) (B T : nat) (mask : tensor bool) : tensor bool :=
  let N := Attention.num_heads m in
  Tensor [B * N; T; T]
    (data (tabulate [1 * B; N * 1; 1 * T; 1 * T]
             (fun idx => get false (Tensor [B; 1; T; T] (data mask))
                           (skipn 0 (map (fun '(i, n) => i mod n)
                                         (combine idx [B; 1; T; T])))))).

(** The scores [sc] after [masked_fill_] with the laid mask. *)
Definition masked_scores (m : Attention.t) (B T : nat) (sc : tensor score) (mask : tensor bool)
  : tensor score :=
  let N := Attention.num_heads m in
  tabulate [B * N; T; T]
    (fun idx => if get false (laid_mask m B T mask) (bidx [B * N; T; T] idx)
                then NegInf else get NegInf sc idx).

(** ** Sizes of the modules, as their constructors set them *)

(** An [Attention] over hidden size [H]. *)
Definition attention_sized (m : Attention.t) (H : nat) : Prop :=
  Attention.num_heads m * Attention.div_dimension m = H /\
  Linear.in_features (Attention.query_projection m) = H /\
  Linear.out_features (Attention.query_projection m) = H.

(** An [AttentionPerceptron] from [H] features back to [H] features. *)
Definition perceptron_sized (p : AttentionPerceptron.t) (H : nat) : Prop :=
  Linear.in_features (AttentionPerceptron.fc1 p) = H /\
  Linear.in_features (AttentionPerceptron.fc2 p)
    = Linear.out_features (AttentionPerceptron.fc1 p) /\
  Linear.out_features (AttentionPerceptron.fc2 p) = H /\
  match AttentionPerceptron.norm p with
  | Some ln => LayerNorm.normalized_shape ln
               = Linear.out_features (AttentionPerceptron.fc1 p)
  | None => True
  end.

(** A block whose attention size and hidden size are both [H]. *)
Definition block_sized (m : DiffusionTransformer.t) (H : nat) : Prop :=
  LayerNorm.normalized_shape (DiffusionTransformer.norm1 m) = H /\
  LayerNorm.normalized_shape (DiffusionTransformer.norm2 m) = H /\
  attention_sized (DiffusionTransformer.attention m) H /\
  perceptron_sized (DiffusionTransformer.perceptron m) H /\
  Linear.in_features (DiffusionTransformer.adaptiveLN m) = H /\
  Linear.out_features (DiffusionTransformer.adaptiveLN m) = 6 * H.

(** A final layer from hidden size [H] to [P] output features. *)
Definition final_sized (m : FinalLayer.t) (H P : nat) : Prop :=
  LayerNorm.normalized_shape (FinalLayer.layernorm m) = H /\
  Linear.in_features (FinalLayer.linear m) = H /\
  Linear.out_features (FinalLayer.linear m) = P /\
  Linear.in_features (FinalLayer.AdaptiveLN m) = H /\
  Linear.out_features (FinalLayer.AdaptiveLN m) = 2 * H.

(** ** Concrete modules and inputs *)

(** The linear layer [x |-> w * x + b] on one feature. *)
Definition scalar_linear (w b : R) : Linear.t :=
  Linear.mk 1 1 (Tensor [1; 1] [w]) (Some (Tensor [1] [b])).

(** One head of size 1; the query projection is the zero map, the key and
    value projections are the identity. *)
Definition one_head : Attention.t :=
  Attention.mk 1 1 (scalar_linear 0 0) (scalar_linear 1 0) (scalar_linear 1 0).

(** The zero map on two features. *)
Definition zero_linear_2 : Linear.t :=
  Linear.mk 2 2 (Tensor [2; 2] [0; 0; 0; 0]%R) (Some (Tensor [2] [0; 0]%R)).

(** Two heads of size 1 over hidden size 2, every projection the zero map:
    all scores are 0, so only the mask shapes the weights. *)
Definition two_heads : Attention.t :=
  Attention.mk 2 1 zero_linear_2 zero_linear_2 zero_linear_2.

(** A batch of two sequences of two tokens. *)
Definition two_by_two : tensor R := Tensor [2; 2; 2] [0; 0; 0; 0; 0; 0; 0; 0]%R.

(** The mask marks one position: batch 1, query 0, key 0. *)
Definition mask_batch_1 : tensor bool :=
  Tensor [2; 2; 2] [false; false; false; false; true; false; false; false].

(** A block of hidden size 1 whose attention gate is 1 and whose perceptron
    gate is 0: the conditioning projection has zero weight and the bias
    [(0, 0, 1, 0, 0, 0)]; the attention projection is the constant 1. *)
Definition gated_block : DiffusionTransformer.t :=
  DiffusionTransformer.mk
    (LayerNorm.init 1 false 1e-6%R) (LayerNorm.init 1 false 1e-6%R)
    (Attention.mk 1 1 (scalar_linear 0 1) (scalar_linear 0 1) (scalar_linear 0 1))
    1%Z
    (AttentionPerceptron.mk (scalar_linear 0 0) (Dropout.mk 0 true) None
                            (scalar_linear 0 0) (Dropout.mk 0 true))
    (Linear.mk 1 6 (Tensor [6; 1] [0; 0; 0; 0; 0; 0]%R)
               (Some (Tensor [6] [0; 0; 1; 0; 0; 0]%R))).

(** ** Further notions *)

(** The frequency at column [i] of [half]. *)
Definition frequency (max_period : Z) (half i : nat) : R :=
  exp (- ln (IZR max_period) * INR i / INR half).

Definition valid_prob (p : R) : Prop := (0 <= p <= 1)%R.

Definition or_default (o : option nat) (d : nat) : nat :=
  match o with Some n => n | None => d end.


(** ** What the attention computes *)

(** Feature [d] of head [h] of the projection of token [t] of sample [b]:
    head [h] owns the features [h * div_dimension ..] of a projected
    token.  The projection is [query_projection], which [forward] applies
    to all three inputs. *)
Definition head_feature (m : Attention.t) (x : tensor R) (b t h d : nat) : R :=
  Linear.entry (Attention.query_projection m) x [b; t; h * Attention.div_dimension m + d].

(** The scaled dot product of query token [i] and key token [j] in head
    [h] of sample [b]. *)
Definition dot_score (m : Attention.t) (q k : tensor R) (b h i j : nat) : R :=
  (Rsum (map (fun d => head_feature m q b i h d * head_feature m k b j h d)
             (seq 0 (Attention.div_dimension m)))
   / sqrt (INR (Attention.div_dimension m)))%R.

(** ** The embedders and the script *)

(** A [TimestepEmbedder] from [F] frequency features to hidden size [H]. *)
Definition timestep_sized (m : TimestepEmbedder.t) (H F : nat) : Prop :=
  TimestepEmbedder.frequency_embedding_size m = F /\
  Linear.in_features (fst (TimestepEmbedder.perceptron m)) = F /\
  Linear.in_features (snd (TimestepEmbedder.perceptron m))
    = Linear.out_features (fst (TimestepEmbedder.perceptron m)) /\
  Linear.out_features (snd (TimestepEmbedder.perceptron m)) = H.

(** A [LabelEmbedder] into hidden size [H]: its table has a row for every
    class and, with dropout, one more. *)
Definition label_sized (m : LabelEmbedder.t) (H : nat) : Prop :=
  Embedding.embedding_dim (LabelEmbedder.embedding_table m) = H /\
  Embedding.num_embeddings (LabelEmbedder.embedding_table m)
    = LabelEmbedder.num_classes m
      + (if Rltb 0 (LabelEmbedder.dropout_prob m) then 1 else 0).

(** The forward passes of the script, lines 397 to 462, on the modules it
    has constructed and initialised: [t = t_embedder(x)],
    [z = l_embedder(y)], [c = t + z], [result = DiT(value, c)] and
    [final(result, c)]. *)
Definition script_forward (t_embedder : TimestepEmbedder.t) (l_embedder : LabelEmbedder.t)
    (DiT : DiffusionTransformer.t) (final : FinalLayer.t)
    (x : tensor R) (y : tensor Z) (value : tensor R) (g : gen)
  : res (tensor R * tensor R * tensor R * gen) :=
  t <- TimestepEmbedder.forward t_embedder x ;;
  '(z, g1) <- LabelEmbedder.forward l_embedder y g ;;
  c <- tadd t z ;;
  '(result, g2) <- DiffusionTransformer.forward DiT value c g1 ;;
  out <- FinalLayer.forward final result c ;;
  Ok (c, result, out, g2).

(** * The float32 reading

    The definitions above read a float32 value as a real number.  That
    reading tells which entry is computed from which; it cannot tell
    whether [v * 0] is [0], which in float32 fails for an infinite [v] and
    for [nan].  The definitions below embed the forward passes a second
    time over float32 values that can overflow and can be [inf] or [nan].
    The identities of the forward passes are stated on them. *)

(** ** float32 values *)

(** A float32 value: a real number, an infinity or [nan].  The sign of a
    zero and the payload of a [nan] are not kept. *)
Inductive f32 : Type :=
| Fin (r : R)
| PInf
| NInf
| FNaN.

Definition finite (v : f32) : Prop :=
  match v with Fin _ => True | _ => False end.

(** [a <= b] on values that are not [nan]. *)
Definition fle (a b : f32) : Prop :=
  match a, b with
  | FNaN, _ | _, FNaN => False
  | NInf, _ | _, PInf => True
  | Fin x, Fin y => (x <= y)%R
  | _, _ => False
  end.

(** What the program takes from the arithmetic of the machine and from
    the kernels of the library, whose code is not the program's.
    - [rnd r] is the float32 value that an operation returns when its exact
      result is the real [r]: a value near [r], or an infinity when [r] lies
      beyond the largest float32 value.
    - [k_exp], [k_silu] and [k_gelu] are [torch.exp], [nn.SiLU] and
      [nn.GELU(approximate="tanh")] on one value.
    - [k_layer_norm eps row] is [F.layer_norm] without weight and bias on one
      row. *)
Record kernels : Type := Kernels {
  rnd : R -> f32;
  k_exp : f32 -> f32;
  k_silu : f32 -> f32;
  k_gelu : f32 -> f32;
  k_layer_norm : R -> list f32 -> list f32
}.

Definition inf_of (negative : bool) : f32 := if negative then NInf else PInf.

Module F32.

(** *** The operations of IEEE 754 on these values

    [rd] rounds the exact result of an operation on finite values. *)

Definition add (rd : R -> f32) (a b : f32) : f32 :=
  match a, b with
  | FNaN, _ | _, FNaN => FNaN
  | Fin x, Fin y => rd (x + y)%R
  | PInf, NInf | NInf, PInf => FNaN
  | PInf, _ | _, PInf => PInf
  | NInf, _ | _, NInf => NInf
  end.

Definition neg (a : f32) : f32 :=
  match a with
  | Fin x => Fin (- x)
  | PInf => NInf
  | NInf => PInf
  | FNaN => FNaN
  end.

Definition sub (rd : R -> f32) (a b : f32) : f32 := add rd a (neg b).

Definition mul (rd : R -> f32) (a b : f32) : f32 :=
  match a, b with
  | FNaN, _ | _, FNaN => FNaN
  | Fin x, Fin y => rd (x * y)%R
  | Fin x, PInf | PInf, Fin x => if Reqb x 0 then FNaN else inf_of (Rltb x 0)
  | Fin x, NInf | NInf, Fin x => if Reqb x 0 then FNaN else inf_of (negb (Rltb x 0))
  | PInf, PInf | NInf, NInf => PInf
  | PInf, NInf | NInf, PInf => NInf
  end.

(** A zero divisor is taken as [+0]: the divisors of the program, a square
    root and a sum of exponentials, are never [-0]. *)
Definition div (rd : R -> f32) (a b : f32) : f32 :=
  match a, b with
  | FNaN, _ | _, FNaN => FNaN
  | Fin x, Fin y =>
      if Reqb y 0 then (if Reqb x 0 then FNaN else inf_of (Rltb x 0))
      else rd (x / y)%R
  | Fin _, PInf | Fin _, NInf => Fin 0
  | PInf, Fin y => inf_of (Rltb y 0)
  | NInf, Fin y => inf_of (negb (Rltb y 0))
  | _, _ => FNaN
  end.

(** The larger of two values; [nan] wins, as in [torch.max]. *)
Definition max (a b : f32) : f32 :=
  match a, b with
  | FNaN, _ | _, FNaN => FNaN
  | PInf, _ | _, PInf => PInf
  | NInf, v | v, NInf => v
  | Fin x, Fin y => Fin (Rmax x y)
  end.

(** A sum, in the order of the indices. *)
Definition sum (rd : R -> f32) (l : list f32) : f32 := fold_right (add rd) (Fin 0) l.

Definition tadd (K : kernels) := map2b FNaN FNaN (add (rnd K)).
Definition tmul (K : kernels) := map2b FNaN FNaN (mul (rnd K)).
Definition bmm (K : kernels) := bmm_gen FNaN (sum (rnd K)) (mul (rnd K)).

(** *** The layers of [torch.nn] *)

(** [nn.Linear]: the parameters are finite float32 values. *)
Definition Linear_entry (K : kernels) (l : Linear.t) (x : tensor f32) (idx : list nat) : f32 :=
  let j := last idx 0 in
  let pre := removelast idx in
  let dot :=
    sum (rnd K) (map (fun k => mul (rnd K) (get FNaN x (pre ++ [k]))
                               (Fin (get 0%R (Linear.weight l) [j; k])))
               (seq 0 (Linear.in_features l))) in
  match Linear.bias l with
  | Some b => add (rnd K) dot (Fin (get 0%R b [j]))
  | None => dot
  end.

Definition Linear_forward (K : kernels) (l : Linear.t) (x : tensor f32) : res (tensor f32) :=
  match rev (shape x) with
  | k :: lead =>
      if k =? Linear.in_features l
      then Ok (tabulate (rev lead ++ [Linear.out_features l]) (Linear_entry K l x))
      else Raise RuntimeError
  | [] => Raise RuntimeError
  end.

Definition SiLU (K : kernels) (x : tensor f32) : tensor f32 := tmap (k_silu K) x.

Definition GELU_tanh (K : kernels) (x : tensor f32) : tensor f32 := tmap (k_gelu K) x.

(** [nn.LayerNorm]: the kernel normalises the row, weight and bias follow. *)
Definition LayerNorm_entry (K : kernels) (l : LayerNorm.t) (x : tensor f32) (idx : list nat)
  : f32 :=
  let n := LayerNorm.normalized_shape l in
  let j := last idx 0 in
  let pre := removelast idx in
  let row := map (fun k => get FNaN x (pre ++ [k])) (seq 0 n) in
  let y := nth j (k_layer_norm K (LayerNorm.eps l) row) FNaN in
  let y := match LayerNorm.weight l with
           | Some w => mul (rnd K) y (Fin (get 0%R w [j]))
           | None => y
           end in
  match LayerNorm.bias l with
  | Some b => add (rnd K) y (Fin (get 0%R b [j]))
  | None => y
  end.

Definition LayerNorm_forward (K : kernels) (l : LayerNorm.t) (x : tensor f32)
  : res (tensor f32) :=
  match rev (shape x) with
  | k :: _ =>
      if k =? LayerNorm.normalized_shape l
      then Ok (tabulate (shape x) (LayerNorm_entry K l x))
      else Raise RuntimeError
  | [] => Raise RuntimeError
  end.

(** [nn.Dropout] in training mode: the noise is 0 or [1 / (1 - p)]. *)
Definition Dropout_forward (K : kernels) (d : Dropout.t) (x : tensor f32) (g : gen)
  : tensor f32 * gen :=
  if negb (Dropout.training d) || Reqb (Dropout.p d) 0 || (numel (shape x) =? 0) then (x, g)
  else if Reqb (Dropout.p d) 1 then (tmap (fun v => mul (rnd K) v (Fin 0)) x, g)
  else
    let (us, g') := draw (length (data x)) g in
    (Tensor (shape x)
       (map (fun '(v, u) =>
               mul (rnd K) v (div (rnd K) (Fin (if Rltb u (1 - Dropout.p d) then 1 else 0))
                              (rnd K (1 - Dropout.p d))))
            (combine (data x) us)), g').

(** [F.softmax] on one row: the kernel subtracts the largest score before
    it takes the exponentials. *)
Definition softmax_row (K : kernels) (row : list f32) : list f32 :=
  let largest := fold_right max NInf row in
  let es := map (fun s => k_exp K (sub (rnd K) s largest)) row in
  let z := sum (rnd K) es in
  map (fun e => div (rnd K) e z) es.

(** [F.softmax(t, dim=-1)] *)
Definition softmax (K : kernels) (t : tensor f32) : tensor f32 :=
  let n := last (shape t) 1 in
  tabulate (shape t)
    (fun idx =>
       nth (last idx 0)
           (softmax_row K (map (fun l => get FNaN t (removelast idx ++ [l])) (seq 0 n)))
           FNaN).

(** [t.masked_fill_(mask, -inf)] *)
Definition masked_fill (t : tensor f32) (mask : tensor bool) : res (tensor f32) :=
  match broadcast_shapes (shape t) (shape mask) with
  | Some s =>
      if list_eqb s (shape t)
      then Ok (tabulate (shape t)
                 (fun idx => if get false mask (bidx (shape mask) idx)
                             then NInf else get FNaN t idx))
      else Raise RuntimeError
  | None => Raise RuntimeError
  end.

(** *** [model.py] *)

Definition modulate (K : kernels) (x shift scale : tensor f32) : res (tensor f32) :=
  sc <- unsqueeze1 scale ;;
  m <- tmul K x (tmap (add (rnd K) (Fin 1)) sc) ;;
  sh <- unsqueeze1 shift ;;
  tadd K m sh.

Definition Attention_split_heads (K : kernels) (m : Attention.t) (proj : Linear.t)
    (batch_size : nat) (x : tensor f32) : res (tensor f32) :=
  y <- Linear_forward K proj x ;;
  view [Some batch_size; None; Some (Attention.num_heads m);
        Some (Attention.div_dimension m)] y.

Definition Attention_merge_heads (m : Attention.t) (batch_size : nat) (x : tensor f32)
  : res (tensor f32) :=
  y <- permute FNaN [2; 0; 1; 3] x ;;
  view [Some (batch_size * Attention.num_heads m); None;
        Some (Attention.div_dimension m)] (contiguous y).

(** Lines 183-221 of [Attention.forward]: the scores that go into the
    softmax, with the merged value and the batch size. *)
Definition Attention_scores (K : kernels) (m : Attention.t) (query key value : tensor f32)
    (mask : option (tensor bool)) : res (tensor f32 * tensor f32 * nat) :=
  batch_size <- match shape value with
                | b :: _ => Ok b
                | [] => Raise IndexError
                end ;;
  query <- Attention_split_heads K m (Attention.query_projection m) batch_size query ;;
  key <- Attention_split_heads K m (Attention.query_projection m) batch_size key ;;
  value <- Attention_split_heads K m (Attention.query_projection m) batch_size value ;;
  query <- Attention_merge_heads m batch_size query ;;
  key <- Attention_merge_heads m batch_size key ;;
  value <- Attention_merge_heads m batch_size value ;;
  key_t <- transpose12 FNaN key ;;
  qk <- bmm K query key_t ;;
  let attention_score :=
    tmap (fun v => div (rnd K) v (rnd K (sqrt (INR (Attention.div_dimension m))))) qk in
  attention_score <-
    match mask with
    | Some mask =>
        mask <- unsqueeze1 mask ;;
        mask <- repeat_tensor false [1; Attention.num_heads m; 1; 1] mask ;;
        mask <- view (map (@Some nat) (shape attention_score)) mask ;;
        masked_fill attention_score mask
    | None => Ok attention_score
    end ;;
  Ok (attention_score, value, batch_size).

(** [Attention.forward]: lines 223-241 follow the scores. *)
Definition Attention_forward (K : kernels) (m : Attention.t) (query key value : tensor f32)
    (mask : option (tensor bool)) : res (tensor f32 * tensor f32) :=
  '(attention_score, value, batch_size) <- Attention_scores K m query key value mask ;;
  let attention_matrix := softmax K attention_score in
  context <- bmm K attention_matrix value ;;
  context <- view [Some (Attention.num_heads m); Some batch_size; None;
                   Some (Attention.div_dimension m)] context ;;
  context <- permute FNaN [1; 2; 0; 3] context ;;
  context <- view [Some batch_size; None;
                   Some (Attention.num_heads m * Attention.div_dimension m)]
               (contiguous context) ;;
  Ok (context, attention_matrix).

Definition AttentionPerceptron_forward (K : kernels) (m : AttentionPerceptron.t)
    (x : tensor f32) (g : gen) : res (tensor f32 * gen) :=
  x <- Linear_forward K (AttentionPerceptron.fc1 m) x ;;
  let x := GELU_tanh K x in
  let (x, g1) := Dropout_forward K (AttentionPerceptron.drop1 m) x g in
  x <- match AttentionPerceptron.norm m with
       | Some ln => LayerNorm_forward K ln x
       | None => Ok x
       end ;;
  x <- Linear_forward K (AttentionPerceptron.fc2 m) x ;;
  let (x, g2) := Dropout_forward K (AttentionPerceptron.drop2 m) x g1 in
  Ok (x, g2).

(** Lines 335-345 of [DiffusionTransformer.forward], up to the call of the
    perceptron: the gate of the perceptron sub-layer and what the
    perceptron returns. *)
Definition DiffusionTransformer_perceptron (K : kernels) (m : DiffusionTransformer.t)
    (x c : tensor f32) (g : gen) : res (tensor f32 * tensor f32 * gen) :=
  a <- Linear_forward K (DiffusionTransformer.adaptiveLN m) (SiLU K c) ;;
  chunks <- chunk1 FNaN 6 a ;;
  match chunks with
  | [attn_shift; attn_scale; attn_gate; mlp_shift; mlp_scale; mlp_gate] =>
      n1 <- LayerNorm_forward K (DiffusionTransformer.norm1 m) x ;;
      attn_input <- modulate K n1 attn_shift attn_scale ;;
      gate <- unsqueeze1 attn_gate ;;
      '(context, _) <- Attention_forward K (DiffusionTransformer.attention m)
                         attn_input attn_input attn_input None ;;
      gated <- tmul K gate context ;;
      attn_out <- tadd K x gated ;;
      n2 <- LayerNorm_forward K (DiffusionTransformer.norm2 m) attn_out ;;
      perceptron_input <- modulate K n2 mlp_shift mlp_scale ;;
      gate <- unsqueeze1 mlp_gate ;;
      '(h, g') <- AttentionPerceptron_forward K (DiffusionTransformer.perceptron m)
                    perceptron_input g ;;
      Ok (gate, h, g')
  | _ => Raise ValueError
  end.

(** [DiffusionTransformer.forward]: line 345 gates what the perceptron
    returns and adds it to [x]. *)
Definition DiffusionTransformer_forward (K : kernels) (m : DiffusionTransformer.t)
    (x c : tensor f32) (g : gen) : res (tensor f32 * gen) :=
  '(gate, h, g') <- DiffusionTransformer_perceptron K m x c g ;;
  gated <- tmul K gate h ;;
  x <- tadd K x gated ;;
  Ok (x, g').

(** Lines 372-373 of [FinalLayer.forward]: the modulated tokens. *)
Definition FinalLayer_modulated (K : kernels) (m : FinalLayer.t) (x c : tensor f32)
  : res (tensor f32) :=
  a <- Linear_forward K (FinalLayer.AdaptiveLN m) (SiLU K c) ;;
  chunks <- chunk1 FNaN 2 a ;;
  match chunks with
  | [shift; scale] =>
      n <- LayerNorm_forward K (FinalLayer.layernorm m) x ;;
      modulate K n shift scale
  | _ => Raise ValueError
  end.

Definition FinalLayer_forward (K : kernels) (m : FinalLayer.t) (x c : tensor f32)
  : res (tensor f32) :=
  x <- FinalLayer_modulated K m x c ;;
  Linear_forward K (FinalLayer.linear m) x.

End F32.

(** ** What the theorems ask of the arithmetic and of the kernels *)

(** The rounding and the exponential of IEEE 754 arithmetic: rounding keeps
    0 and 1 and the order, the exponential takes [-inf] to 0, 0 to 1 and
    what is not positive into [[0, 1]] (it may underflow to 0), and keeps
    [nan]. *)
Record ieee (K : kernels) : Prop := {
  law_rnd_0 : rnd K 0 = Fin 0;
  law_rnd_1 : rnd K 1 = Fin 1;
  law_rnd_mono : forall x y, (x <= y)%R -> fle (rnd K x) (rnd K y);
  law_exp_nan : k_exp K FNaN = FNaN;
  law_exp_ninf : k_exp K NInf = Fin 0;
  law_exp_0 : k_exp K (Fin 0) = Fin 1;
  law_exp_unit : forall x, (x <= 0)%R ->
               exists e, k_exp K (Fin x) = Fin e /\ (0 <= e <= 1)%R
}.

(** [v] is a float32 value: rounding keeps it. *)
Definition representable (K : kernels) (v : f32) : Prop :=
  match v with Fin r => rnd K r = Fin r | _ => True end.

(** Rounding is neglected on [[0, n]]: the declared reading of float32 as
    real numbers, on the range of the weights of a row of [n] keys and of
    their sums. *)
Definition exact_up_to (K : kernels) (n : nat) : Prop :=
  forall r, (0 <= r <= INR n)%R -> rnd K r = Fin r.

(** ** Reference kernels *)

(** The least magnitude that float32 rounds to an infinity,
    [2^128 - 2^103]. *)
Definition overflow_bound : R := 340282356779733661637539395458142568448%R.

(** Rounding neglected: an exact result is kept, or is an infinity when
    it has overflowed. *)
Definition saturate (r : R) : f32 :=
  if Rle_dec overflow_bound r then PInf
  else if Rle_dec r (- overflow_bound) then NInf
  else Fin r.

Definition sqrt_f32 (rd : R -> f32) (v : f32) : f32 :=
  match v with
  | Fin x => if Rltb x 0 then FNaN else rd (sqrt x)
  | PInf => PInf
  | _ => FNaN
  end.

(** Layer normalisation of one row in two passes: the mean, then the
    variance. *)
Definition layer_norm_two_pass (rd : R -> f32) (eps : R) (row : list f32) : list f32 :=
  let n := Fin (INR (length row)) in
  let mean := F32.div rd (F32.sum rd row) n in
  let var := F32.div rd (F32.sum rd (map (fun v => F32.mul rd (F32.sub rd v mean)
                                                              (F32.sub rd v mean)) row)) n in
  map (fun v => F32.div rd (F32.sub rd v mean) (sqrt_f32 rd (F32.add rd var (Fin eps)))) row.

(** Kernels that compute the mathematical functions and round with [rd]. *)
Definition reference (rd : R -> f32) : kernels :=
  Kernels rd
    (fun v => match v with
              | Fin x => rd (exp x)
              | PInf => PInf
              | NInf => Fin 0
              | FNaN => FNaN
              end)
    (fun v => match v with
              | Fin x => rd (x / (1 + exp (- x)))%R
              | PInf => PInf
              | _ => FNaN
              end)
    (fun v => match v with
              | Fin x => rd (0.5 * x * (1 + tanh (sqrt (2 / PI) * (x + 0.044715 * (x * x * x)))))%R
              | PInf => PInf
              | _ => FNaN
              end)
    (layer_norm_two_pass rd).

(** Exact arithmetic on the finite values, and the same with overflow. *)
Definition exact_kernels : kernels := reference Fin.
Definition saturating_kernels : kernels := reference saturate.

(** ** Rows of scores *)

(** A row of scores the softmax can normalise: it holds no [nan] and no
    [+inf], and not [-inf] only. *)
Definition row_bounded (row : list f32) : Prop :=
  ~ In FNaN row /\ ~ In PInf row /\ exists s, In (Fin s) row.

(** Row [i] of matrix [r] of a tensor of scores or of weights. *)
Definition row_of (t : tensor f32) (r i n : nat) : list f32 :=
  map (fun l => get FNaN t [r; i; l]) (seq 0 n).

(** ** Concrete modules for the float32 reading *)

(** One head of size 1 whose projection is the identity. *)
Definition identity_head : Attention.t :=
  Attention.mk 1 1 (scalar_linear 1 0) (scalar_linear 1 0) (scalar_linear 1 0).

(** A block of hidden size 1 constructed with [layernorm_epsilon = 0]; its
    conditioning projection has zero weight and bias. *)
Definition unguarded_block : DiffusionTransformer.t :=
  DiffusionTransformer.mk
    (LayerNorm.init 1 false 0%R) (LayerNorm.init 1 false 0%R)
    identity_head
    1%Z
    (AttentionPerceptron.mk (scalar_linear 1 0) (Dropout.mk 0 true) None
                            (scalar_linear 1 0) (Dropout.mk 0 true))
    (Linear.mk 1 6 (Tensor [6; 1] [0; 0; 0; 0; 0; 0]%R)
               (Some (Tensor [6] [0; 0; 0; 0; 0; 0]%R))).

(** The attention of hidden size 1 with one head that the constructor
    returns when every draw is 0. *)
Definition constructed_head : Attention.t :=
  match Attention.init 1 1 (fun _ => 0%R) with
  | Ok (m, _) => m
  | Raise _ => identity_head
  end.

(** The tokens of [two_by_two] as float32 values. *)
Definition two_by_two_f32 : tensor f32 := tmap Fin two_by_two.

(** * Properties *)

(** ** Indices *)

Lemma numel_cons (d : nat) (s : list nat) : numel (d :: s) = d * numel s.
Proof. reflexivity. Qed.

Lemma numel_app (s1 s2 : list nat) : numel (s1 ++ s2) = numel s1 * numel s2.
Proof.
  induction s1 as [|d s1 IH]; simpl.
  - lia.
  - rewrite IH. lia.
Qed.

Lemma ravel_unravel (s : list nat) :
  forall k, k < numel s -> ravel s (unravel s k) = k.
Proof.
  induction s as [|d s IH]; intros k Hk; simpl in *.
  - lia.
  - destruct (Nat.eq_dec (numel s) 0) as [E|E].
    + rewrite E in Hk. lia.
    + rewrite IH by (apply Nat.mod_upper_bound; exact E).
      pose proof (Nat.div_mod_eq k (numel s)). lia.
Qed.

Lemma ravel_lt (s : list nat) :
  forall idx, in_range s idx -> ravel s idx < numel s.
Proof.
  induction s as [|d s IH]; intros idx H; inversion H; subst; simpl.
  - lia.
  - specialize (IH _ H4). nia.
Qed.

Lemma unravel_ravel (s : list nat) :
  forall idx, in_range s idx -> unravel s (ravel s idx) = idx.
Proof.
  induction s as [|d s IH]; intros idx H; inversion H; subst; simpl.
  - reflexivity.
  - pose proof (ravel_lt H4) as Hlt.
    assert (E : numel s <> 0) by lia.
    rewrite Nat.div_add_l by exact E.
    rewrite (Nat.div_small _ _ Hlt), Nat.add_0_r.
    rewrite Nat.add_comm, Nat.Div0.mod_add, (Nat.mod_small _ _ Hlt).
    rewrite IH by exact H4. reflexivity.
Qed.

Lemma unravel_in_range (s : list nat) :
  forall k, k < numel s -> in_range s (unravel s k).
Proof.
  induction s as [|d s IH]; intros k Hk; simpl in *.
  - constructor.
  - assert (E : numel s <> 0) by nia.
    constructor.
    + apply Nat.Div0.div_lt_upper_bound. lia.
    + apply IH. apply Nat.mod_upper_bound. exact E.
Qed.

Lemma unravel_length (s : list nat) (k : nat) : length (unravel s k) = length s.
Proof. revert k. induction s; intros; simpl; auto. Qed.

(** ** [tabulate] and [get] *)

Lemma shape_tabulate {A} (s : list nat) (f : list nat -> A) : shape (tabulate s f) = s.
Proof. reflexivity. Qed.

Lemma wf_tabulate {A} (s : list nat) (f : list nat -> A) : wf (tabulate s f).
Proof. unfold wf, tabulate; simpl. now rewrite length_map, length_seq. Qed.

Lemma get_tabulate {A} (d : A) (s : list nat) (f : list nat -> A) (idx : list nat) :
  in_range s idx -> get d (tabulate s f) idx = f idx.
Proof.
  intros H. unfold get, tabulate; simpl.
  pose proof (ravel_lt H) as Hlt.
  rewrite (nth_indep _ d (f (unravel s 0))) by now rewrite length_map, length_seq.
  rewrite (map_nth (fun k => f (unravel s k))), seq_nth by exact Hlt.
  simpl. now rewrite unravel_ravel.
Qed.

Lemma tensor_eq {A} (t u : tensor A) :
  shape t = shape u -> data t = data u -> t = u.
Proof. destruct t, u; simpl; intros; subst; reflexivity. Qed.

Lemma map_seq_nth {A} (d : A) (l : list A) :
  map (fun k => nth k l d) (seq 0 (length l)) = l.
Proof.
  apply nth_ext with (d := d) (d' := d).
  - now rewrite length_map, length_seq.
  - intros n Hn. rewrite length_map, length_seq in Hn.
    rewrite (nth_indep _ d (nth 0 l d)) by now rewrite length_map, length_seq.
    rewrite (map_nth (fun k => nth k l d)), seq_nth by exact Hn. reflexivity.
Qed.

Lemma tabulate_ext {A} (s : list nat) (f h : list nat -> A) :
  (forall idx, in_range s idx -> f idx = h idx) -> tabulate s f = tabulate s h.
Proof.
  intros H. unfold tabulate. f_equal.
  apply map_ext_in. intros k Hk. apply in_seq in Hk.
  apply H, unravel_in_range. lia.
Qed.

Lemma tabulate_get {A} (d : A) (t : tensor A) :
  wf t -> tabulate (shape t) (get d t) = t.
Proof.
  intros H. apply tensor_eq; [reflexivity|]. simpl.
  transitivity (map (fun k => nth k (data t) d) (seq 0 (length (data t)))).
  - rewrite H. apply map_ext_in. intros k Hk. apply in_seq in Hk.
    unfold get. rewrite ravel_unravel by lia. reflexivity.
  - apply map_seq_nth.
Qed.

Lemma Forall_tabulate {A} (P : A -> Prop) (s : list nat) (f : list nat -> A) :
  (forall idx, in_range s idx -> P (f idx)) -> Forall P (data (tabulate s f)).
Proof.
  intros H. simpl. apply Forall_forall. intros x Hx.
  apply in_map_iff in Hx as (k & <- & Hk). apply in_seq in Hk.
  apply H, unravel_in_range. lia.
Qed.

Lemma get_Forall {A} (P : A -> Prop) (d : A) (t : tensor A) (idx : list nat) :
  P d -> Forall P (data t) -> P (get d t idx).
Proof.
  intros Hd H. unfold get.
  destruct (nth_in_or_default (ravel (shape t) idx) (data t) d) as [Hin|E].
  - eapply Forall_forall; eauto.
  - rewrite E. exact Hd.
Qed.

(** ** Evaluating the model on concrete tensors *)

Ltac eval_model :=
  cbv -[Rplus Rmult Rminus Rdiv Rinv Ropp exp sqrt IZR INR cos sin tanh PI ln
        Rlt_dec Req_dec_T Rltb Reqb].

Lemma Rltb_true (x y : R) : (x < y)%R -> Rltb x y = true.
Proof. intros H. unfold Rltb. destruct (Rlt_dec x y); [reflexivity | contradiction]. Qed.

Lemma Rltb_false (x y : R) : (y <= x)%R -> Rltb x y = false.
Proof. intros H. unfold Rltb. destruct (Rlt_dec x y); [lra | reflexivity]. Qed.

Lemma Reqb_refl (x : R) : Reqb x x = true.
Proof. unfold Reqb. destruct (Req_dec_T x x); [reflexivity | contradiction]. Qed.

Lemma Reqb_false (x y : R) : x <> y -> Reqb x y = false.
Proof. intros H. unfold Reqb. destruct (Req_dec_T x y); [contradiction | reflexivity]. Qed.

Lemma list_eqb_refl (s : list nat) : list_eqb s s = true.
Proof. unfold list_eqb. destruct (list_eq_dec Nat.eq_dec s s); [reflexivity | contradiction]. Qed.

(** ** Construction of [Attention] *)

Example init_128_2 : is_ok (Attention.init 128 2 (fun _ => 0%R)) = true.
Proof. reflexivity. Qed.

Example init_5_2 (g : gen) : Attention.init 5 2 g = Raise AssertionError.
Proof. reflexivity. Qed.

Lemma attention_init_ok (dim heads : nat) (g : gen) :
  heads <> 0 -> dim mod heads = 0 ->
  exists m g', Attention.init dim heads g = Ok (m, g') /\
               Attention.num_heads m = heads /\
               Attention.div_dimension m = dim / heads.
Proof.
  intros Hh Hd. unfold Attention.init, py_mod.
  apply Nat.eqb_neq in Hh. rewrite Hh. simpl. rewrite Hd. simpl.
  destruct (Linear.init dim (heads * (dim / heads)) true g) as [q g1].
  destruct (Linear.init dim (heads * (dim / heads)) true g1) as [k g2].
  destruct (Linear.init dim (heads * (dim / heads)) true g2) as [v g3].
  eexists _, _. repeat split.
Qed.

Lemma attention_init_raises (dim heads : nat) (g : gen) :
  Attention.init dim heads g =
    (if heads =? 0 then Raise ZeroDivisionError
     else if dim mod heads =? 0 then Attention.init dim heads g
     else Raise AssertionError).
Proof.
  unfold Attention.init, py_mod.
  destruct (heads =? 0); [reflexivity|]. simpl.
  destruct (dim mod heads =? 0); reflexivity.
Qed.

(** ** Broadcasting of equal shapes *)

Lemma broadcast_rev_same (r : list nat) : broadcast_rev r r = Some r.
Proof.
  induction r as [|a r IH]; simpl.
  - reflexivity.
  - now rewrite IH, Nat.eqb_refl.
Qed.

Lemma broadcast_shapes_same (s : list nat) : broadcast_shapes s s = Some s.
Proof.
  unfold broadcast_shapes. rewrite broadcast_rev_same. simpl.
  now rewrite rev_involutive.
Qed.

Lemma bidx_same (s idx : list nat) : in_range s idx -> bidx s idx = idx.
Proof.
  intros Hr. unfold bidx.
  rewrite (Forall2_length Hr), Nat.sub_diag. cbn [skipn].
  induction Hr as [|i n idx s Hi Hr IH]; [reflexivity|].
  cbn [combine map]. rewrite IH. f_equal.
  destruct (Nat.eqb_spec n 1); [lia | reflexivity].
Qed.

(** ** [LabelEmbedder] *)

Section LabelEmbedder_lookup.

Variables (num_classes hidden_size : nat) (dropout_prob : R).
Variable g0 : gen.

Let m := fst (LabelEmbedder.init num_classes hidden_size dropout_prob g0).

Lemma label_table_rows :
  Embedding.num_embeddings (LabelEmbedder.embedding_table m)
  = num_classes + (if Rltb 0 dropout_prob then 1 else 0).
Proof. reflexivity. Qed.

Lemma label_fields :
  LabelEmbedder.num_classes m = num_classes /\
  LabelEmbedder.dropout_prob m = dropout_prob.
Proof. split; reflexivity. Qed.

Lemma token_dropper_range (labels : tensor Z) (g : gen) (B : nat) :
  shape labels = [B] ->
  Forall (fun l => 0 <= l < Z.of_nat num_classes)%Z (data labels) ->
  exists labels' g',
    LabelEmbedder.token_dropper m labels g = Ok (labels', g') /\
    shape labels' = [B] /\
    Forall (fun i => 0 <= i <= Z.of_nat num_classes)%Z (data labels') /\
    forall i, i < B ->
      get 0%Z labels' [i] = get 0%Z labels [i] \/
      get 0%Z labels' [i] = Z.of_nat num_classes.
Proof.
  intros Hs Hl. unfold LabelEmbedder.token_dropper, draw, map2b. rewrite Hs.
  cbn [shape]. rewrite broadcast_shapes_same. simpl bind.
  eexists _, _. split; [reflexivity|]. split; [reflexivity|]. split.
  - apply Forall_tabulate. intros idx _.
    destruct (get false _ _).
    + simpl. lia.
    + apply get_Forall with (P := fun i => (0 <= i <= Z.of_nat num_classes)%Z).
      * lia.
      * eapply Forall_impl; [|exact Hl]. simpl. intros; lia.
  - intros i Hi.
    assert (Hin : in_range [B] [i]) by (repeat constructor; exact Hi).
    rewrite get_tabulate by exact Hin. cbn [shape]. rewrite !(bidx_same Hin).
    destruct (get false _ _); [right | left]; reflexivity.
Qed.

End LabelEmbedder_lookup.

(** C10.  With [dropout_prob > 0] the table of a constructed [LabelEmbedder]
    has [num_classes + 1] rows, and on a batch of labels in
    [[0, num_classes)] every index that [forward] looks up, a label or the
    substituted [num_classes], lies in [[0, num_classes]]: the lookup
    succeeds. *)
Theorem label_lookup_in_range
    (num_classes hidden_size : nat) (dropout_prob : R) (g0 g : gen)
    (labels : tensor Z) (B : nat) :
  (0 < dropout_prob)%R ->
  shape labels = [B] ->
  Forall (fun l => 0 <= l < Z.of_nat num_classes)%Z (data labels) ->
  let m := fst (LabelEmbedder.init num_classes hidden_size dropout_prob g0) in
  Embedding.num_embeddings (LabelEmbedder.embedding_table m) = num_classes + 1 /\
  exists looked g' e,
    LabelEmbedder.looked_up m labels g = Ok (looked, g') /\
    (forall i, i < B ->
       get 0%Z looked [i] = get 0%Z labels [i] \/
       get 0%Z looked [i] = Z.of_nat num_classes) /\
    Forall (fun i => 0 <= i <= Z.of_nat num_classes)%Z (data looked) /\
    Forall (fun i => 0 <= i < Z.of_nat
                       (Embedding.num_embeddings (LabelEmbedder.embedding_table m)))%Z
           (data looked) /\
    LabelEmbedder.forward m labels g = Ok (e, g').
Proof.
  intros Hp Hs Hl m.
  assert (Hrows : Embedding.num_embeddings (LabelEmbedder.embedding_table m)
                  = num_classes + 1).
  { subst m. rewrite label_table_rows, (Rltb_true Hp). reflexivity. }
  split; [exact Hrows|].
  destruct (@token_dropper_range num_classes hidden_size dropout_prob g0 labels g B Hs Hl)
    as (looked & g' & Hd & _ & Hr & Heach).
  assert (Hlook : LabelEmbedder.looked_up m labels g = Ok (looked, g')).
  { unfold LabelEmbedder.looked_up. subst m. simpl LabelEmbedder.dropout_prob.
    rewrite (Rltb_true Hp). exact Hd. }
  assert (Hin : Forall (fun i => 0 <= i < Z.of_nat
                   (Embedding.num_embeddings (LabelEmbedder.embedding_table m)))%Z
                  (data looked)).
  { rewrite Hrows. eapply Forall_impl; [|exact Hr]. simpl. intros; lia. }
  assert (Hall : forallb (Embedding.in_table (LabelEmbedder.embedding_table m))
                         (data looked) = true).
  { apply forallb_forall. intros i Hi.
    pose proof (proj1 (Forall_forall _ _) Hin i Hi) as Hrange. cbv beta in Hrange.
    unfold Embedding.in_table. apply andb_true_iff. split.
    - apply Z.leb_le. lia.
    - apply Z.ltb_lt. lia. }
  eexists looked, g', _. repeat split; try assumption.
  unfold LabelEmbedder.forward. rewrite Hlook. cbn [bind].
  unfold Embedding.forward. rewrite Hall. reflexivity.
Qed.

Lemma label_lookup_in_range_witness :
  exists looked g' e,
    LabelEmbedder.looked_up
      (fst (LabelEmbedder.init 3 2 (1/10)%R (fun _ => 0%R)))
      (Tensor [2] [0%Z; 2%Z]) (fun _ => 0%R) = Ok (looked, g') /\
    Forall (fun i => 0 <= i <= 3)%Z (data looked) /\
    LabelEmbedder.forward
      (fst (LabelEmbedder.init 3 2 (1/10)%R (fun _ => 0%R)))
      (Tensor [2] [0%Z; 2%Z]) (fun _ => 0%R) = Ok (e, g').
Proof.
  destruct (@label_lookup_in_range 3 2 (1/10)%R (fun _ => 0%R) (fun _ => 0%R)
              (Tensor [2] [0%Z; 2%Z]) 2) as (_ & looked & g' & e & H1 & _ & H2 & _ & H4).
  - lra.
  - reflexivity.
  - repeat constructor; simpl; lia.
  - exists looked, g', e. repeat split; assumption.
Defined.

(** ** Initial parameter values *)

Lemma sqrt_INR_1 : sqrt (INR 1) = 1%R.
Proof. simpl. apply sqrt_1. Qed.

Lemma all_zero_constant (t : tensor R) : all_zero (constant_ t 0).
Proof.
  unfold all_zero, constant_, tmap. simpl.
  apply Forall_forall. intros x Hx. apply in_map_iff in Hx as (y & <- & _). reflexivity.
Qed.

Lemma zeroed_is_zero (l : Linear.t) : zero_linear (zeroed l).
Proof.
  split.
  - apply all_zero_constant.
  - unfold zeroed. simpl. destruct (Linear.bias l); simpl; [apply all_zero_constant | exact I].
Qed.

Lemma linear_init_bias (i o : nat) (g : gen) :
  exists b, Linear.bias (fst (Linear.init i o true g)) = Some b /\ shape b = [o].
Proof. unfold Linear.init, uniform_, draw. simpl. eexists. split; reflexivity. Qed.

(** C4, as the code has it.  The constructors leave the default
    initialisation of [nn.Linear] in place; it is the step applied after
    construction, [nn.init.constant_(., 0)], that makes the weight and the
    bias of the block's conditioning projection, and of the final layer's
    conditioning projection and output projection, all zero, with their
    shapes unchanged. *)
Theorem zero_after_external_init
    (dim heads hidden : nat) (ratio : number) (affine : bool) (eps rate : R)
    (pbias pln : bool) (patch out_channels : nat) (g g1 : gen)
    (m : DiffusionTransformer.t) (g' : gen) :
  DiffusionTransformer.init dim heads hidden ratio affine eps rate pbias pln g
    = Ok (m, g') ->
  let f := fst (FinalLayer.init hidden patch out_channels g1) in
  zero_linear (DiffusionTransformer.adaptiveLN (zero_block m)) /\
  zero_linear (FinalLayer.AdaptiveLN (zero_final f)) /\
  zero_linear (FinalLayer.linear (zero_final f)) /\
  shape (Linear.weight (DiffusionTransformer.adaptiveLN (zero_block m)))
    = [6 * hidden; hidden] /\
  shape (Linear.weight (FinalLayer.linear (zero_final f)))
    = [patch * patch * out_channels; hidden] /\
  (exists b, Linear.bias (DiffusionTransformer.adaptiveLN (zero_block m)) = Some b) /\
  (exists b, Linear.bias (FinalLayer.linear (zero_final f)) = Some b).
Proof.
  intros Hinit f.
  split; [apply zeroed_is_zero|]. split; [apply zeroed_is_zero|].
  split; [apply zeroed_is_zero|].
  unfold DiffusionTransformer.init in Hinit.
  destruct (Attention.init dim heads g) as [[a ga]|]; [|discriminate].
  cbn [bind] in Hinit.
  destruct (int_mul hidden ratio) as [ph|]; [|discriminate]. cbn [bind] in Hinit.
  destruct (ph <? 0)%Z; [discriminate|]. cbn [bind] in Hinit.
  destruct (AttentionPerceptron.init _ _ _ _ _ _ _) as [[p gp]|]; [|discriminate].
  cbn [bind] in Hinit.
  injection Hinit as <- _.
  repeat split; try reflexivity; eexists; reflexivity.
Qed.

(** A block and a final layer of size 1, built from the generator that
    yields 0 throughout: every default-initialised entry is [-bound = -1]. *)
Lemma dropout_init_0 : Dropout.init 0 = Ok (Dropout.mk 0 true).
Proof. unfold Dropout.init. now rewrite !Rltb_false by lra. Qed.

Lemma default_entry : (- (1 / sqrt (INR 1)) + (1 / sqrt (INR 1) - - (1 / sqrt (INR 1))) * 0 = -1)%R.
Proof. rewrite sqrt_INR_1. lra. Qed.

Lemma block_init_example :
  exists m g',
    DiffusionTransformer.init 1 1 1 (PyInt 1) false 1e-6%R 0%R true false (fun _ => 0%R)
      = Ok (m, g') /\
    data (Linear.weight (DiffusionTransformer.adaptiveLN m)) = List.repeat (-1)%R 6.
Proof.
  unfold DiffusionTransformer.init. eval_model.
  rewrite !Rltb_false by lra.
  eexists _, _. split; [reflexivity|].
  cbn [DiffusionTransformer.adaptiveLN Linear.weight data].
  rewrite default_entry. reflexivity.
Qed.

Lemma final_init_example :
  data (Linear.weight (FinalLayer.linear (fst (FinalLayer.init 1 1 1 (fun _ => 0%R)))))
  = [(-1)%R].
Proof. eval_model. rewrite default_entry. reflexivity. Qed.

Lemma zero_after_external_init_witness :
  exists m g',
    DiffusionTransformer.init 1 1 1 (PyInt 1) false 1e-6%R 0%R true false (fun _ => 0%R)
      = Ok (m, g') /\
    zero_linear (DiffusionTransformer.adaptiveLN (zero_block m)) /\
    zero_linear (FinalLayer.linear
                   (zero_final (fst (FinalLayer.init 1 1 1 (fun _ => 0%R))))).
Proof.
  destruct block_init_example as (m & g' & E & _).
  exists m, g'. split; [exact E|].
  pose proof (@zero_after_external_init 1 1 1 (PyInt 1) false 1e-6%R 0%R true false 1 1
                (fun _ => 0%R) (fun _ => 0%R) m g' E) as H.
  split; [exact (proj1 H) | exact (proj1 (proj2 (proj2 H)))].
Defined.

(** C4, as stated, fails: the block and the final layer constructed from
    the generator that yields 0 throughout hold [-1], not 0, in the
    conditioning projection and in the output projection. *)
Lemma constructor_keeps_default_init :
  exists m g',
    DiffusionTransformer.init 1 1 1 (PyInt 1) false 1e-6%R 0%R true false (fun _ => 0%R)
      = Ok (m, g') /\
    ~ all_zero (Linear.weight (DiffusionTransformer.adaptiveLN m)) /\
    ~ all_zero (Linear.weight
                  (FinalLayer.linear (fst (FinalLayer.init 1 1 1 (fun _ => 0%R))))).
Proof.
  destruct block_init_example as (m & g' & E & Hw).
  exists m, g'. split; [exact E|]. unfold all_zero. split.
  - rewrite Hw. intros H. inversion H; subst. lra.
  - rewrite final_init_example. intros H. inversion H; subst. lra.
Qed.

(** ** [Attention]: the projections *)

(** [forward] never reads [key_projection] or [value_projection]. *)
Lemma forward_ignores_key_value_projections
    (m : Attention.t) (k' v' : Linear.t) (q k v : tensor R) (mask : option (tensor bool)) :
  Attention.forward
    (Attention.mk (Attention.num_heads m) (Attention.div_dimension m)
                  (Attention.query_projection m) k' v') q k v mask
  = Attention.forward m q k v mask.
Proof. reflexivity. Qed.

Lemma softmax_single (s : R) : (exp s / (exp s + 0) = 1)%R.
Proof. pose proof (exp_pos s). field. lra. Qed.

(** C1 at a failing input.  On the single token 1 the code projects key and
    value with [query_projection], the zero map, and returns the context 0;
    with key and value going through their own projections, as the claim
    has it, the context is 1. *)
Theorem forward_projects_with_query_weights :
  Attention.forward one_head
    (Tensor [1; 1; 1] [1%R]) (Tensor [1; 1; 1] [1%R]) (Tensor [1; 1; 1] [1%R]) None
  = Ok (Tensor [1; 1; 1] [Re 0], Tensor [1; 1; 1] [Re 1]) /\
  Attention.forward_independent one_head
    (Tensor [1; 1; 1] [1%R]) (Tensor [1; 1; 1] [1%R]) (Tensor [1; 1; 1] [1%R]) None
  = Ok (Tensor [1; 1; 1] [Re 1], Tensor [1; 1; 1] [Re 1]).
Proof.
  split; eval_model; rewrite !softmax_single; repeat f_equal; lra.
Qed.

(** ** Shapes through the framework's operations *)

Ltac case_eqb :=
  repeat match goal with
         | |- context [?a =? ?b] =>
             destruct (Nat.eqb_spec a b); subst; cbn [rev app option_map]
         end.

Lemma broadcast_outer (B K : nat) : broadcast_shapes [B; 1] [1; K] = Some [B; K].
Proof. unfold broadcast_shapes. cbn [rev app broadcast_rev]. case_eqb; reflexivity || lia. Qed.

Lemma broadcast_token_l (B T H : nat) :
  broadcast_shapes [B; T; H] [B; 1; H] = Some [B; T; H].
Proof.
  unfold broadcast_shapes. cbn [rev app broadcast_rev]. rewrite !Nat.eqb_refl.
  case_eqb; reflexivity.
Qed.

Lemma broadcast_token_r (B T H : nat) :
  broadcast_shapes [B; 1; H] [B; T; H] = Some [B; T; H].
Proof.
  unfold broadcast_shapes. cbn [rev app broadcast_rev]. rewrite !Nat.eqb_refl.
  case_eqb; reflexivity.
Qed.

Lemma linear_forward_ok (l : Linear.t) (x : tensor R) (lead : list nat) :
  shape x = lead ++ [Linear.in_features l] ->
  Linear.forward l x = Ok (tabulate (lead ++ [Linear.out_features l]) (Linear.entry l x)).
Proof.
  intros Hs. unfold Linear.forward.
  rewrite Hs, rev_unit, Nat.eqb_refl, rev_involutive. reflexivity.
Qed.

Lemma linear_forward_mismatch (l : Linear.t) (x : tensor R) (lead : list nat) (k : nat) :
  shape x = lead ++ [k] -> k <> Linear.in_features l ->
  Linear.forward l x = Raise RuntimeError.
Proof.
  intros Hs Hk. unfold Linear.forward. rewrite Hs, rev_unit.
  apply Nat.eqb_neq in Hk. now rewrite Hk.
Qed.

Lemma layernorm_forward_ok (l : LayerNorm.t) (x : tensor R) (lead : list nat) :
  shape x = lead ++ [LayerNorm.normalized_shape l] ->
  LayerNorm.forward l x = Ok (tabulate (shape x) (LayerNorm.entry l x)).
Proof.
  intros Hs. unfold LayerNorm.forward.
  rewrite Hs at 1. rewrite rev_unit, Nat.eqb_refl. reflexivity.
Qed.

Lemma linear_init_fields (i o : nat) (b : bool) (g : gen) :
  Linear.in_features (fst (Linear.init i o b g)) = i /\
  Linear.out_features (fst (Linear.init i o b g)) = o.
Proof. unfold Linear.init, uniform_, draw. destruct b; split; reflexivity. Qed.

(** ** [TimestepEmbedder] *)

Section TimestepEmbedder_shape.

Variables (B F : nat) (x : tensor R).
Hypothesis Hx : shape x = [B].

(** The frequency embedding has [F] columns, except for [F = 1], where
    [half = 0] leaves nothing to pad from and the result has none. *)
Lemma time_stepper_shape :
  exists e, TimestepEmbedder.time_stepper x F 10000 = Ok e /\
            shape e = [B; if F =? 1 then 0 else F] /\ wf e.
Proof.
  unfold TimestepEmbedder.time_stepper.
  change (10000 <=? 0)%Z with false. cbv iota.
  unfold unsqueeze1. rewrite Hx. cbn [bind].
  unfold tmul, map2b, unsqueeze0. cbn [shape].
  rewrite broadcast_outer. cbn [bind].
  unfold cat_last at 1. cbn [tmap shape tabulate rev app].
  rewrite list_eqb_refl. cbn [bind rev app].
  pose proof (Nat.div_mod_eq F 2) as HF.
  pose proof (Nat.mod_upper_bound F 2 ltac:(lia)) as Hm.
  destruct (F mod 2 =? 0) eqn:E; cbn [negb].
  - apply Nat.eqb_eq in E. eexists. split; [reflexivity|].
    split; [|apply wf_tabulate].
    rewrite shape_tabulate. destruct (Nat.eqb_spec F 1); [lia|].
    do 2 f_equal. lia.
  - apply Nat.eqb_neq in E. unfold slice1_to. cbn [shape tabulate bind].
    unfold cat_last. cbn [shape zeros_like tmap tabulate rev app].
    rewrite list_eqb_refl. eexists. split; [reflexivity|].
    split; [|apply wf_tabulate].
    rewrite shape_tabulate. cbn [rev app].
    destruct (Nat.eqb_spec F 1) as [->|Hne]; [reflexivity|].
    do 2 f_equal. lia.
Qed.

End TimestepEmbedder_shape.

(** For [F >= 2] the embedder returns a tensor of shape [[B, H]]. *)
Lemma timestep_forward_shape (H F : nat) (bias : bool) (g : gen) (B : nat) (x : tensor R) :
  2 <= F -> shape x = [B] ->
  exists y, TimestepEmbedder.forward (fst (TimestepEmbedder.init H F bias g)) x = Ok y /\
            shape y = [B; H] /\ wf y.
Proof.
  intros HF Hx. unfold TimestepEmbedder.forward.
  destruct (@time_stepper_shape B F x Hx) as (e & He & Hs & _).
  destruct (Nat.eqb_spec F 1); [lia|].
  unfold TimestepEmbedder.init.
  destruct (Linear.init F H bias g) as [l0 g1] eqn:E0.
  destruct (Linear.init H H bias g1) as [l2 g2] eqn:E2.
  cbn [fst TimestepEmbedder.frequency_embedding_size TimestepEmbedder.perceptron].
  rewrite He. cbn [bind].
  pose proof (linear_init_fields F H bias g) as [Hi0 Ho0]. rewrite E0 in Hi0, Ho0.
  pose proof (linear_init_fields H H bias g1) as [Hi2 Ho2]. rewrite E2 in Hi2, Ho2.
  cbn [fst] in *.
  rewrite (@linear_forward_ok l0 e [B]) by (rewrite Hs, Hi0; reflexivity).
  cbn [bind]. rewrite Ho0.
  rewrite (@linear_forward_ok l2 _ [B]) by (cbn; rewrite Hi2; reflexivity).
  rewrite Ho2. eexists. split; [reflexivity|]. split; [reflexivity | apply wf_tabulate].
Qed.

(** C5 at the failing size.  With [frequency_embedding_size = 1] the
    frequency embedding of a batch of [B] timesteps has shape [[B, 0]]: there
    is no column to copy the padding from.  The first layer of the
    perceptron expects one column and raises; no tensor of shape [[B, H]] is
    returned. *)
Theorem timestep_forward_size_1 (H : nat) (bias : bool) (g : gen) (B : nat) (d : list R) :
  TimestepEmbedder.forward (fst (TimestepEmbedder.init H 1 bias g)) (Tensor [B] d)
  = Raise RuntimeError.
Proof.
  unfold TimestepEmbedder.forward.
  destruct (@time_stepper_shape B 1 (Tensor [B] d) eq_refl) as (e & He & Hs & _).
  cbn [Nat.eqb] in Hs.
  unfold TimestepEmbedder.init.
  destruct (Linear.init 1 H bias g) as [l0 g1] eqn:E0.
  destruct (Linear.init H H bias g1) as [l2 g2].
  cbn [fst TimestepEmbedder.frequency_embedding_size TimestepEmbedder.perceptron].
  rewrite He. cbn [bind].
  pose proof (linear_init_fields 1 H bias g) as [Hi0 _]. rewrite E0 in Hi0. cbn [fst] in Hi0.
  rewrite (@linear_forward_mismatch l0 e [B] 0); [reflexivity | exact Hs | lia].
Qed.

(** ** [view] with an inferred size *)

Lemma view_infer_ok {A} (spec : list (option nat)) (t : tensor A) (q : nat) :
  inferred spec = 1 -> known spec <> 0 -> numel (shape t) = q * known spec ->
  view spec t
  = Ok (Tensor (map (fun o => match o with Some d => d | None => q end) spec) (data t)).
Proof.
  intros Hi Hk Hn. unfold view. rewrite Hi.
  apply Nat.eqb_neq in Hk as Hk'. rewrite Hk', Hn, Nat.Div0.mod_mul, Nat.div_mul by exact Hk.
  reflexivity.
Qed.

Lemma view_infer_empty {A} (spec : list (option nat)) (t : tensor A) :
  inferred spec = 1 -> known spec = 0 -> view spec t = Raise RuntimeError.
Proof. intros Hi Hk. unfold view. now rewrite Hi, Hk. Qed.

(** ** Real values *)

Lemma get_in {A} (d : A) (t : tensor A) (idx : list nat) :
  wf t -> in_range (shape t) idx -> In (get d t idx) (data t).
Proof.
  intros Hw Hr. unfold get. apply nth_In. rewrite Hw. now apply ravel_lt.
Qed.

Lemma vsum_real (l : list val) : Forall is_real l -> is_real (vsum l).
Proof.
  induction 1 as [|v l Hv _ IH]; [exact I|].
  change (is_real (vadd v (vsum l))).
  destruct v; [|contradiction]. destruct (vsum l); [exact I | contradiction].
Qed.

Lemma softmax_row_real (row : list score) (l : nat) :
  l < length row -> Forall (fun s => is_neginf s = false) row ->
  is_real (nth l (softmax_row row) NaN).
Proof.
  intros Hl Hall. unfold softmax_row.
  assert (E : forallb is_neginf row = false).
  { destruct row as [|s row]; [simpl in Hl; lia|].
    inversion Hall; subst. simpl. now rewrite H1. }
  rewrite E.
  set (f := fun s => Re (sexp s / Rsum (map sexp row))).
  rewrite (nth_indep _ NaN (f NegInf)) by now rewrite length_map.
  rewrite (map_nth f). exact I.
Qed.

Lemma softmax_real (sc : tensor score) (a b c : nat) (idx : list nat) :
  shape sc = [a; b; c] -> wf sc -> real_scores sc -> in_range [a; b; c] idx ->
  is_real (get NaN (softmax sc) idx).
Proof.
  intros Hs Hw Hreal Hidx. unfold softmax. rewrite Hs.
  rewrite get_tabulate by exact Hidx.
  inversion Hidx as [|r ? ? ? Hr Hidx1]; subst.
  inversion Hidx1 as [|i ? ? ? Hi Hidx2]; subst.
  inversion Hidx2 as [|j ? ? ? Hj Hidx3]; subst.
  inversion Hidx3; subst.
  cbn [last removelast app].
  apply softmax_row_real.
  - now rewrite length_map, length_seq.
  - apply Forall_forall. intros s Hin.
    apply in_map_iff in Hin as (l & <- & Hl). apply in_seq in Hl.
    apply (proj1 (Forall_forall _ _) Hreal).
    apply get_in; [exact Hw|]. rewrite Hs. repeat constructor; lia.
Qed.

(** [real_part] loses nothing on a tensor without [nan]. *)
Lemma real_part_exact (t : tensor val) :
  real_values t -> tmap Re (tmap real_part t) = t.
Proof.
  intros Hr. apply tensor_eq; [reflexivity|]. cbn [tmap data].
  rewrite map_map. unfold real_values in Hr.
  induction Hr as [|v l Hv _ IH]; [reflexivity|].
  cbn [map]. rewrite IH. destruct v; [reflexivity | contradiction].
Qed.

(** ** [Attention]: shapes *)

Section Attention_shapes.

Variable m : Attention.t.
Variables B T : nat.

Let N := Attention.num_heads m.
Let D := Attention.div_dimension m.

Hypothesis Hpos : B * (N * D) <> 0.

Lemma split_heads_ok (proj : Linear.t) (x : tensor R) :
  Linear.out_features proj = N * D ->
  shape x = [B; T; Linear.in_features proj] ->
  exists y, Attention.split_heads m proj B x = Ok y /\
            shape y = [B; T; N; D] /\ wf y.
Proof.
  intros Ho Hx. unfold Attention.split_heads.
  rewrite (@linear_forward_ok proj x [B; T] Hx). cbn [bind app].
  rewrite (@view_infer_ok _ _ _ T).
  - eexists. split; [reflexivity|]. split; [reflexivity|].
    unfold wf. cbn [data shape map tabulate]. rewrite length_map, length_seq.
    rewrite Ho. fold N D. cbn [numel fold_right app]. ring.
  - reflexivity.
  - cbn [known fold_right]. fold N D. nia.
  - cbn [shape tabulate known numel fold_right]. rewrite Ho. fold N D. ring.
Qed.

Lemma merge_heads_ok (x : tensor R) :
  shape x = [B; T; N; D] ->
  exists y, Attention.merge_heads m B x = Ok y /\
            shape y = [B * N; T; D] /\ wf y /\
            data y = data (tabulate [N; B; T; D]
                             (fun idx => get 0%R x (map (fun j => nth (index_of j [2; 0; 1; 3]) idx 0)
                                                        (seq 0 4)))).
Proof.
  intros Hx. unfold Attention.merge_heads, permute, contiguous. rewrite Hx.
  cbn [length is_perm Nat.eqb andb forallb seq existsb orb map nth bind].
  rewrite (@view_infer_ok _ _ _ T).
  - eexists. split; [reflexivity|]. split; [reflexivity|]. split; [|reflexivity].
    unfold wf. cbn [data shape map tabulate]. rewrite length_map, length_seq.
    fold N D. cbn [numel fold_right]. ring.
  - reflexivity.
  - cbn [known fold_right]. fold N D. nia.
  - cbn [shape tabulate known numel fold_right]. fold N D. ring.
Qed.

Lemma attend_nomask_ok (q k v : tensor R) :
  shape q = [B; T; N; D] -> shape k = [B; T; N; D] -> shape v = [B; T; N; D] ->
  exists sc ctx,
    Attention.attend m B q k v None = Ok (ctx, softmax sc) /\
    shape sc = [B * N; T; T] /\ wf sc /\ real_scores sc /\
    shape ctx = [B; T; N * D] /\ wf ctx /\ real_values ctx.
Proof.
  intros Hq Hk Hv. unfold Attention.attend.
  destruct (merge_heads_ok q Hq) as (q' & -> & Hq' & _).
  destruct (merge_heads_ok k Hk) as (k' & -> & Hk' & _).
  destruct (merge_heads_ok v Hv) as (v' & -> & Hv' & Hwv' & _).
  cbn [bind].
  unfold transpose12, permute. rewrite Hk'.
  cbn [length is_perm Nat.eqb andb forallb seq existsb orb map nth bind app].
  unfold bmm, bmm_gen. rewrite Hq'. cbn [shape tabulate].
  rewrite !Nat.eqb_refl. cbn [andb bind].
  unfold bmm_val, bmm_gen. cbn [shape softmax tmap tabulate]. rewrite Hv'.
  rewrite !Nat.eqb_refl. cbn [andb bind].
  rewrite (@view_infer_ok _ _ _ T);
    [ | reflexivity | cbn [known fold_right]; fold N D; nia
      | cbn [shape tabulate known numel fold_right]; fold N D; ring ].
  cbn [bind map]. unfold permute. cbn [shape].
  cbn [length is_perm Nat.eqb andb forallb seq existsb orb map nth bind app].
  unfold contiguous.
  rewrite (@view_infer_ok _ _ _ T);
    [ | reflexivity | cbn [known fold_right]; fold N D; nia
      | cbn [shape tabulate known numel fold_right]; fold N D; ring ].
  cbn [bind map].
  match goal with
  | |- context [softmax ?t] => set (sc := t)
  end.
  match goal with
  | |- context [tabulate [B * N; T; D] ?f] => set (weighted := tabulate [B * N; T; D] f)
  end.
  assert (Hwsc : wf sc).
  { unfold wf, sc. cbn [tmap data shape]. rewrite length_map. apply wf_tabulate. }
  assert (Hreal : real_scores sc).
  { unfold real_scores, sc. cbn [tmap data]. apply Forall_forall. intros s Hs.
    apply in_map_iff in Hs as (y & <- & _). reflexivity. }
  (* every entry of the weighted sum is a sum of products of real numbers *)
  assert (Hweighted : real_values weighted).
  { apply Forall_tabulate. intros idx Hidx.
    inversion Hidx as [|i ? ? ? Hi Hidx1]; subst.
    inversion Hidx1 as [|j ? ? ? Hj Hidx2]; subst.
    inversion Hidx2 as [|e ? ? ? He Hidx3]; subst.
    inversion Hidx3; subst.
    apply vsum_real. apply Forall_forall. intros y Hy.
    apply in_map_iff in Hy as (l & <- & Hl). apply in_seq in Hl.
    pose proof (@softmax_real sc (B * N) T T [i; j; l] eq_refl Hwsc Hreal
                  ltac:(repeat constructor; lia)) as Hw.
    destruct (get NaN (softmax sc) [i; j; l]); [|contradiction].
    assert (Hv2 : In (get NaN (tmap Re v') [i; l; e]) (data (tmap Re v'))).
    { apply get_in.
      - unfold wf, tmap. cbn [data shape]. now rewrite length_map.
      - cbn [tmap shape]. rewrite Hv'. repeat constructor; lia. }
    cbn [tmap data] in Hv2. apply in_map_iff in Hv2 as (z & Hz & _).
    rewrite <- Hz. exact I. }
  exists sc. eexists. split; [reflexivity|].
  split; [reflexivity|]. split; [exact Hwsc|]. split; [exact Hreal|].
  split; [reflexivity|]. split.
  - unfold wf. cbn [data shape tabulate]. rewrite length_map, length_seq.
    cbn [numel fold_right]. fold N D. ring.
  - unfold real_values. cbn [data]. apply Forall_tabulate. intros idx Hidx.
    inversion Hidx as [|b ? ? ? Hb Hidx1]; subst.
    inversion Hidx1 as [|t ? ? ? Ht Hidx2]; subst.
    inversion Hidx2 as [|h ? ? ? Hh Hidx3]; subst.
    inversion Hidx3 as [|d ? ? ? Hd Hidx4]; subst.
    inversion Hidx4; subst. cbn [nth index_of Nat.eqb].
    apply (proj1 (Forall_forall _ _) Hweighted).
    apply (@get_in val NaN (Tensor [N; B; T; D] (data weighted)) [h; b; t; d]).
    + unfold wf, weighted. cbn [data shape tabulate]. rewrite length_map, length_seq.
      cbn [numel fold_right]. ring.
    + repeat constructor; assumption.
Qed.

End Attention_shapes.

(** ** Sums of quotients *)

Lemma Rsum_map_div {A} (f : A -> R) (z : R) (l : list A) :
  Rsum (map (fun x => f x / z)%R l) = (Rsum (map f l) / z)%R.
Proof.
  induction l as [|x l IH].
  - simpl. lra.
  - change (f x / z + Rsum (map (fun x => f x / z) l) = (f x + Rsum (map f l)) / z)%R.
    rewrite IH. lra.
Qed.

(** ** [Attention.forward] without a mask *)

Lemma attention_init_sized (H heads : nat) (g g' : gen) (m : Attention.t) :
  Attention.init H heads g = Ok (m, g') ->
  attention_sized m H /\ Attention.num_heads m = heads.
Proof.
  intros Hinit. rewrite attention_init_raises in Hinit.
  destruct (Nat.eqb_spec heads 0) as [|Hh]; [discriminate|].
  destruct (Nat.eqb_spec (H mod heads) 0) as [Hd|]; [|discriminate].
  assert (HH : heads * (H / heads) = H).
  { pose proof (Nat.div_mod_eq H heads). lia. }
  unfold Attention.init, py_mod in Hinit.
  apply Nat.eqb_neq in Hh. rewrite Hh in Hinit. cbn [bind] in Hinit.
  rewrite Hd in Hinit. cbn [Nat.eqb negb] in Hinit.
  pose proof (linear_init_fields H (heads * (H / heads)) true g) as [Hi Ho].
  destruct (Linear.init H (heads * (H / heads)) true g) as [q g1].
  destruct (Linear.init H (heads * (H / heads)) true g1) as [k g2].
  destruct (Linear.init H (heads * (H / heads)) true g2) as [v g3].
  injection Hinit as <- _. cbn [fst] in Hi, Ho.
  unfold attention_sized. cbn. repeat split; congruence.
Qed.

Lemma forward_nomask_ok (m : Attention.t) (H B T : nat) (q k v : tensor R) :
  attention_sized m H -> 0 < B -> 0 < H ->
  shape q = [B; T; H] -> shape k = [B; T; H] -> shape v = [B; T; H] ->
  exists sc ctx,
    Attention.forward m q k v None = Ok (ctx, softmax sc) /\
    shape sc = [B * Attention.num_heads m; T; T] /\ wf sc /\ real_scores sc /\
    shape ctx = [B; T; H] /\ wf ctx /\ real_values ctx.
Proof.
  intros (HND & Hi & Ho) HB HH Hq Hk Hv.
  assert (Hpos : B * (Attention.num_heads m * Attention.div_dimension m) <> 0) by nia.
  unfold Attention.forward. rewrite Hv. cbn [bind].
  rewrite <- Hi in Hq, Hk, Hv. rewrite <- HND in Ho.
  destruct (@split_heads_ok m B T Hpos _ q Ho Hq) as (q1 & -> & Hq1 & _).
  destruct (@split_heads_ok m B T Hpos _ k Ho Hk) as (k1 & -> & Hk1 & _).
  destruct (@split_heads_ok m B T Hpos _ v Ho Hv) as (v1 & -> & Hv1 & _).
  cbn [bind].
  destruct (@attend_nomask_ok m B T Hpos q1 k1 v1 Hq1 Hk1 Hv1)
    as (sc & ctx & -> & Hsc & Hwsc & Hreal & Hctx & Hwctx & Hrctx).
  exists sc, ctx. rewrite HND in Hctx. auto 10.
Qed.

(** ** [Attention.forward] with a mask *)

(** The layout of the merged axis: row [h * B + b] of a merged tensor holds
    head [h] of batch [b]. *)
Lemma merge_heads_entry (m : Attention.t) (B T : nat) (x y : tensor R) (b t h d : nat) :
  B * (Attention.num_heads m * Attention.div_dimension m) <> 0 ->
  shape x = [B; T; Attention.num_heads m; Attention.div_dimension m] ->
  Attention.merge_heads m B x = Ok y ->
  b < B -> t < T -> h < Attention.num_heads m -> d < Attention.div_dimension m ->
  get 0%R y [h * B + b; t; d] = get 0%R x [b; t; h; d].
Proof.
  intros Hpos Hx Hy Hb Ht Hh Hd.
  destruct (@merge_heads_ok m B T Hpos x Hx) as (y' & Hy' & Hs & _ & Hdata).
  rewrite Hy in Hy'. injection Hy' as <-.
  set (N := Attention.num_heads m) in *. set (D := Attention.div_dimension m) in *.
  set (f := fun idx : list nat =>
              get 0%R x (map (fun j => nth (index_of j [2; 0; 1; 3]) idx 0) (seq 0 4))) in *.
  transitivity (get 0%R (tabulate [N; B; T; D] f) [h; b; t; d]).
  - unfold get. rewrite Hs, Hdata. f_equal.
    cbn [ravel shape tabulate numel fold_right]. ring.
  - rewrite get_tabulate by (repeat constructor; assumption). reflexivity.
Qed.

Lemma half_weight (s : R) : (exp s / (exp s + (exp s + 0)) = 1 / 2)%R.
Proof. pose proof (exp_pos s). field. lra. Qed.

(** A row of [-inf] only comes out of the softmax as [nan], not as 0. *)
Example softmax_row_all_masked : softmax_row [NegInf; NegInf] = [NaN; NaN].
Proof. reflexivity. Qed.

(** Row [r] of the laid mask is the mask of batch [r / heads]. *)
Lemma laid_mask_entry (m : Attention.t) (B T : nat) (mask : tensor bool) (r i l : nat) :
  Attention.num_heads m <> 0 ->
  shape mask = [B; T; T] ->
  r < B * Attention.num_heads m -> i < T -> l < T ->
  get false (laid_mask m B T mask) [r; i; l]
  = get false mask [r / Attention.num_heads m; i; l].
Proof.
  intros HN Hm Hr Hi Hl.
  set (N := Attention.num_heads m) in *.
  assert (Hb : r / N < B) by (apply Nat.Div0.div_lt_upper_bound; lia).
  assert (Hh : r mod N < N) by (apply Nat.mod_upper_bound; exact HN).
  pose proof (Nat.div_mod_eq r N) as Hdm.
  unfold laid_mask. fold N.
  match goal with
  | |- get _ (Tensor _ (data (tabulate ?s ?f))) _ = _ =>
      transitivity (get false (tabulate s f) [r / N; r mod N; i; l])
  end.
  - unfold get. f_equal. cbn [shape tabulate ravel numel fold_right].
    rewrite Hdm at 1. ring.
  - rewrite get_tabulate by (repeat constructor; lia).
    cbn [combine map skipn].
    rewrite (Nat.mod_small (r / N) B Hb), Nat.mod_1_r,
            (Nat.mod_small i T Hi), (Nat.mod_small l T Hl).
    unfold get. rewrite Hm. f_equal. cbn [shape ravel numel fold_right]. ring.
Qed.

(** ** Chunks and modulation *)

Lemma chunk_sizes_mul (n H : nat) : n <> 0 -> chunk_sizes (n * H) n = List.repeat H n.
Proof.
  intros Hn. unfold chunk_sizes.
  assert (E : (n * H + n - 1) / n = H).
  { replace (n * H + n - 1) with (H * n + (n - 1)) by lia.
    rewrite Nat.div_add_l by exact Hn. rewrite Nat.div_small by lia. lia. }
  rewrite E.
  destruct (Nat.eqb_spec H 0) as [->|HH].
  - rewrite Nat.mul_0_r. reflexivity.
  - cbn [andb]. rewrite Nat.div_mul by exact HH.
    rewrite Nat.Div0.mod_mul. cbn [Nat.eqb]. apply app_nil_r.
Qed.

Lemma chunk1_mul (a : tensor R) (B n H : nat) :
  n <> 0 -> shape a = [B; n * H] ->
  chunk1 0%R n a
  = Ok (map (fun '(off, k) => tabulate [B; k] (piece 0%R a off)) (offsets 0 (List.repeat H n))).
Proof.
  intros Hn Hs. unfold chunk1. rewrite Hs.
  destruct n as [|n']; [contradiction|].
  rewrite chunk_sizes_mul by exact Hn. reflexivity.
Qed.

Lemma all_zero_get (t : tensor R) (idx : list nat) : all_zero t -> get 0%R t idx = 0%R.
Proof.
  intros Hz. symmetry. apply (@get_Forall R (eq 0%R) 0%R t idx eq_refl Hz).
Qed.

Lemma modulate_ok (x shift scale : tensor R) (B T H : nat) :
  shape x = [B; T; H] -> shape shift = [B; H] -> shape scale = [B; H] ->
  exists y, modulate x shift scale = Ok y /\ shape y = [B; T; H] /\ wf y.
Proof.
  intros Hx Hsh Hsc. unfold modulate, unsqueeze1. rewrite Hsc, Hsh. cbn [bind].
  unfold tmul, tadd, map2b. cbn [shape tmap]. rewrite Hx, broadcast_token_l.
  cbn [bind shape tabulate]. rewrite broadcast_token_l.
  eexists. split; [reflexivity|]. split; [reflexivity | apply wf_tabulate].
Qed.

(** ** [FinalLayer] *)

Lemma final_init_sized (H patch out_channels : nat) (g : gen) :
  final_sized (fst (FinalLayer.init H patch out_channels g)) H (patch * patch * out_channels).
Proof.
  unfold FinalLayer.init.
  pose proof (linear_init_fields H (patch * patch * out_channels) true g) as [Hi1 Ho1].
  destruct (Linear.init H (patch * patch * out_channels) true g) as [l g1].
  pose proof (linear_init_fields H (2 * H) true g1) as [Hi2 Ho2].
  destruct (Linear.init H (2 * H) true g1) as [a g2].
  cbn [fst] in *. unfold final_sized. cbn. auto.
Qed.

Lemma zero_final_sized (m : FinalLayer.t) (H P : nat) :
  final_sized m H P -> final_sized (zero_final m) H P.
Proof. unfold final_sized, zero_final, zeroed. cbn. auto. Qed.

(** ** [AttentionPerceptron] *)

Lemma dropout_forward_shape (d : Dropout.t) (x : tensor R) (g : gen) :
  shape (fst (Dropout.forward d x g)) = shape x.
Proof.
  unfold Dropout.forward.
  destruct (negb (Dropout.training d) || Reqb (Dropout.p d) 0 || (numel (shape x) =? 0));
    [reflexivity|].
  destruct (Reqb (Dropout.p d) 1); reflexivity.
Qed.

Lemma perceptron_forward_ok (p : AttentionPerceptron.t) (H B T : nat)
    (x : tensor R) (g : gen) :
  perceptron_sized p H -> shape x = [B; T; H] ->
  exists y g', AttentionPerceptron.forward p x g = Ok (y, g') /\ shape y = [B; T; H].
Proof.
  intros (Hi1 & Hi2 & Ho2 & Hn) Hx. unfold AttentionPerceptron.forward.
  rewrite (@linear_forward_ok _ x [B; T]) by now rewrite Hx, Hi1.
  cbn [bind app].
  set (h := GELU_tanh _).
  assert (Hh : shape h = [B; T; Linear.out_features (AttentionPerceptron.fc1 p)])
    by reflexivity.
  pose proof (dropout_forward_shape (AttentionPerceptron.drop1 p) h g) as Hd1.
  destruct (Dropout.forward (AttentionPerceptron.drop1 p) h g) as [h1 g1].
  cbn [fst] in Hd1. rewrite Hh in Hd1.
  assert (Hnorm : exists h2,
             match AttentionPerceptron.norm p with
             | Some ln => LayerNorm.forward ln h1
             | None => Ok h1
             end = Ok h2 /\
             shape h2 = [B; T; Linear.out_features (AttentionPerceptron.fc1 p)]).
  { destruct (AttentionPerceptron.norm p) as [ln|].
    - rewrite (@layernorm_forward_ok ln h1 [B; T]) by now rewrite Hd1, Hn.
      eexists. split; [reflexivity|]. now rewrite shape_tabulate.
    - exists h1. auto. }
  destruct Hnorm as (h2 & -> & Hh2). cbn [bind].
  rewrite (@linear_forward_ok _ h2 [B; T]) by now rewrite Hh2, Hi2.
  cbn [bind app].
  match goal with
  | |- context [Dropout.forward ?d ?t ?gg] =>
      pose proof (dropout_forward_shape d t gg) as Hd2;
      destruct (Dropout.forward d t gg) as [h3 g3]
  end.
  cbn [fst] in Hd2. exists h3, g3. split; [reflexivity|].
  rewrite Hd2, shape_tabulate, Ho2. reflexivity.
Qed.

(** ** [DiffusionTransformer] *)

Lemma layernorm_init_shape (n : nat) (affine : bool) (e : R) :
  LayerNorm.normalized_shape (LayerNorm.init n affine e) = n.
Proof. destruct affine; reflexivity. Qed.

Lemma perceptron_init_sized (H hid : nat) (ln : bool) (b : bool) (rate : R)
    (g g' : gen) (p : AttentionPerceptron.t) :
  AttentionPerceptron.init H (Some hid) (Some H) ln (Scalar b) (Scalar rate) g = Ok (p, g') ->
  perceptron_sized p H.
Proof.
  unfold AttentionPerceptron.init. cbn [to_2tuple n_tuples List.repeat item nth_error bind].
  pose proof (linear_init_fields H hid b g) as [Hi1 Ho1].
  destruct (Linear.init H hid b g) as [fc1 g1].
  destruct (Dropout.init rate) as [d|]; [|discriminate]. cbn [bind].
  pose proof (linear_init_fields hid H b g1) as [Hi2 Ho2].
  destruct (Linear.init hid H b g1) as [fc2 g2].
  cbn [fst] in *. intros E. injection E as <- _.
  unfold perceptron_sized. cbn. repeat split; try congruence.
  destruct ln; [|exact I]. cbn. congruence.
Qed.

(** A block constructed with [attention_embedding_size = hidden_size = H]. *)
Lemma block_init_sized (H heads : nat) (ratio : number) (affine : bool) (eps rate : R)
    (pbias pln : bool) (g g' : gen) (m : DiffusionTransformer.t) :
  DiffusionTransformer.init H heads H ratio affine eps rate pbias pln g = Ok (m, g') ->
  block_sized m H.
Proof.
  unfold DiffusionTransformer.init. intros E.
  destruct (Attention.init H heads g) as [[a ga]|] eqn:Ea; [|discriminate].
  cbn [bind] in E.
  destruct (int_mul H ratio) as [ph|]; [|discriminate]. cbn [bind] in E.
  destruct (ph <? 0)%Z; [discriminate|]. cbn [bind] in E.
  destruct (AttentionPerceptron.init _ _ _ _ _ _ _) as [[p gp]|] eqn:Ep; [|discriminate].
  cbn [bind] in E.
  pose proof (linear_init_fields H (6 * H) true gp) as [Hi Ho].
  destruct (Linear.init H (6 * H) true gp) as [ada g3].
  injection E as <- _. cbn [fst] in *.
  unfold block_sized. cbn.
  rewrite !layernorm_init_shape.
  split; [reflexivity|]. split; [reflexivity|].
  split; [eapply attention_init_sized; exact Ea|].
  split; [eapply perceptron_init_sized; exact Ep|]. auto.
Qed.

Lemma tmul_gate_shape (gate h : tensor R) (B T H : nat) :
  shape gate = [B; 1; H] -> shape h = [B; T; H] ->
  exists z, tmul gate h = Ok z /\ shape z = [B; T; H].
Proof.
  intros Hg Hh. unfold tmul, map2b. rewrite Hg, Hh, broadcast_token_r.
  eexists. split; reflexivity.
Qed.

Lemma tadd_same_shape (x z : tensor R) :
  shape z = shape x ->
  exists y, tadd x z = Ok y /\ shape y = shape x.
Proof.
  intros Hs. unfold tadd, map2b. rewrite Hs, broadcast_shapes_same.
  eexists. split; reflexivity.
Qed.

Lemma zero_block_sized (m : DiffusionTransformer.t) (H : nat) :
  block_sized m H -> block_sized (zero_block m) H.
Proof. unfold block_sized, zero_block, zeroed. cbn. auto. Qed.

(** ** The residual of the perceptron sub-layer *)

(** C3 at a failing input.  On the token 0 with conditioning 0 the
    attention sub-layer yields [attn_out = 1]; the perceptron gate is 0, so
    the block as the claim has it returns [attn_out = 1].  The code adds the
    gated perceptron output to [x], not to [attn_out], and returns 0. *)
Theorem perceptron_residual_restarts_from_input (g : gen) :
  DiffusionTransformer.forward gated_block
    (Tensor [1; 1; 1] [0%R]) (Tensor [1; 1] [0%R]) g
  = Ok (Tensor [1; 1; 1] [0%R], g) /\
  DiffusionTransformer.forward_running gated_block
    (Tensor [1; 1; 1] [0%R]) (Tensor [1; 1] [0%R]) g
  = Ok (Tensor [1; 1; 1] [1%R], g).
Proof.
  split; eval_model; rewrite !Reqb_refl; eval_model;
    rewrite ?softmax_single; do 4 f_equal; unfold Rdiv; ring.
Qed.

(** * Further properties of the code *)

(** ** [TimestepEmbedder.time_stepper] *)

Lemma get_tmap_in {A B} (d : A) (d' : B) (f : A -> B) (t : tensor A) (idx : list nat) :
  wf t -> in_range (shape t) idx -> get d' (tmap f t) idx = f (get d t idx).
Proof.
  intros Hw Hr. unfold get, tmap. cbn [shape data].
  pose proof (ravel_lt Hr) as Hlt. rewrite <- Hw in Hlt.
  rewrite (nth_indep _ d' (f d)) by now rewrite length_map.
  apply map_nth.
Qed.

Lemma get_vector (x : tensor R) (B b : nat) :
  shape x = [B] -> get 0%R (Tensor [B; 1] (data x)) [b; 0] = get 0%R x [b].
Proof.
  intros Hx. unfold get. rewrite Hx. cbn [shape data ravel numel fold_right].
  f_equal; try lia.
Qed.

Lemma time_stepper_args (x : tensor R) (B half : nat) (f : nat -> R) (b i : nat) :
  shape x = [B] -> b < B -> i < half ->
  get 0%R (tabulate [B; half]
             (fun idx => Rmult (get 0%R (Tensor [B; 1] (data x)) (bidx [B; 1] idx))
                               (get 0%R (Tensor [1; half] (map f (seq 0 half)))
                                    (bidx [1; half] idx))))
      [b; i]
  = (get 0%R x [b] * f i)%R.
Proof.
  intros Hx Hb Hi.
  rewrite get_tabulate by (repeat constructor; assumption).
  f_equal.
  - unfold bidx. cbn [length Nat.sub skipn combine map].
    destruct (Nat.eqb_spec B 1).
    + assert (b = 0) by lia. subst b. now apply get_vector.
    + now apply get_vector.
  - unfold bidx. cbn [length Nat.sub skipn combine map Nat.eqb].
    assert (E : (if half =? 1 then 0 else i) = i)
      by (destruct (Nat.eqb_spec half 1); lia).
    rewrite E. unfold get. cbn [shape data ravel numel fold_right].
    replace (0 * (half * 1) + (i * 1 + 0)) with i by lia.
    rewrite (nth_indep _ 0%R (f 0)) by (rewrite length_map, length_seq; exact Hi).
    rewrite (map_nth f), seq_nth by exact Hi. reflexivity.
Qed.

(** X1.  The layout of the frequency embedding.  For a size [F] of at
    least 2 and a positive [max_period], row [b] of the embedding holds the
    cosines of [x_b] times the [F / 2] frequencies, then their sines, and,
    when [F] is odd, one closing 0. *)
Theorem time_stepper_layout (x : tensor R) (B F : nat) (max_period : Z) :
  shape x = [B] -> 2 <= F -> (0 < max_period)%Z ->
  exists e,
    TimestepEmbedder.time_stepper x F max_period = Ok e /\
    shape e = [B; F] /\ wf e /\
    forall b, b < B ->
      (forall i, i < F / 2 ->
         get 0%R e [b; i] = cos (get 0%R x [b] * frequency max_period (F / 2) i) /\
         get 0%R e [b; F / 2 + i] = sin (get 0%R x [b] * frequency max_period (F / 2) i)) /\
      (F mod 2 = 1 -> get 0%R e [b; F - 1] = 0%R).
Proof.
  intros Hx HF Hmp. unfold TimestepEmbedder.time_stepper.
  assert (Emp : (max_period <=? 0)%Z = false) by (apply Z.leb_gt; exact Hmp).
  rewrite Emp. cbv iota.
  set (half := F / 2).
  assert (Hhalf : 1 <= half).
  { subst half. change 1 with (2 / 2). apply Nat.Div0.div_le_mono. exact HF. }
  unfold unsqueeze1. rewrite Hx. cbn [bind].
  unfold tmul, map2b, unsqueeze0. cbn [shape].
  rewrite broadcast_outer. cbn [bind].
  set (args := tabulate [B; half] _).
  assert (Hargs : forall b i, b < B -> i < half ->
            get 0%R args [b; i]
            = (get 0%R x [b] * frequency max_period half i)%R).
  { intros b i Hb Hi. subst args. now apply time_stepper_args. }
  assert (Hwa : wf args) by apply wf_tabulate.
  unfold cat_last at 1. cbn [tmap shape rev app]. subst args. cbn [shape tabulate rev app].
  rewrite list_eqb_refl. cbn [bind rev app].
  set (args := tabulate [B; half] _) in *.
  set (emb := tabulate [B; half + half] _).
  assert (Hcos : forall b i, b < B -> i < half ->
            get 0%R emb [b; i] = cos (get 0%R x [b] * frequency max_period half i)).
  { intros b i Hb Hi. subst emb.
    rewrite get_tabulate by (repeat constructor; lia).
    cbn [last removelast app].
    destruct (Nat.ltb_spec i half); [|lia].
    rewrite (@get_tmap_in _ _ 0%R 0%R cos args [b; i] Hwa)
      by (repeat constructor; assumption).
    now rewrite Hargs. }
  assert (Hsin : forall b i, b < B -> i < half ->
            get 0%R emb [b; half + i] = sin (get 0%R x [b] * frequency max_period half i)).
  { intros b i Hb Hi. subst emb.
    rewrite get_tabulate by (repeat constructor; lia).
    cbn [last removelast app].
    destruct (Nat.ltb_spec (half + i) half); [lia|].
    replace (half + i - half) with i by lia.
    rewrite (@get_tmap_in _ _ 0%R 0%R sin args [b; i] Hwa)
      by (repeat constructor; assumption).
    now rewrite Hargs. }
  pose proof (Nat.div_mod_eq F 2) as HdF. fold half in HdF.
  pose proof (Nat.mod_upper_bound F 2 ltac:(lia)) as Hm.
  destruct (F mod 2 =? 0) eqn:E; cbn [negb].
  - apply Nat.eqb_eq in E. exists emb. split; [reflexivity|].
    split; [subst emb; rewrite shape_tabulate; do 2 f_equal; lia|].
    split; [apply wf_tabulate|].
    intros b Hb. split; [|lia].
    intros i Hi. split; [now apply Hcos | now apply Hsin].
  - apply Nat.eqb_neq in E. unfold slice1_to. cbn [shape bind].
    subst emb. cbn [shape tabulate]. set (emb := tabulate [B; half + half] _) in *.
    cbn [bind]. unfold cat_last. change (shape emb) with [B; half + half].
    cbn [shape zeros_like tmap tabulate rev app].
    rewrite list_eqb_refl. cbn [rev app].
    replace (Nat.min 1 (half + half)) with 1 by lia.
    eexists. split; [reflexivity|].
    split; [rewrite shape_tabulate; do 2 f_equal; lia|].
    split; [apply wf_tabulate|].
    intros b Hb. split.
    + intros i Hi. split.
      * rewrite get_tabulate by (repeat constructor; lia).
        cbn [last removelast app].
        destruct (Nat.ltb_spec i (half + half)); [|lia]. now apply Hcos.
      * rewrite get_tabulate by (repeat constructor; lia).
        cbn [last removelast app].
        destruct (Nat.ltb_spec (half + i) (half + half)); [|lia]. now apply Hsin.
    + intros _.
      rewrite get_tabulate by (repeat constructor; lia).
      cbn [last removelast app].
      destruct (Nat.ltb_spec (F - 1) (half + half)); [lia|].
      apply all_zero_get. apply all_zero_constant.
Qed.

Lemma time_stepper_layout_witness :
  exists e,
    TimestepEmbedder.time_stepper (Tensor [1] [2%R]) 3 10000 = Ok e /\
    shape e = [1; 3] /\
    get 0%R e [0; 0] = cos (get 0%R (Tensor [1] [2%R]) [0] * frequency 10000 1 0) /\
    get 0%R e [0; 2] = 0%R.
Proof.
  destruct (@time_stepper_layout (Tensor [1] [2%R]) 1 3 10000%Z)
    as (e & He & Hs & _ & Hl); [reflexivity | lia | lia |].
  exists e. split; [exact He|]. split; [exact Hs|].
  destruct (Hl 0 ltac:(lia)) as [Hcs Hz]. split.
  - apply (Hcs 0). simpl. lia.
  - apply Hz. reflexivity.
Defined.

Lemma get_unsqueezed (t : tensor R) (B H b h : nat) :
  shape t = [B; H] ->
  get 0%R (Tensor [B; 1; H] (data t)) [b; 0; h] = get 0%R t [b; h].
Proof.
  intros Ht. unfold get. rewrite Ht. cbn [shape data ravel numel fold_right].
  f_equal; try lia.
Qed.

Lemma bidx_token (B T H b t h : nat) :
  b < B -> h < H -> bidx [B; 1; H] [b; t; h] = [b; 0; h].
Proof.
  intros Hb Hh. unfold bidx. cbn [length Nat.sub skipn combine map Nat.eqb].
  destruct (Nat.eqb_spec B 1), (Nat.eqb_spec H 1); repeat f_equal; lia.
Qed.

(** X2.  [modulate] scales and shifts every token of a sample by that
    sample's [scale] and [shift]. *)
Theorem modulate_entry (x shift scale : tensor R) (B T H : nat) :
  shape x = [B; T; H] -> shape shift = [B; H] -> shape scale = [B; H] ->
  wf shift -> wf scale ->
  exists y,
    modulate x shift scale = Ok y /\ shape y = [B; T; H] /\ wf y /\
    forall b t h, b < B -> t < T -> h < H ->
      get 0%R y [b; t; h]
      = (get 0%R x [b; t; h] * (1 + get 0%R scale [b; h]) + get 0%R shift [b; h])%R.
Proof.
  intros Hx Hsh Hsc Hwsh Hwsc.
  unfold modulate, unsqueeze1. rewrite Hsc, Hsh. cbn [bind].
  unfold tmul, tadd, map2b. cbn [shape tmap]. rewrite Hx, broadcast_token_l.
  cbn [bind shape tabulate]. rewrite broadcast_token_l.
  eexists. split; [reflexivity|]. split; [reflexivity|]. split; [apply wf_tabulate|].
  intros b t h Hb Ht Hh.
  assert (Hin : in_range [B; T; H] [b; t; h]) by (repeat constructor; assumption).
  rewrite get_tabulate by exact Hin.
  cbn [shape]. rewrite (bidx_same Hin), (@bidx_token B T H b t h Hb Hh).
  rewrite (@get_unsqueezed shift B H b h Hsh). f_equal.
  rewrite get_tabulate by exact Hin.
  rewrite (bidx_same Hin), (@bidx_token B T H b t h Hb Hh). f_equal.
  rewrite (@get_tmap_in _ _ 0%R 0%R (Rplus 1) (Tensor [B; 1; H] (data scale)) [b; 0; h]).
  - now rewrite (@get_unsqueezed scale B H b h Hsc).
  - unfold wf in *. cbn [data shape numel fold_right]. rewrite Hwsc, Hsc.
    cbn [numel fold_right]. lia.
  - repeat constructor; lia.
Qed.

Lemma modulate_entry_witness :
  exists y,
    modulate (Tensor [1; 2; 1] [3; 4]%R) (Tensor [1; 1] [10%R]) (Tensor [1; 1] [2%R]) = Ok y /\
    get 0%R y [0; 1; 0]
    = Rplus (Rmult (get 0%R (Tensor [1; 2; 1] [3; 4]%R) [0; 1; 0])
                   (Rplus 1 (get 0%R (Tensor [1; 1] [2%R]) [0; 0])))
            (get 0%R (Tensor [1; 1] [10%R]) [0; 0]).
Proof.
  destruct (@modulate_entry (Tensor [1; 2; 1] [3; 4]%R) (Tensor [1; 1] [10%R])
              (Tensor [1; 1] [2%R]) 1 2 1)
    as (y & Hy & _ & _ & He); try reflexivity.
  exists y. split; [exact Hy|]. apply He; lia.
Defined.

(** ** [LabelEmbedder]: the lookup *)

Lemma embedding_forward_entries (e : Embedding.t) (labels : tensor Z) (B : nat) :
  shape labels = [B] ->
  Forall (fun i => 0 <= i < Z.of_nat (Embedding.num_embeddings e))%Z (data labels) ->
  exists y,
    Embedding.forward e labels = Ok y /\
    shape y = [B; Embedding.embedding_dim e] /\ wf y /\
    forall b j, b < B -> j < Embedding.embedding_dim e ->
      get 0%R y [b; j]
      = get 0%R (Embedding.weight e) [Z.to_nat (get 0%Z labels [b]); j].
Proof.
  intros Hs Hl. unfold Embedding.forward.
  assert (Hall : forallb (Embedding.in_table e) (data labels) = true).
  { apply forallb_forall. intros i Hi.
    pose proof (proj1 (Forall_forall _ _) Hl i Hi) as Hr. cbv beta in Hr.
    unfold Embedding.in_table. apply andb_true_iff. split.
    - apply Z.leb_le. lia.
    - apply Z.ltb_lt. lia. }
  rewrite Hall, Hs. eexists. split; [reflexivity|].
  split; [reflexivity|]. split; [apply wf_tabulate|].
  intros b j Hb Hj.
  rewrite get_tabulate by (repeat constructor; assumption). reflexivity.
Qed.

Lemma embedding_forward_out_of_range (e : Embedding.t) (labels : tensor Z) (l : Z) :
  In l (data labels) ->
  (l < 0 \/ Z.of_nat (Embedding.num_embeddings e) <= l)%Z ->
  Embedding.forward e labels = Raise IndexError.
Proof.
  intros Hin Hl. unfold Embedding.forward.
  destruct (forallb (Embedding.in_table e) (data labels)) eqn:E; [|reflexivity].
  pose proof (proj1 (forallb_forall _ _) E l Hin) as Ht.
  unfold Embedding.in_table in Ht. apply andb_true_iff in Ht as [H1 H2].
  apply Z.leb_le in H1. apply Z.ltb_lt in H2. lia.
Qed.

Lemma label_init_fields (num_classes hidden_size : nat) (p : R) (g0 : gen) :
  let m := fst (LabelEmbedder.init num_classes hidden_size p g0) in
  LabelEmbedder.num_classes m = num_classes /\
  LabelEmbedder.dropout_prob m = p /\
  Embedding.embedding_dim (LabelEmbedder.embedding_table m) = hidden_size /\
  Embedding.num_embeddings (LabelEmbedder.embedding_table m)
  = num_classes + (if Rltb 0 p then 1 else 0) /\
  shape (Embedding.weight (LabelEmbedder.embedding_table m))
  = [num_classes + (if Rltb 0 p then 1 else 0); hidden_size].
Proof. repeat split. Qed.

(** X3.  Without dropout the embedder is a plain table lookup. *)
Theorem label_forward_without_dropout
    (num_classes hidden_size : nat) (p : R) (g0 g : gen) (labels : tensor Z) (B : nat) :
  (p <= 0)%R ->
  shape labels = [B] ->
  Forall (fun l => 0 <= l < Z.of_nat num_classes)%Z (data labels) ->
  let m := fst (LabelEmbedder.init num_classes hidden_size p g0) in
  let table := LabelEmbedder.embedding_table m in
  Embedding.num_embeddings table = num_classes /\
  exists e,
    LabelEmbedder.forward m labels g = Ok (e, g) /\
    shape e = [B; hidden_size] /\ wf e /\
    forall b j, b < B -> j < hidden_size ->
      get 0%R e [b; j]
      = get 0%R (Embedding.weight table) [Z.to_nat (get 0%Z labels [b]); j].
Proof.
  intros Hp Hs Hl m table.
  destruct (label_init_fields num_classes hidden_size p g0) as (Hnc & Hdp & Hdim & Hrows & _).
  fold m in Hnc, Hdp, Hdim, Hrows. fold table in Hdim, Hrows.
  rewrite (Rltb_false Hp), Nat.add_0_r in Hrows.
  split; [exact Hrows|].
  destruct (@embedding_forward_entries table labels B Hs) as (y & Hy & Hsy & Hwy & Hey).
  { rewrite Hrows. exact Hl. }
  exists y. unfold LabelEmbedder.forward, LabelEmbedder.looked_up.
  rewrite Hdp, (Rltb_false Hp). cbn [bind]. fold table. rewrite Hy. cbn [bind].
  rewrite Hdim in Hsy, Hey. auto.
Qed.

Lemma label_forward_without_dropout_witness :
  exists e,
    LabelEmbedder.forward (fst (LabelEmbedder.init 3 2 0%R (fun i => INR i)))
      (Tensor [2] [2%Z; 0%Z]) (fun _ => 1%R)
    = Ok (e, fun _ => 1%R) /\
    shape e = [2; 2] /\
    get 0%R e [0; 1] = INR 5.
Proof.
  destruct (@label_forward_without_dropout 3 2 0%R (fun i => INR i) (fun _ => 1%R)
              (Tensor [2] [2%Z; 0%Z]) 2) as (_ & e & He & Hs & _ & Hent).
  - lra.
  - reflexivity.
  - repeat constructor; simpl; lia.
  - exists e. split; [exact He|]. split; [exact Hs|].
    rewrite (Hent 0 1) by lia. reflexivity.
Defined.

(** X4.  Without dropout the table has no row for [num_classes]: a label
    outside [[0, num_classes)] makes the lookup raise. *)
Theorem label_out_of_range_raises
    (num_classes hidden_size : nat) (p : R) (g0 g : gen) (labels : tensor Z) (l : Z) :
  (p <= 0)%R ->
  In l (data labels) ->
  (l < 0 \/ Z.of_nat num_classes <= l)%Z ->
  LabelEmbedder.forward (fst (LabelEmbedder.init num_classes hidden_size p g0)) labels g
  = Raise IndexError.
Proof.
  intros Hp Hin Hl.
  destruct (label_init_fields num_classes hidden_size p g0) as (_ & Hdp & _ & Hrows & _).
  unfold LabelEmbedder.forward, LabelEmbedder.looked_up.
  rewrite Hdp, (Rltb_false Hp). cbn [bind].
  rewrite (@embedding_forward_out_of_range _ labels l Hin); [reflexivity|].
  rewrite Hrows, (Rltb_false Hp), Nat.add_0_r. exact Hl.
Qed.

Lemma label_out_of_range_raises_witness :
  LabelEmbedder.forward (fst (LabelEmbedder.init 3 2 0%R (fun _ => 0%R)))
    (Tensor [2] [1%Z; 3%Z]) (fun _ => 0%R)
  = Raise IndexError.
Proof.
  apply (@label_out_of_range_raises 3 2 0%R (fun _ => 0%R) (fun _ => 0%R)
           (Tensor [2] [1%Z; 3%Z]) 3%Z).
  - lra.
  - simpl. auto.
  - right. simpl. lia.
Defined.

(** ** Construction of [AttentionPerceptron] and [DiffusionTransformer] *)

Lemma dropout_init_valid (p : R) :
  valid_prob p -> Dropout.init p = Ok (Dropout.mk p true).
Proof.
  intros [H0 H1]. unfold Dropout.init. now rewrite !Rltb_false by lra.
Qed.

Lemma dropout_init_invalid (p : R) :
  ~ valid_prob p -> Dropout.init p = Raise ValueError.
Proof.
  intros Hp. unfold Dropout.init, valid_prob in *.
  destruct (Rlt_dec p 0) as [Hn|Hn].
  - now rewrite (Rltb_true Hn).
  - rewrite (Rltb_false (x := p) (y := 0)) by lra.
    rewrite (Rltb_true (x := 1) (y := p)) by lra. reflexivity.
Qed.

Lemma linear_init_has_bias (i o : nat) (b : bool) (g : gen) :
  (exists t, Linear.bias (fst (Linear.init i o b g)) = Some t) <-> b = true.
Proof.
  unfold Linear.init, uniform_, draw. destruct b; cbn [fst Linear.bias]; split.
  - reflexivity.
  - intros _. eexists. reflexivity.
  - intros [t Ht]. discriminate.
  - discriminate.
Qed.

Lemma perceptron_init_success
    (in_features : nat) (hidden_features out_features : option nat) (layer_norm : bool)
    (bias : arg bool) (dropout_prob : arg R) (g : gen)
    (b0 b1 : bool) (rb : list bool) (p0 p1 : R) (rp : list R) :
  to_2tuple bias = b0 :: b1 :: rb ->
  to_2tuple dropout_prob = p0 :: p1 :: rp ->
  valid_prob p0 -> valid_prob p1 ->
  exists m g',
    AttentionPerceptron.init in_features hidden_features out_features layer_norm
      bias dropout_prob g = Ok (m, g') /\
    Linear.in_features (AttentionPerceptron.fc1 m) = in_features /\
    Linear.out_features (AttentionPerceptron.fc1 m) = or_default hidden_features in_features /\
    Linear.in_features (AttentionPerceptron.fc2 m) = or_default hidden_features in_features /\
    Linear.out_features (AttentionPerceptron.fc2 m) = or_default out_features in_features /\
    ((exists t, Linear.bias (AttentionPerceptron.fc1 m) = Some t) <-> b0 = true) /\
    ((exists t, Linear.bias (AttentionPerceptron.fc2 m) = Some t) <-> b1 = true) /\
    AttentionPerceptron.drop1 m = Dropout.mk p0 true /\
    AttentionPerceptron.drop2 m = Dropout.mk p1 true /\
    AttentionPerceptron.norm m
      = if layer_norm
        then Some (LayerNorm.init (or_default hidden_features in_features) true 1e-5%R)
        else None.
Proof.
  intros Hb Hp Hv0 Hv1. unfold AttentionPerceptron.init.
  rewrite Hb, Hp. cbn [item nth_error bind].
  fold (or_default hidden_features in_features).
  fold (or_default out_features in_features).
  set (hid := or_default hidden_features in_features).
  set (out := or_default out_features in_features).
  pose proof (linear_init_fields in_features hid b0 g) as [Hi1 Ho1].
  pose proof (linear_init_has_bias in_features hid b0 g) as Hb1.
  destruct (Linear.init in_features hid b0 g) as [fc1 g1].
  rewrite (dropout_init_valid Hv0). cbn [bind].
  pose proof (linear_init_fields hid out b1 g1) as [Hi2 Ho2].
  pose proof (linear_init_has_bias hid out b1 g1) as Hb2.
  destruct (Linear.init hid out b1 g1) as [fc2 g2].
  rewrite (dropout_init_valid Hv1). cbn [bind fst] in *.
  eexists _, _. split; [reflexivity|].
  cbn [AttentionPerceptron.fc1 AttentionPerceptron.fc2 AttentionPerceptron.drop1
       AttentionPerceptron.drop2 AttentionPerceptron.norm].
  repeat (split; [assumption || reflexivity|]). reflexivity.
Qed.

Lemma perceptron_init_needs
    (in_features : nat) (hidden_features out_features : option nat) (layer_norm : bool)
    (bias : arg bool) (dropout_prob : arg R) (g : gen) :
  is_ok (AttentionPerceptron.init in_features hidden_features out_features layer_norm
           bias dropout_prob g) = true ->
  exists b0 b1 rb p0 p1 rp,
    to_2tuple bias = b0 :: b1 :: rb /\
    to_2tuple dropout_prob = p0 :: p1 :: rp /\
    valid_prob p0 /\ valid_prob p1.
Proof.
  unfold AttentionPerceptron.init.
  destruct (to_2tuple bias) as [|b0 [|b1 rb]]; cbn [item nth_error bind is_ok];
    try discriminate.
  - destruct (Linear.init _ _ b0 g) as [fc1 g1].
    destruct (to_2tuple dropout_prob) as [|p0 rp]; cbn [item nth_error bind is_ok];
      try discriminate.
    destruct (Dropout.init p0); cbn [bind is_ok]; discriminate.
  - destruct (Linear.init _ _ b0 g) as [fc1 g1].
    destruct (to_2tuple dropout_prob) as [|p0 [|p1 rp]]; cbn [item nth_error bind is_ok];
      try discriminate.
    + destruct (Dropout.init p0); cbn [bind is_ok]; [|discriminate].
      destruct (Linear.init _ _ b1 g1). cbn [item nth_error bind is_ok]. discriminate.
    + destruct (Rle_dec 0 p0) as [H0|H0]; [destruct (Rle_dec p0 1) as [H0'|H0']|].
      2,3: rewrite (@dropout_init_invalid p0) by (unfold valid_prob; lra);
           cbn [bind is_ok]; discriminate.
      rewrite (@dropout_init_valid p0) by (split; assumption). cbn [bind].
      destruct (Linear.init _ _ b1 g1) as [fc2 g2].
      destruct (Rle_dec 0 p1) as [H1|H1]; [destruct (Rle_dec p1 1) as [H1'|H1']|].
      2,3: rewrite (@dropout_init_invalid p1) by (unfold valid_prob; lra);
           cbn [bind is_ok]; discriminate.
      intros _. exists b0, b1, rb, p0, p1, rp. repeat split; assumption.
Qed.

(** X5.  The perceptron is constructed without error exactly when both
    configuration tuples have (at least) two entries and the first two
    dropout rates lie in [[0, 1]].  Its two layers then take their bias flag
    and their dropout rate from the two entries, each on its own, a size
    left out defaults to [in_features], and the normalisation between them
    is a [LayerNorm] over the hidden size or, without [layer_norm], the
    identity. *)
Theorem perceptron_init_config
    (in_features : nat) (hidden_features out_features : option nat) (layer_norm : bool)
    (bias : arg bool) (dropout_prob : arg R) (g : gen) :
  (is_ok (AttentionPerceptron.init in_features hidden_features out_features layer_norm
            bias dropout_prob g) = true
   <-> exists b0 b1 rb p0 p1 rp,
         to_2tuple bias = b0 :: b1 :: rb /\
         to_2tuple dropout_prob = p0 :: p1 :: rp /\
         valid_prob p0 /\ valid_prob p1) /\
  (forall b0 b1 rb p0 p1 rp,
     to_2tuple bias = b0 :: b1 :: rb ->
     to_2tuple dropout_prob = p0 :: p1 :: rp ->
     valid_prob p0 -> valid_prob p1 ->
     exists m g',
       AttentionPerceptron.init in_features hidden_features out_features layer_norm
         bias dropout_prob g = Ok (m, g') /\
       Linear.in_features (AttentionPerceptron.fc1 m) = in_features /\
       Linear.out_features (AttentionPerceptron.fc1 m)
         = or_default hidden_features in_features /\
       Linear.in_features (AttentionPerceptron.fc2 m)
         = or_default hidden_features in_features /\
       Linear.out_features (AttentionPerceptron.fc2 m)
         = or_default out_features in_features /\
       ((exists t, Linear.bias (AttentionPerceptron.fc1 m) = Some t) <-> b0 = true) /\
       ((exists t, Linear.bias (AttentionPerceptron.fc2 m) = Some t) <-> b1 = true) /\
       AttentionPerceptron.drop1 m = Dropout.mk p0 true /\
       AttentionPerceptron.drop2 m = Dropout.mk p1 true /\
       AttentionPerceptron.norm m
      = if layer_norm
        then Some (LayerNorm.init (or_default hidden_features in_features) true 1e-5%R)
        else None).
Proof.
  split.
  - split.
    + apply perceptron_init_needs.
    + intros (b0 & b1 & rb & p0 & p1 & rp & Hb & Hp & Hv0 & Hv1).
      destruct (@perceptron_init_success in_features hidden_features out_features
                  layer_norm bias dropout_prob g b0 b1 rb p0 p1 rp Hb Hp Hv0 Hv1)
        as (m & g' & -> & _).
      reflexivity.
  - intros b0 b1 rb p0 p1 rp. apply perceptron_init_success.
Qed.

(** ** [AttentionPerceptron.forward] *)

Lemma dropout_forward_shape_snd (d : Dropout.t) (x : tensor R) (g : gen) :
  exists y g', Dropout.forward d x g = (y, g') /\ shape y = shape x.
Proof.
  pose proof (dropout_forward_shape d x g) as Hs.
  destruct (Dropout.forward d x g) as [y g']. exists y, g'. auto.
Qed.

Lemma perceptron_forward_lead (p : AttentionPerceptron.t) (lead : list nat)
    (x : tensor R) (g : gen) :
  Linear.in_features (AttentionPerceptron.fc2 p)
    = Linear.out_features (AttentionPerceptron.fc1 p) ->
  match AttentionPerceptron.norm p with
  | Some ln => LayerNorm.normalized_shape ln = Linear.out_features (AttentionPerceptron.fc1 p)
  | None => True
  end ->
  shape x = lead ++ [Linear.in_features (AttentionPerceptron.fc1 p)] ->
  exists y g', AttentionPerceptron.forward p x g = Ok (y, g') /\
               shape y = lead ++ [Linear.out_features (AttentionPerceptron.fc2 p)].
Proof.
  intros Hi2 Hn Hx. unfold AttentionPerceptron.forward.
  rewrite (@linear_forward_ok _ x lead Hx). cbn [bind].
  set (h := GELU_tanh _).
  assert (Hh : shape h = lead ++ [Linear.out_features (AttentionPerceptron.fc1 p)])
    by reflexivity.
  destruct (dropout_forward_shape_snd (AttentionPerceptron.drop1 p) h g)
    as (h1 & g1 & -> & Hd1).
  rewrite Hh in Hd1.
  assert (Hnorm : exists h2,
             match AttentionPerceptron.norm p with
             | Some ln => LayerNorm.forward ln h1
             | None => Ok h1
             end = Ok h2 /\
             shape h2 = lead ++ [Linear.out_features (AttentionPerceptron.fc1 p)]).
  { destruct (AttentionPerceptron.norm p) as [ln|].
    - rewrite (@layernorm_forward_ok ln h1 lead) by now rewrite Hd1, Hn.
      eexists. split; [reflexivity|]. now rewrite shape_tabulate.
    - exists h1. auto. }
  destruct Hnorm as (h2 & -> & Hh2). cbn [bind].
  rewrite (@linear_forward_ok _ h2 lead) by now rewrite Hh2, Hi2.
  cbn [bind].
  match goal with
  | |- context [Dropout.forward ?d ?t ?gg] =>
      destruct (dropout_forward_shape_snd d t gg) as (h3 & g3 & -> & Hd2)
  end.
  exists h3, g3. split; [reflexivity|]. now rewrite Hd2, shape_tabulate.
Qed.

(** X6.  A constructed perceptron maps a tensor whose last axis has
    [in_features] entries to one whose last axis has [out_features] entries
    ([in_features] when left out), the leading axes unchanged, whatever the
    hidden size, the normalisation, the dropout rates and the generator
    are; on any other size of the last axis it raises [RuntimeError]. *)
Theorem perceptron_forward_shape
    (in_features : nat) (hidden_features out_features : option nat) (layer_norm : bool)
    (bias : arg bool) (dropout_prob : arg R) (g0 g1 : gen) (p : AttentionPerceptron.t)
    (lead : list nat) (k : nat) (x : tensor R) (g : gen) :
  AttentionPerceptron.init in_features hidden_features out_features layer_norm
    bias dropout_prob g0 = Ok (p, g1) ->
  shape x = lead ++ [k] ->
  (k = in_features ->
   exists y g', AttentionPerceptron.forward p x g = Ok (y, g') /\
                shape y = lead ++ [or_default out_features in_features]) /\
  (k <> in_features -> AttentionPerceptron.forward p x g = Raise RuntimeError).
Proof.
  intros E Hx.
  destruct (@perceptron_init_needs in_features hidden_features out_features layer_norm
              bias dropout_prob g0) as (b0 & b1 & rb & p0 & p1 & rp & Hb & Hp & Hv0 & Hv1).
  { now rewrite E. }
  destruct (@perceptron_init_success in_features hidden_features out_features layer_norm
              bias dropout_prob g0 b0 b1 rb p0 p1 rp Hb Hp Hv0 Hv1)
    as (p' & g' & E' & Hi1 & Ho1 & Hi2 & Ho2 & _ & _ & _ & _ & Hn).
  rewrite E in E'. injection E' as <- <-.
  split.
  - intros ->. rewrite <- Ho2. rewrite <- Hi1 in Hx.
    apply perceptron_forward_lead; [congruence | | exact Hx].
    rewrite Hn, Ho1. destruct layer_norm; [apply layernorm_init_shape | exact I].
  - intros Hk. unfold AttentionPerceptron.forward.
    rewrite (@linear_forward_mismatch _ x lead k Hx) by congruence.
    reflexivity.
Qed.

Lemma perceptron_forward_shape_witness :
  exists p g1,
    AttentionPerceptron.init 2 (Some 3) None true (Scalar true) (Scalar (1 / 2)%R)
      (fun _ => 0%R) = Ok (p, g1) /\
    (exists y g', AttentionPerceptron.forward p (Tensor [1; 2] [1; 2]%R) (fun _ => 0%R)
                  = Ok (y, g') /\ shape y = [1; 2]) /\
    AttentionPerceptron.forward p (Tensor [2; 1] [1; 2]%R) (fun _ => 0%R)
    = Raise RuntimeError.
Proof.
  assert (Hv : valid_prob (1 / 2)%R) by (unfold valid_prob; lra).
  destruct (@perceptron_init_success 2 (Some 3) None true (Scalar true) (Scalar (1 / 2)%R)
              (fun _ => 0%R) true true [] (1 / 2)%R (1 / 2)%R [] eq_refl eq_refl Hv Hv)
    as (p & g1 & E & _).
  exists p, g1. split; [exact E|]. split.
  - exact (proj1 (@perceptron_forward_shape 2 (Some 3) None true (Scalar true)
                    (Scalar (1 / 2)%R) (fun _ => 0%R) g1 p [1] 2
                    (Tensor [1; 2] [1; 2]%R) (fun _ => 0%R) E eq_refl) eq_refl).
  - apply (proj2 (@perceptron_forward_shape 2 (Some 3) None true (Scalar true)
                    (Scalar (1 / 2)%R) (fun _ => 0%R) g1 p [2] 1
                    (Tensor [2; 1] [1; 2]%R) (fun _ => 0%R) E eq_refl)).
    lia.
Defined.

Lemma block_init_success
    (dim heads hidden : nat) (ratio : number) (affine : bool) (eps rate : R)
    (pbias pln : bool) (g : gen) (ph : Z) :
  py_mod dim heads = Ok 0 -> int_mul hidden ratio = Ok ph -> (0 <= ph)%Z ->
  valid_prob rate ->
  exists m g',
    DiffusionTransformer.init dim heads hidden ratio affine eps rate pbias pln g
      = Ok (m, g') /\
    DiffusionTransformer.perceptron_hidden_dim m = ph /\
    Linear.out_features (AttentionPerceptron.fc1 (DiffusionTransformer.perceptron m))
      = Z.to_nat ph /\
    Attention.num_heads (DiffusionTransformer.attention m) = heads /\
    Attention.div_dimension (DiffusionTransformer.attention m) = dim / heads /\
    Linear.out_features (DiffusionTransformer.adaptiveLN m) = 6 * hidden.
Proof.
  intros Hmod Hmul Hhid Hrate. unfold DiffusionTransformer.init.
  assert (Hh : heads <> 0).
  { unfold py_mod in Hmod. destruct (Nat.eqb_spec heads 0); [discriminate | assumption]. }
  assert (Hd : dim mod heads = 0).
  { unfold py_mod in Hmod. destruct (Nat.eqb_spec heads 0); [discriminate|].
    now injection Hmod. }
  destruct (@attention_init_ok dim heads g Hh Hd) as (a & ga & -> & Hnh & Hdd).
  cbn [bind]. rewrite Hmul. cbn [bind].
  assert (E : (ph <? 0)%Z = false) by (apply Z.ltb_ge; exact Hhid).
  rewrite E. cbn [bind].
  destruct (@perceptron_init_success hidden (Some (Z.to_nat ph))
              (Some hidden) pln (Scalar pbias) (Scalar rate) ga
              pbias pbias [] rate rate [] eq_refl eq_refl Hrate Hrate)
    as (p & gp & -> & _ & Ho1 & _).
  cbn [bind].
  pose proof (linear_init_fields hidden (6 * hidden) true gp) as [_ Ho].
  destruct (Linear.init hidden (6 * hidden) true gp) as [ada g3].
  eexists _, _. split; [reflexivity|]. cbn in *. auto.
Qed.

Lemma block_init_needs
    (dim heads hidden : nat) (ratio : number) (affine : bool) (eps rate : R)
    (pbias pln : bool) (g : gen) :
  is_ok (DiffusionTransformer.init dim heads hidden ratio affine eps rate pbias pln g) = true ->
  py_mod dim heads = Ok 0 /\
  (exists ph, int_mul hidden ratio = Ok ph /\ (0 <= ph)%Z) /\
  valid_prob rate.
Proof.
  unfold DiffusionTransformer.init.
  rewrite attention_init_raises. unfold py_mod.
  destruct (Nat.eqb_spec heads 0) as [|Hh]; [cbn; discriminate|].
  destruct (Nat.eqb_spec (dim mod heads) 0) as [Hd|]; [|cbn; discriminate].
  destruct (@attention_init_ok dim heads g Hh Hd) as (a & ga & -> & _).
  cbn [bind].
  destruct (int_mul hidden ratio) as [ph|e]; [|cbn; discriminate]. cbn [bind].
  destruct (Z.ltb_spec ph 0) as [|Hhid]; [cbn; discriminate|].
  cbn [bind].
  pose proof (@perceptron_init_needs hidden (Some (Z.to_nat ph))
                (Some hidden) pln (Scalar pbias) (Scalar rate) ga) as Hf.
  destruct (AttentionPerceptron.init _ _ _ _ _ _ _) as [[p gp]|]; [|cbn; discriminate].
  intros _. rewrite Hd. split; [reflexivity|]. split; [exists ph; auto|].
  destruct (Hf eq_refl) as (b0 & b1 & rb & p0 & p1 & rp & _ & Hp & Hv0 & _).
  cbn in Hp. injection Hp as <- _. exact Hv0.
Qed.

(** The product [hidden_size * mlp_ratio] is a binary64 product: the
    truncation sees its rounding. *)
Example int_mul_100_057 : int_mul 100 (PyFloat (float_ratio 57 100)) = Ok 56%Z.
Proof. reflexivity. Qed.

Example int_mul_10_03 : int_mul 10 (PyFloat (float_ratio 3 10)) = Ok 3%Z.
Proof. reflexivity. Qed.

Example int_mul_3_minus_third :
  int_mul 3 (PyFloat (SpecFloat.SFopp (float_ratio 1 3))) = Ok (-1)%Z.
Proof. reflexivity. Qed.

(** C9, as the code has it.  With an attention size that is not a multiple
    of the number of heads, both constructors fail at once, with the error
    of the assertion (of the division, when there is no head).  With a
    multiple, [Attention] is constructed without error;
    [DiffusionTransformer] is when, besides,
    [int(hidden_size * mlp_ratio)] is an integer that is not negative and
    the dropout rate lies in [[0, 1]], and only then. *)
Theorem construction_on_divisible_sizes
    (dim heads hidden : nat) (ratio : number) (affine : bool) (eps rate : R)
    (pbias pln : bool) (g : gen) :
  (forall r, py_mod dim heads = Ok r -> r <> 0 ->
     Attention.init dim heads g = Raise AssertionError /\
     DiffusionTransformer.init dim heads hidden ratio affine eps rate pbias pln g
     = Raise AssertionError) /\
  (py_mod dim heads = Raise ZeroDivisionError ->
     Attention.init dim heads g = Raise ZeroDivisionError /\
     DiffusionTransformer.init dim heads hidden ratio affine eps rate pbias pln g
     = Raise ZeroDivisionError) /\
  (py_mod dim heads = Ok 0 ->
     is_ok (Attention.init dim heads g) = true /\
     (is_ok (DiffusionTransformer.init dim heads hidden ratio affine eps rate pbias pln g)
      = true
      <-> (exists ph, int_mul hidden ratio = Ok ph /\ (0 <= ph)%Z) /\ valid_prob rate)).
Proof.
  split; [|split].
  - intros r Hr Hne.
    assert (E : Attention.init dim heads g = Raise AssertionError).
    { unfold Attention.init. rewrite Hr. cbn [bind].
      apply Nat.eqb_neq in Hne. now rewrite Hne. }
    split; [exact E|]. unfold DiffusionTransformer.init. now rewrite E.
  - intros Hr.
    assert (E : Attention.init dim heads g = Raise ZeroDivisionError).
    { unfold Attention.init. now rewrite Hr. }
    split; [exact E|]. unfold DiffusionTransformer.init. now rewrite E.
  - intros Hmod. split.
    + unfold py_mod in Hmod. destruct (Nat.eqb_spec heads 0) as [|Hh]; [discriminate|].
      injection Hmod as Hd.
      destruct (@attention_init_ok dim heads g Hh Hd) as (m & g' & -> & _). reflexivity.
    + split.
      * intros Hok. apply block_init_needs in Hok. tauto.
      * intros [(ph & Hmul & Hhid) Hrate].
        destruct (@block_init_success dim heads hidden ratio affine eps rate pbias pln g ph
                    Hmod Hmul Hhid Hrate) as (m & g' & -> & _).
        reflexivity.
Qed.

(** C9, as stated, fails for the block: on sizes that divide, its
    constructor still raises when the dropout rate lies outside [[0, 1]]
    ([nn.Dropout] refuses it) and when [int(hidden_size * mlp_ratio)] is
    negative ([nn.Linear] refuses the size). *)
Lemma block_raises_on_divisible_sizes :
  py_mod 4 2 = Ok 0 /\
  DiffusionTransformer.init 4 2 4 (PyInt 1) false 1e-6%R 2%R true false (fun _ => 0%R)
  = Raise ValueError /\
  DiffusionTransformer.init 4 2 3 (PyFloat (SpecFloat.SFopp (float_ratio 1 3)))
    false 1e-6%R 0%R true false (fun _ => 0%R)
  = Raise RuntimeError.
Proof.
  split; [reflexivity|]. split.
  - unfold DiffusionTransformer.init. eval_model.
    rewrite (@Rltb_false 2 0) by lra. rewrite (@Rltb_true 1 2) by lra. reflexivity.
  - reflexivity.
Qed.

(** ** Forward passes on any parameters *)

Lemma tadd_same_shape_wf (x z : tensor R) :
  shape z = shape x ->
  exists y, tadd x z = Ok y /\ shape y = shape x /\ wf y.
Proof.
  intros Hs. unfold tadd, map2b. rewrite Hs, broadcast_shapes_same.
  eexists. split; [reflexivity|]. split; [reflexivity | apply wf_tabulate].
Qed.

(** A block over hidden size [H], whatever its parameters are. *)
Lemma block_forward_ok
    (m : DiffusionTransformer.t) (H B T : nat) (x c : tensor R) (g : gen) :
  block_sized m H -> 0 < B -> 0 < H ->
  shape x = [B; T; H] -> shape c = [B; H] ->
  exists y g', DiffusionTransformer.forward m x c g = Ok (y, g') /\
               shape y = [B; T; H] /\ wf y.
Proof.
  intros (Hn1 & Hn2 & Hatt & Hper & Hai & Hao) HB HH Hx Hc.
  unfold DiffusionTransformer.forward.
  rewrite (@linear_forward_ok _ (SiLU c) [B]) by (cbn [SiLU tmap shape]; now rewrite Hc, Hai).
  cbn [bind app]. rewrite Hao.
  rewrite (@chunk1_mul _ B 6 H) by (reflexivity || lia).
  cbn [bind List.repeat offsets map].
  rewrite (@layernorm_forward_ok _ x [B; T]) by now rewrite Hx, Hn1.
  cbn [bind].
  match goal with
  | |- context [modulate ?n ?sh ?sc] =>
      destruct (@modulate_ok n sh sc B T H) as (attn_input & -> & Hin & _);
        [rewrite shape_tabulate; exact Hx | reflexivity | reflexivity |]
  end.
  cbn [bind unsqueeze1 shape tabulate].
  destruct (@forward_nomask_ok (DiffusionTransformer.attention m) H B T
              attn_input attn_input attn_input Hatt HB HH Hin Hin Hin)
    as (sc & ctx & -> & _ & _ & _ & Hctx & _).
  cbn [bind].
  match goal with
  | |- context [tmul ?gate (tmap real_part ctx)] =>
      destruct (@tmul_gate_shape gate (tmap real_part ctx) B T H)
        as (gated & -> & Hgated); [reflexivity | exact Hctx |]
  end.
  cbn [bind].
  destruct (@tadd_same_shape x gated) as (attn_out & -> & Hout);
    [now rewrite Hgated, Hx|].
  cbn [bind]. rewrite Hx in Hout.
  rewrite (@layernorm_forward_ok _ attn_out [B; T]) by now rewrite Hout, Hn2.
  cbn [bind].
  match goal with
  | |- context [modulate ?n ?sh ?sc] =>
      destruct (@modulate_ok n sh sc B T H) as (perceptron_input & -> & Hpi & _);
        [rewrite shape_tabulate; exact Hout | reflexivity | reflexivity |]
  end.
  cbn [bind].
  destruct (@perceptron_forward_ok (DiffusionTransformer.perceptron m) H B T
              perceptron_input g Hper Hpi) as (h & g' & -> & Hh).
  cbn [bind].
  match goal with
  | |- context [tmul ?gate h] =>
      destruct (@tmul_gate_shape gate h B T H) as (z & -> & Hzs);
        [reflexivity | exact Hh |]
  end.
  cbn [bind].
  destruct (@tadd_same_shape_wf x z) as (y & -> & Hy & Hwy); [now rewrite Hzs, Hx|].
  cbn [bind]. exists y, g'. rewrite Hx in Hy. auto.
Qed.

(** X8.  A block constructed with [attention_embedding_size = hidden_size = H]
    maps [x] of shape [[B, T, H]] and a conditioning of shape [[B, H]] to a
    tensor of shape [[B, T, H]], whatever the other arguments of the
    constructor, the drawn parameters and the generator are, for a batch
    size and a hidden size of at least 1. *)
Theorem block_forward_shape
    (H heads : nat) (ratio : number) (affine : bool) (eps rate : R) (pbias pln : bool)
    (g0 g1 : gen) (m : DiffusionTransformer.t) (B T : nat) (x c : tensor R) (g : gen) :
  DiffusionTransformer.init H heads H ratio affine eps rate pbias pln g0 = Ok (m, g1) ->
  0 < B -> 0 < H ->
  shape x = [B; T; H] -> shape c = [B; H] ->
  exists y g', DiffusionTransformer.forward m x c g = Ok (y, g') /\
               shape y = [B; T; H] /\ wf y.
Proof.
  intros E HB HH Hx Hc.
  apply (@block_forward_ok m H B T x c g); try assumption.
  eapply block_init_sized. exact E.
Qed.

Lemma block_forward_shape_witness :
  exists m g0 y g',
    DiffusionTransformer.init 1 1 1 (PyInt 1) false 1e-6%R 0%R true false (fun _ => 0%R)
      = Ok (m, g0) /\
    DiffusionTransformer.forward m
      (Tensor [2; 3; 1] [1; 2; 3; 4; 5; 6]%R) (Tensor [2; 1] [7; 8]%R) (fun _ => 0%R)
    = Ok (y, g') /\
    shape y = [2; 3; 1] /\ wf y.
Proof.
  destruct block_init_example as (m & g0 & E & _).
  destruct (@block_forward_shape 1 1 (PyInt 1) false 1e-6%R 0%R true false (fun _ => 0%R) g0 m
              2 3 (Tensor [2; 3; 1] [1; 2; 3; 4; 5; 6]%R) (Tensor [2; 1] [7; 8]%R)
              (fun _ => 0%R) E)
    as (y & g' & Hf & Hs & Hw).
  - lia.
  - lia.
  - reflexivity.
  - reflexivity.
  - exists m, g0, y, g'. auto.
Defined.

(** ** A block without dropout *)

Lemma dropout_forward_0 (d : Dropout.t) (x : tensor R) (g : gen) :
  Dropout.p d = 0%R -> Dropout.forward d x g = (x, g).
Proof.
  intros E. unfold Dropout.forward. rewrite E, Reqb_refl.
  now rewrite orb_true_r.
Qed.

Lemma perceptron_forward_no_dropout (p : AttentionPerceptron.t) (x : tensor R) (g g0 : gen) :
  Dropout.p (AttentionPerceptron.drop1 p) = 0%R ->
  Dropout.p (AttentionPerceptron.drop2 p) = 0%R ->
  AttentionPerceptron.forward p x g
  = ('(y, _) <- AttentionPerceptron.forward p x g0 ;; Ok (y, g)).
Proof.
  intros E1 E2. unfold AttentionPerceptron.forward.
  destruct (Linear.forward (AttentionPerceptron.fc1 p) x) as [h|e]; [|reflexivity].
  cbn [bind]. rewrite !(dropout_forward_0 _ _ _ E1).
  destruct (match AttentionPerceptron.norm p with
            | Some ln => LayerNorm.forward ln (GELU_tanh h)
            | None => Ok (GELU_tanh h)
            end) as [h2|e]; [|reflexivity].
  cbn [bind].
  destruct (Linear.forward (AttentionPerceptron.fc2 p) h2) as [h3|e]; [|reflexivity].
  cbn [bind]. rewrite !(dropout_forward_0 _ _ _ E2). reflexivity.
Qed.

Lemma block_forward_no_dropout (m : DiffusionTransformer.t) (x c : tensor R) (g g0 : gen) :
  Dropout.p (AttentionPerceptron.drop1 (DiffusionTransformer.perceptron m)) = 0%R ->
  Dropout.p (AttentionPerceptron.drop2 (DiffusionTransformer.perceptron m)) = 0%R ->
  DiffusionTransformer.forward m x c g
  = ('(y, _) <- DiffusionTransformer.forward m x c g0 ;; Ok (y, g)).
Proof.
  intros E1 E2. unfold DiffusionTransformer.forward.
  destruct (Linear.forward _ (SiLU c)) as [a|e]; [|reflexivity]. cbn [bind].
  destruct (chunk1 0%R 6 a) as [chunks|e]; [|reflexivity]. cbn [bind].
  destruct chunks as [|c1 [|c2 [|c3 [|c4 [|c5 [|c6 [|c7 rest]]]]]]]; try reflexivity.
  destruct (LayerNorm.forward _ x) as [n1|e]; [|reflexivity]. cbn [bind].
  destruct (modulate n1 c1 c2) as [ai|e]; [|reflexivity]. cbn [bind].
  destruct (unsqueeze1 c3) as [g3|e]; [|reflexivity]. cbn [bind].
  destruct (Attention.forward _ ai ai ai None) as [[ctx w]|e]; [|reflexivity]. cbn [bind].
  destruct (tmul g3 _) as [gated|e]; [|reflexivity]. cbn [bind].
  destruct (tadd x gated) as [ao|e]; [|reflexivity]. cbn [bind].
  destruct (LayerNorm.forward _ ao) as [n2|e]; [|reflexivity]. cbn [bind].
  destruct (modulate n2 c4 c5) as [pin|e]; [|reflexivity]. cbn [bind].
  destruct (unsqueeze1 c6) as [g6|e]; [|reflexivity]. cbn [bind].
  rewrite (@perceptron_forward_no_dropout _ pin g g0 E1 E2).
  destruct (AttentionPerceptron.forward _ pin g0) as [[h gh]|e]; [|reflexivity].
  cbn [bind].
  destruct (tmul g6 h) as [gm|e]; [|reflexivity]. cbn [bind].
  destruct (tadd x gm) as [y|e]; reflexivity.
Qed.

(** X9.  A block constructed with [perceptron_dropout_rate = 0], as the
    script constructs it, draws nothing from the generator: its forward pass
    gives the same tensor, or the same error, under every generator and
    hands the generator back as it was. *)
Theorem block_without_dropout_is_deterministic
    (dim heads hidden : nat) (ratio : number) (affine : bool) (eps : R) (pbias pln : bool)
    (g1 g2 : gen) (m : DiffusionTransformer.t) :
  DiffusionTransformer.init dim heads hidden ratio affine eps 0%R pbias pln g1 = Ok (m, g2) ->
  forall (x c : tensor R) (g g0 : gen),
    DiffusionTransformer.forward m x c g
    = ('(y, _) <- DiffusionTransformer.forward m x c g0 ;; Ok (y, g)).
Proof.
  intros E x c g g0.
  assert (Hd : AttentionPerceptron.drop1 (DiffusionTransformer.perceptron m) = Dropout.mk 0 true /\
               AttentionPerceptron.drop2 (DiffusionTransformer.perceptron m) = Dropout.mk 0 true).
  { unfold DiffusionTransformer.init in E.
    destruct (Attention.init dim heads g1) as [[a ga]|]; [|discriminate]. cbn [bind] in E.
    destruct (int_mul hidden ratio) as [ph|]; [|discriminate]. cbn [bind] in E.
    destruct (ph <? 0)%Z; [discriminate|]. cbn [bind] in E.
    assert (Hv : valid_prob 0%R) by (unfold valid_prob; lra).
    destruct (@perceptron_init_success hidden (Some (Z.to_nat ph))
                (Some hidden) pln (Scalar pbias) (Scalar 0%R) ga
                pbias pbias [] 0%R 0%R [] eq_refl eq_refl Hv Hv)
      as (p & gp & Ep & _ & _ & _ & _ & _ & _ & Hd1 & Hd2 & _).
    rewrite Ep in E. cbn [bind] in E.
    destruct (Linear.init hidden (6 * hidden) true gp) as [ada g3].
    injection E as <- _. cbn. auto. }
  destruct Hd as [Hd1 Hd2].
  apply block_forward_no_dropout; [rewrite Hd1 | rewrite Hd2]; reflexivity.
Qed.

Lemma block_without_dropout_is_deterministic_witness :
  exists m g2,
    DiffusionTransformer.init 1 1 1 (PyInt 1) false 1e-6%R 0%R true false (fun _ => 0%R)
      = Ok (m, g2) /\
    forall (x c : tensor R) (g g0 : gen),
      DiffusionTransformer.forward m x c g
      = ('(y, _) <- DiffusionTransformer.forward m x c g0 ;; Ok (y, g)).
Proof.
  destruct block_init_example as (m & g2 & E & _).
  exists m, g2. split; [exact E|].
  exact (@block_without_dropout_is_deterministic 1 1 1 (PyInt 1) false 1e-6%R true false
           (fun _ => 0%R) g2 m E).
Defined.

(** ** A block whose two sizes differ *)

Lemma block_init_fields
    (dim heads hidden : nat) (ratio : number) (affine : bool) (eps rate : R)
    (pbias pln : bool) (g g' : gen) (m : DiffusionTransformer.t) :
  DiffusionTransformer.init dim heads hidden ratio affine eps rate pbias pln g = Ok (m, g') ->
  LayerNorm.normalized_shape (DiffusionTransformer.norm1 m) = hidden /\
  Linear.in_features (DiffusionTransformer.adaptiveLN m) = hidden /\
  Linear.out_features (DiffusionTransformer.adaptiveLN m) = 6 * hidden /\
  Linear.in_features (Attention.query_projection (DiffusionTransformer.attention m)) = dim.
Proof.
  unfold DiffusionTransformer.init. intros E.
  destruct (Attention.init dim heads g) as [[a ga]|] eqn:Ea; [|discriminate].
  cbn [bind] in E.
  destruct (int_mul hidden ratio) as [ph|]; [|discriminate]. cbn [bind] in E.
  destruct (ph <? 0)%Z; [discriminate|]. cbn [bind] in E.
  destruct (AttentionPerceptron.init _ _ _ _ _ _ _) as [[p gp]|]; [|discriminate].
  cbn [bind] in E.
  pose proof (linear_init_fields hidden (6 * hidden) true gp) as [Hi Ho].
  destruct (Linear.init hidden (6 * hidden) true gp) as [ada g3].
  injection E as <- _. cbn [fst] in *. cbn.
  rewrite layernorm_init_shape.
  repeat (split; [assumption || reflexivity|]).
  unfold Attention.init in Ea.
  destruct (py_mod dim heads) as [r|]; [|discriminate]. cbn [bind] in Ea.
  destruct (negb (r =? 0)); [discriminate|].
  pose proof (linear_init_fields dim (heads * (dim / heads)) true g) as [Hqi _].
  destruct (Linear.init dim (heads * (dim / heads)) true g) as [q g1].
  destruct (Linear.init dim (heads * (dim / heads)) true g1) as [k g2].
  destruct (Linear.init dim (heads * (dim / heads)) true g2) as [v g3'].
  injection Ea as <- _. exact Hqi.
Qed.

(** X10.  The constructor accepts an attention size that differs from the
    hidden size, but the block it returns cannot run: on every input of the
    hidden size its forward pass raises [RuntimeError], the modulated
    tokens not having the size the attention projects from. *)
Theorem block_size_mismatch_raises
    (dim heads hidden : nat) (ratio : number) (affine : bool) (eps rate : R)
    (pbias pln : bool) (g0 g1 : gen) (m : DiffusionTransformer.t)
    (B T : nat) (x c : tensor R) (g : gen) :
  DiffusionTransformer.init dim heads hidden ratio affine eps rate pbias pln g0 = Ok (m, g1) ->
  dim <> hidden ->
  shape x = [B; T; hidden] -> shape c = [B; hidden] ->
  DiffusionTransformer.forward m x c g = Raise RuntimeError.
Proof.
  intros E Hne Hx Hc.
  destruct (block_init_fields _ _ _ _ _ _ _ _ _ _ E) as (Hn1 & Hai & Hao & Hq).
  unfold DiffusionTransformer.forward.
  rewrite (@linear_forward_ok _ (SiLU c) [B]) by (cbn [SiLU tmap shape]; now rewrite Hc, Hai).
  cbn [bind app]. rewrite Hao.
  rewrite (@chunk1_mul _ B 6 hidden) by (reflexivity || lia).
  cbn [bind List.repeat offsets map].
  rewrite (@layernorm_forward_ok _ x [B; T]) by now rewrite Hx, Hn1.
  cbn [bind].
  match goal with
  | |- context [modulate ?n ?sh ?sc] =>
      destruct (@modulate_ok n sh sc B T hidden) as (attn_input & -> & Hin & _);
        [rewrite shape_tabulate; exact Hx | reflexivity | reflexivity |]
  end.
  cbn [bind unsqueeze1 shape tabulate].
  unfold Attention.forward. rewrite Hin. cbn [bind].
  unfold Attention.split_heads at 1.
  rewrite (@linear_forward_mismatch _ attn_input [B; T] hidden Hin) by congruence.
  reflexivity.
Qed.

Lemma block_size_mismatch_raises_witness :
  exists m g1,
    DiffusionTransformer.init 2 1 1 (PyInt 1) false 1e-6%R 0%R true false (fun _ => 0%R)
      = Ok (m, g1) /\
    DiffusionTransformer.forward m (Tensor [1; 1; 1] [1%R]) (Tensor [1; 1] [1%R]) (fun _ => 0%R)
    = Raise RuntimeError.
Proof.
  assert (Hv : valid_prob 0%R) by (unfold valid_prob; lra).
  destruct (@block_init_success 2 1 1 (PyInt 1) false 1e-6%R 0%R true false (fun _ => 0%R)
              1%Z eq_refl eq_refl ltac:(lia) Hv) as (m & g1 & E & _).
  exists m, g1. split; [exact E|].
  apply (@block_size_mismatch_raises 2 1 1 (PyInt 1) false 1e-6%R 0%R true false
           (fun _ => 0%R) g1 m 1 1 _ _ _ E); [lia | reflexivity | reflexivity].
Defined.

(** ** [FinalLayer] on any parameters *)

(** A final layer over hidden size [H] with [P] output features, whatever
    its parameters are. *)
Lemma final_forward_ok
    (m : FinalLayer.t) (H P B T : nat) (x c : tensor R) :
  final_sized m H P ->
  shape x = [B; T; H] -> shape c = [B; H] ->
  exists y, FinalLayer.forward m x c = Ok y /\
            shape y = [B; T; P] /\ wf y.
Proof.
  intros (Hn & Hli & Hlo & Hai & Hao) Hx Hc.
  unfold FinalLayer.forward.
  rewrite (@linear_forward_ok _ (SiLU c) [B]) by (cbn [SiLU tmap shape]; now rewrite Hc, Hai).
  cbn [bind app]. rewrite Hao.
  rewrite (@chunk1_mul _ B 2 H) by (reflexivity || lia).
  cbn [bind List.repeat offsets map].
  rewrite (@layernorm_forward_ok _ x [B; T]) by now rewrite Hx, Hn.
  cbn [bind].
  match goal with
  | |- context [modulate ?n ?sh ?sc] =>
      destruct (@modulate_ok n sh sc B T H) as (y & -> & Hy & _);
        [rewrite shape_tabulate; exact Hx | reflexivity | reflexivity |]
  end.
  cbn [bind].
  rewrite (@linear_forward_ok _ y [B; T]) by now rewrite Hy, Hli.
  rewrite <- Hlo. eexists. split; [reflexivity|]. split; [reflexivity|].
  apply wf_tabulate.
Qed.

(** X11.  A constructed final layer maps [x] of shape [[B, T, H]] and a
    conditioning of shape [[B, H]] to a tensor of shape
    [[B, T, patch_size * patch_size * out_channels]], an empty batch
    included, whatever its parameters are. *)
Theorem final_forward_shape
    (H patch_size out_channels : nat) (g : gen) (B T : nat) (x c : tensor R) :
  shape x = [B; T; H] -> shape c = [B; H] ->
  exists y, FinalLayer.forward (fst (FinalLayer.init H patch_size out_channels g)) x c = Ok y /\
            shape y = [B; T; patch_size * patch_size * out_channels] /\ wf y.
Proof.
  intros Hx Hc.
  pose proof (final_init_sized H patch_size out_channels g) as Hs.
  destruct (@final_forward_ok _ H _ B T x c Hs Hx Hc) as (y & Hf & Hy & Hw).
  exists y. auto.
Qed.

Lemma final_forward_shape_witness :
  exists y,
    FinalLayer.forward (fst (FinalLayer.init 2 1 3 (fun _ => 1%R)))
      (Tensor [0; 2; 2] []) (Tensor [0; 2] []) = Ok y /\
    shape y = [0; 2; 3] /\ wf y.
Proof.
  exact (@final_forward_shape 2 1 3 (fun _ => 1%R) 0 2
           (Tensor [0; 2; 2] []) (Tensor [0; 2] []) eq_refl eq_refl).
Defined.

(** ** A conditioning of another batch size *)

Lemma broadcast_batch_mismatch (B Bc T H : nat) :
  Bc <> B -> Bc <> 1 -> B <> 1 ->
  broadcast_shapes [B; T; H] [Bc; 1; H] = None.
Proof.
  intros H1 H2 H3. unfold broadcast_shapes. cbn [rev app broadcast_rev].
  apply Nat.eqb_neq in H2, H3.
  assert (E : (B =? Bc) = false) by (apply Nat.eqb_neq; congruence).
  rewrite E, H2, H3. reflexivity.
Qed.

Lemma modulate_batch_mismatch (x shift scale : tensor R) (B Bc T H : nat) :
  Bc <> B -> Bc <> 1 -> B <> 1 ->
  shape x = [B; T; H] -> shape scale = [Bc; H] ->
  modulate x shift scale = Raise RuntimeError.
Proof.
  intros H1 H2 H3 Hx Hsc. unfold modulate, unsqueeze1. rewrite Hsc. cbn [bind].
  unfold tmul, map2b. cbn [shape tmap]. rewrite Hx.
  now rewrite broadcast_batch_mismatch.
Qed.

(** X12.  The block and the final layer refuse a conditioning whose batch size
    differs from that of the input, neither of the two being 1: modulation
    cannot broadcast the two, and both raise [RuntimeError]. *)
Theorem conditioning_batch_mismatch_raises
    (H B Bc T : nat) (x c : tensor R) :
  Bc <> B -> Bc <> 1 -> B <> 1 ->
  shape x = [B; T; H] -> shape c = [Bc; H] ->
  (forall (m : DiffusionTransformer.t) (g : gen),
     block_sized m H -> DiffusionTransformer.forward m x c g = Raise RuntimeError) /\
  (forall (m : FinalLayer.t) (P : nat),
     final_sized m H P -> FinalLayer.forward m x c = Raise RuntimeError).
Proof.
  intros H1 H2 H3 Hx Hc. split.
  - intros m g (Hn1 & Hn2 & Hatt & Hper & Hai & Hao).
    unfold DiffusionTransformer.forward.
    rewrite (@linear_forward_ok _ (SiLU c) [Bc])
      by (cbn [SiLU tmap shape]; now rewrite Hc, Hai).
    cbn [bind app]. rewrite Hao.
    rewrite (@chunk1_mul _ Bc 6 H) by (reflexivity || lia).
    cbn [bind List.repeat offsets map].
    rewrite (@layernorm_forward_ok _ x [B; T]) by now rewrite Hx, Hn1.
    cbn [bind].
    rewrite (@modulate_batch_mismatch _ _ _ B Bc T H H1 H2 H3);
      [reflexivity | rewrite shape_tabulate; exact Hx | reflexivity].
  - intros m P (Hn & Hli & Hlo & Hai & Hao).
    unfold FinalLayer.forward.
    rewrite (@linear_forward_ok _ (SiLU c) [Bc])
      by (cbn [SiLU tmap shape]; now rewrite Hc, Hai).
    cbn [bind app]. rewrite Hao.
    rewrite (@chunk1_mul _ Bc 2 H) by (reflexivity || lia).
    cbn [bind List.repeat offsets map].
    rewrite (@layernorm_forward_ok _ x [B; T]) by now rewrite Hx, Hn.
    cbn [bind].
    rewrite (@modulate_batch_mismatch _ _ _ B Bc T H H1 H2 H3);
      [reflexivity | rewrite shape_tabulate; exact Hx | reflexivity].
Qed.

Lemma conditioning_batch_mismatch_raises_witness :
  FinalLayer.forward (fst (FinalLayer.init 1 1 1 (fun _ => 0%R)))
    (Tensor [2; 1; 1] [1; 2]%R) (Tensor [3; 1] [1; 2; 3]%R)
  = Raise RuntimeError.
Proof.
  refine (proj2 (@conditioning_batch_mismatch_raises 1 2 3 1
                   (Tensor [2; 1; 1] [1; 2]%R) (Tensor [3; 1] [1; 2; 3]%R)
                   _ _ _ eq_refl eq_refl)
                (fst (FinalLayer.init 1 1 1 (fun _ => 0%R))) 1 _); try lia.
  exact (final_init_sized 1 1 1 (fun _ => 0%R)).
Defined.

(** ** [Attention]: what it refuses *)

(** X13.  On an empty batch the attention raises, whatever its parameters are:
    [view(0, -1, heads, d)] has no size to infer for the axis written
    [-1]. *)
Theorem attention_empty_batch
    (m : Attention.t) (H T : nat) (q k v : tensor R) (mask : option (tensor bool)) :
  attention_sized m H ->
  shape q = [0; T; H] -> shape v = [0; T; H] ->
  Attention.forward m q k v mask = Raise RuntimeError.
Proof.
  intros (HND & Hi & Ho) Hq Hv.
  unfold Attention.forward. rewrite Hv. cbn [bind].
  unfold Attention.split_heads at 1.
  rewrite (@linear_forward_ok _ q [0; T]) by now rewrite Hq, Hi.
  cbn [bind]. now rewrite view_infer_empty.
Qed.

Lemma attention_empty_batch_witness :
  Attention.forward two_heads (Tensor [0; 3; 2] []) (Tensor [0; 3; 2] [])
    (Tensor [0; 3; 2] []) None
  = Raise RuntimeError.
Proof.
  apply (@attention_empty_batch two_heads 2 3); [|reflexivity|reflexivity].
  repeat split.
Defined.

Section Attention_mask_count.

Variable m : Attention.t.
Variables B T : nat.

Let N := Attention.num_heads m.
Let D := Attention.div_dimension m.

Hypothesis Hpos : B * (N * D) <> 0.

Lemma attend_mask_count (q k v : tensor R) (mask : tensor bool) (a b c : nat) :
  shape q = [B; T; N; D] -> shape k = [B; T; N; D] -> shape v = [B; T; N; D] ->
  shape mask = [a; b; c] ->
  (a * b * c = B * T * T ->
   is_ok (Attention.attend m B q k v (Some mask)) = true) /\
  (a * b * c <> B * T * T ->
   Attention.attend m B q k v (Some mask) = Raise RuntimeError).
Proof.
  intros Hq Hk Hv Hm. unfold Attention.attend.
  destruct (@merge_heads_ok m B T Hpos q Hq) as (q' & -> & Hq' & _).
  destruct (@merge_heads_ok m B T Hpos k Hk) as (k' & -> & Hk' & _).
  destruct (@merge_heads_ok m B T Hpos v Hv) as (v' & -> & Hv' & _).
  cbn [bind].
  unfold transpose12, permute. rewrite Hk'.
  cbn [length is_perm Nat.eqb andb forallb seq existsb orb map nth bind app].
  unfold bmm, bmm_gen. rewrite Hq'. cbn [shape tabulate].
  rewrite !Nat.eqb_refl. cbn [andb bind].
  unfold unsqueeze1. rewrite Hm. cbn [bind].
  unfold repeat_tensor. cbn [shape length Nat.ltb Nat.leb Nat.sub List.repeat app combine map].
  cbn [bind]. fold N.
  cbn [map tmap shape tabulate].
  assert (HN : N <> 0) by (intros E; apply Hpos; rewrite E; lia).
  assert (Hview : forall t : tensor bool,
             shape t = [1 * a; N * 1; 1 * b; 1 * c] ->
             view [Some (B * N); Some T; Some T] t
             = if a * b * c =? B * T * T
               then Ok (Tensor [B * N; T; T] (data t)) else Raise RuntimeError).
  { intros t Ht. unfold view. cbn [inferred filter map length]. rewrite Ht.
    cbn [numel known fold_right].
    destruct (Nat.eqb_spec (a * b * c) (B * T * T)) as [E|E].
    - replace (1 * a * (N * 1 * (1 * b * (1 * c * 1)))) with (B * N * (T * (T * 1))) by nia.
      now rewrite Nat.eqb_refl.
    - assert (E' : 1 * a * (N * 1 * (1 * b * (1 * c * 1))) <> B * N * (T * (T * 1))) by nia.
      apply Nat.eqb_neq in E'. now rewrite E'. }
  rewrite !Hview by reflexivity. clear Hview.
  destruct (Nat.eqb_spec (a * b * c) (B * T * T)) as [E|E].
  - split; [intros _ | intros Hne; contradiction].
    cbn [bind].
    unfold masked_fill. cbn [shape]. rewrite broadcast_shapes_same, list_eqb_refl.
    cbn [bind].
    unfold bmm_val, bmm_gen. cbn [shape softmax tmap tabulate]. rewrite Hv'.
    rewrite !Nat.eqb_refl. cbn [andb bind].
    rewrite (@view_infer_ok _ _ _ T);
      [ | reflexivity | cbn [known fold_right]; fold N D; nia
        | cbn [shape tabulate known numel fold_right]; fold N D; ring ].
    cbn [bind map]. unfold permute. cbn [shape].
    cbn [length is_perm Nat.eqb andb forallb seq existsb orb map nth bind app].
    unfold contiguous.
    rewrite (@view_infer_ok _ _ _ T);
      [ | reflexivity | cbn [known fold_right]; fold N D; nia
        | cbn [shape tabulate known numel fold_right]; fold N D; ring ].
    reflexivity.
  - split; [intros He; contradiction | intros _; reflexivity].
Qed.

End Attention_mask_count.

(** X14.  A mask is checked by its number of elements only.  For inputs of
    shape [[B, T, H]] a three-dimensional mask is accepted when it has
    [B * T * T] elements, of whatever shape, and the attention raises
    [RuntimeError] when it has any other number. *)
Theorem attention_mask_element_count
    (m : Attention.t) (H B T : nat) (q k v : tensor R) (mask : tensor bool) (a b c : nat) :
  attention_sized m H -> 0 < B -> 0 < H ->
  shape q = [B; T; H] -> shape k = [B; T; H] -> shape v = [B; T; H] ->
  shape mask = [a; b; c] ->
  (a * b * c = B * T * T ->
   is_ok (Attention.forward m q k v (Some mask)) = true) /\
  (a * b * c <> B * T * T ->
   Attention.forward m q k v (Some mask) = Raise RuntimeError).
Proof.
  intros (HND & Hi & Ho) HB HH Hq Hk Hv Hm.
  assert (Hpos : B * (Attention.num_heads m * Attention.div_dimension m) <> 0) by nia.
  unfold Attention.forward. rewrite Hv. cbn [bind].
  rewrite <- Hi in Hq, Hk, Hv. rewrite <- HND in Ho.
  destruct (@split_heads_ok m B T Hpos _ q Ho Hq) as (q1 & -> & Hq1 & _).
  destruct (@split_heads_ok m B T Hpos _ k Ho Hk) as (k1 & -> & Hk1 & _).
  destruct (@split_heads_ok m B T Hpos _ v Ho Hv) as (v1 & -> & Hv1 & _).
  cbn [bind].
  exact (@attend_mask_count m B T Hpos q1 k1 v1 mask a b c Hq1 Hk1 Hv1 Hm).
Qed.

Lemma attention_mask_element_count_witness :
  is_ok (Attention.forward two_heads two_by_two two_by_two two_by_two
           (Some (Tensor [1; 8; 1]
                    [false; false; false; false; true; false; false; false]))) = true /\
  Attention.forward two_heads two_by_two two_by_two two_by_two
    (Some (Tensor [2; 2; 1] [false; false; true; false]))
  = Raise RuntimeError.
Proof.
  split.
  - refine (proj1 (@attention_mask_element_count two_heads 2 2 2
                     two_by_two two_by_two two_by_two
                     (Tensor [1; 8; 1] [false; false; false; false; true; false; false; false])
                     1 8 1 _ _ _ eq_refl eq_refl eq_refl eq_refl) eq_refl);
      [repeat split | lia | lia].
  - refine (proj2 (@attention_mask_element_count two_heads 2 2 2
                     two_by_two two_by_two two_by_two
                     (Tensor [2; 2; 1] [false; false; true; false])
                     2 2 1 _ _ _ eq_refl eq_refl eq_refl eq_refl) _);
      [repeat split | lia | lia | cbn; lia].
Defined.

(** ** [Attention]: what the scores and the context hold *)

Section Attention_entries.

Variable m : Attention.t.
Variables B T : nat.

Let N := Attention.num_heads m.
Let D := Attention.div_dimension m.

Hypothesis Hpos : B * (N * D) <> 0.

Lemma attend_nomask_entries (q k v : tensor R) :
  shape q = [B; T; N; D] -> shape k = [B; T; N; D] -> shape v = [B; T; N; D] ->
  exists sc ctx,
    Attention.attend m B q k v None = Ok (ctx, softmax sc) /\
    shape sc = [B * N; T; T] /\
    (forall b h i j, b < B -> h < N -> i < T -> j < T ->
       get NegInf sc [h * B + b; i; j]
       = Sc (Rsum (map (fun d => get 0 q [b; i; h; d] * get 0 k [b; j; h; d])%R (seq 0 D))
             / sqrt (INR D))) /\
    (forall b h i d, b < B -> h < N -> i < T -> d < D ->
       get NaN ctx [b; i; h * D + d]
       = vsum (map (fun j => vmul (get NaN (softmax sc) [h * B + b; i; j])
                                  (Re (get 0%R v [b; j; h; d]))) (seq 0 T))).
Proof.
  intros Hq Hk Hv. unfold Attention.attend.
  destruct (@merge_heads_ok m B T Hpos q Hq) as (q' & Eq & Hq' & Hwq' & _).
  destruct (@merge_heads_ok m B T Hpos k Hk) as (k' & Ek & Hk' & Hwk' & _).
  destruct (@merge_heads_ok m B T Hpos v Hv) as (v' & Ev & Hv' & Hwv' & _).
  rewrite Eq, Ek, Ev.
  cbn [bind].
  unfold transpose12, permute. rewrite Hk'.
  cbn [length is_perm Nat.eqb andb forallb seq existsb orb map nth bind app].
  unfold bmm, bmm_gen. rewrite Hq'. cbn [shape tabulate].
  rewrite !Nat.eqb_refl. cbn [andb bind].
  unfold bmm_val, bmm_gen. cbn [shape softmax tmap tabulate]. rewrite Hv'.
  rewrite !Nat.eqb_refl. cbn [andb bind].
  rewrite (@view_infer_ok _ _ _ T);
    [ | reflexivity | cbn [known fold_right]; fold N D; nia
      | cbn [shape tabulate known numel fold_right]; fold N D; ring ].
  cbn [bind map]. unfold permute. cbn [shape].
  cbn [length is_perm Nat.eqb andb forallb seq existsb orb map nth bind app].
  unfold contiguous.
  rewrite (@view_infer_ok _ _ _ T);
    [ | reflexivity | cbn [known fold_right]; fold N D; nia
      | cbn [shape tabulate known numel fold_right]; fold N D; ring ].
  cbn [bind map].
  match goal with
  | |- context [softmax ?t] => set (sc := t)
  end.
  assert (HrN : forall b h, b < B -> h < N -> h * B + b < B * N) by (intros; nia).
  exists sc. eexists. split; [reflexivity|]. split; [reflexivity|]. split.
  - intros b h i j Hb Hh Hi Hj. unfold sc.
    rewrite (@get_tmap_in _ _ 0%R NegInf);
      [ | apply wf_tabulate
        | rewrite shape_tabulate; repeat constructor; auto ].
    rewrite get_tabulate by (repeat constructor; auto).
    fold D. do 2 f_equal. apply (f_equal Rsum). apply map_ext_in. intros d Hd. apply in_seq in Hd.
    rewrite get_tabulate by (repeat constructor; fold N D; auto; lia).
    cbn [index_of Nat.eqb nth].
    rewrite (@merge_heads_entry m B T q q' b i h d Hpos Hq Eq) by (auto; lia).
    rewrite (@merge_heads_entry m B T k k' b j h d Hpos Hk Ek) by (auto; lia).
    reflexivity.
  - intros b h i d Hb Hh Hi Hd.
    match goal with
    | |- get NaN (Tensor _ (data ?t)) _ = _ =>
        transitivity (get NaN t [b; i; h; d])
    end.
    { unfold get. f_equal. cbn [ravel shape tabulate numel fold_right].
      fold N D. ring. }
    rewrite get_tabulate by (repeat constructor; assumption).
    cbn [index_of Nat.eqb nth].
    match goal with
    | |- get NaN (Tensor _ (data ?t)) _ = _ =>
        transitivity (get NaN t [h * B + b; i; d])
    end.
    { unfold get. f_equal. cbn [ravel shape tabulate numel fold_right].
      fold N D. ring. }
    rewrite get_tabulate by (repeat constructor; fold N D; auto).
    apply (f_equal vsum). apply map_ext_in. intros j Hj. apply in_seq in Hj.
    f_equal.
    rewrite (@get_tmap_in _ _ 0%R NaN);
      [ | exact Hwv' | rewrite Hv'; repeat constructor; fold N D; auto; lia ].
    f_equal.
    apply (@merge_heads_entry m B T v v' b j h d Hpos Hv Ev); auto; lia.
Qed.

End Attention_entries.

Lemma softmax_row_scores (f : nat -> R) (n j : nat) :
  j < n ->
  nth j (softmax_row (map (fun l => Sc (f l)) (seq 0 n))) NaN
  = Re (exp (f j) / Rsum (map (fun l => exp (f l)) (seq 0 n))).
Proof.
  intros Hj. unfold softmax_row.
  assert (E : forallb is_neginf (map (fun l => Sc (f l)) (seq 0 n)) = false).
  { destruct n as [|n]; [lia | reflexivity]. }
  rewrite E, !map_map. cbn [sexp].
  set (z := Rsum _).
  rewrite (nth_indep _ NaN (Re (exp (f 0) / z))) by now rewrite length_map, length_seq.
  rewrite (map_nth (fun l => Re (exp (f l) / z))), seq_nth by exact Hj.
  reflexivity.
Qed.

Lemma split_heads_entry (m : Attention.t) (proj : Linear.t) (B T : nat)
    (x y : tensor R) (b t h d : nat) :
  B * (Attention.num_heads m * Attention.div_dimension m) <> 0 ->
  Linear.out_features proj = Attention.num_heads m * Attention.div_dimension m ->
  shape x = [B; T; Linear.in_features proj] ->
  Attention.split_heads m proj B x = Ok y ->
  b < B -> t < T -> h < Attention.num_heads m -> d < Attention.div_dimension m ->
  get 0%R y [b; t; h; d] = Linear.entry proj x [b; t; h * Attention.div_dimension m + d].
Proof.
  intros Hpos Ho Hx Hy Hb Ht Hh Hd. unfold Attention.split_heads in Hy.
  rewrite (@linear_forward_ok proj x [B; T] Hx) in Hy. cbn [bind app] in Hy.
  rewrite (@view_infer_ok _ _ _ T) in Hy;
    [ | reflexivity | cbn [known fold_right]; nia
      | cbn [shape tabulate known numel fold_right]; rewrite Ho; ring ].
  injection Hy as <-. cbn [map].
  set (N := Attention.num_heads m) in *. set (D := Attention.div_dimension m) in *.
  transitivity (get 0%R (tabulate [B; T; Linear.out_features proj] (Linear.entry proj x))
                    [b; t; h * D + d]).
  - unfold get. f_equal. cbn [ravel shape tabulate numel fold_right]. rewrite Ho. ring.
  - rewrite get_tabulate; [reflexivity|]. rewrite Ho. repeat constructor; auto. nia.
Qed.

(** X15.  What the attention computes.  Without a mask, on inputs of shape
    [[B, T, H]]: row [h * B + b] of the weights holds head [h] of sample
    [b], the softmax over the keys of the scaled dot products of the
    projected tokens; the context of a token, on the features of head [h],
    is the sum of the projected values weighted by that row. *)
Theorem attention_is_scaled_dot_product
    (m : Attention.t) (H B T : nat) (q k v : tensor R) :
  attention_sized m H -> 0 < B -> 0 < H ->
  shape q = [B; T; H] -> shape k = [B; T; H] -> shape v = [B; T; H] ->
  exists ctx w,
    Attention.forward m q k v None = Ok (ctx, w) /\
    (forall b h i j, b < B -> h < Attention.num_heads m -> i < T -> j < T ->
       get NaN w [h * B + b; i; j]
       = Re (exp (dot_score m q k b h i j)
             / Rsum (map (fun l => exp (dot_score m q k b h i l)) (seq 0 T)))) /\
    (forall b h i d, b < B -> h < Attention.num_heads m -> i < T ->
       d < Attention.div_dimension m ->
       get NaN ctx [b; i; h * Attention.div_dimension m + d]
       = vsum (map (fun j => vmul (get NaN w [h * B + b; i; j])
                                  (Re (head_feature m v b j h d))) (seq 0 T))).
Proof.
  intros (HND & Hi & Ho) HB HH Hq Hk Hv.
  assert (Hpos : B * (Attention.num_heads m * Attention.div_dimension m) <> 0) by nia.
  unfold Attention.forward. rewrite Hv. cbn [bind].
  rewrite <- Hi in Hq, Hk, Hv. rewrite <- HND in Ho.
  destruct (@split_heads_ok m B T Hpos _ q Ho Hq) as (q1 & Eq & Hq1 & _).
  destruct (@split_heads_ok m B T Hpos _ k Ho Hk) as (k1 & Ek & Hk1 & _).
  destruct (@split_heads_ok m B T Hpos _ v Ho Hv) as (v1 & Ev & Hv1 & _).
  rewrite Eq, Ek, Ev. cbn [bind].
  destruct (@attend_nomask_entries m B T Hpos q1 k1 v1 Hq1 Hk1 Hv1)
    as (sc & ctx & -> & Hshape & Hsc & Hctx).
  assert (Hscore : forall b h i j, b < B -> h < Attention.num_heads m -> i < T -> j < T ->
            get NegInf sc [h * B + b; i; j] = Sc (dot_score m q k b h i j)).
  { intros b h i j Hb Hh Hi' Hj. rewrite (Hsc b h i j Hb Hh Hi' Hj).
    unfold dot_score, head_feature. do 3 f_equal.
    apply map_ext_in. intros d Hd. apply in_seq in Hd.
    rewrite (@split_heads_entry m _ B T q q1 b i h d Hpos Ho Hq Eq) by (auto; lia).
    rewrite (@split_heads_entry m _ B T k k1 b j h d Hpos Ho Hk Ek) by (auto; lia).
    reflexivity. }
  exists ctx, (softmax sc). split; [reflexivity|]. split.
  - intros b h i j Hb Hh Hi' Hj.
    unfold softmax. rewrite Hshape.
    rewrite get_tabulate by (repeat constructor; auto; nia).
    cbn [last removelast app].
    rewrite <- (@softmax_row_scores (fun l => dot_score m q k b h i l) T j Hj).
    f_equal. f_equal. apply map_ext_in. intros l Hl. apply in_seq in Hl.
    apply Hscore; auto; lia.
  - intros b h i d Hb Hh Hi' Hd. rewrite (Hctx b h i d Hb Hh Hi' Hd).
    apply (f_equal vsum). apply map_ext_in. intros j Hj. apply in_seq in Hj.
    unfold head_feature.
    rewrite (@split_heads_entry m _ B T v v1 b j h d Hpos Ho Hv Ev) by (auto; lia).
    reflexivity.
Qed.

Lemma attention_is_scaled_dot_product_witness :
  exists ctx w,
    Attention.forward two_heads two_by_two two_by_two two_by_two None = Ok (ctx, w) /\
    get NaN w [1 * 2 + 0; 1; 0]
    = Re (exp (dot_score two_heads two_by_two two_by_two 0 1 1 0)
          / Rsum (map (fun l => exp (dot_score two_heads two_by_two two_by_two 0 1 1 l))
                      (seq 0 2))) /\
    get NaN ctx [0; 1; 1 * 1 + 0]
    = vsum (map (fun j => vmul (get NaN w [1 * 2 + 0; 1; j])
                               (Re (head_feature two_heads two_by_two 0 j 1 0))) (seq 0 2)).
Proof.
  destruct (@attention_is_scaled_dot_product two_heads 2 2 2 two_by_two two_by_two two_by_two)
    as (ctx & w & Hf & Hw & Hc);
    [repeat split | lia | lia | reflexivity | reflexivity | reflexivity |].
  exists ctx, w. split; [exact Hf|]. split.
  - apply (Hw 0 1 1 0); cbn; lia.
  - apply (Hc 0 1 1 0); cbn; lia.
Defined.

(** ** The modules together *)

Lemma timestep_init_sized (H F : nat) (bias : bool) (g : gen) :
  timestep_sized (fst (TimestepEmbedder.init H F bias g)) H F.
Proof.
  unfold TimestepEmbedder.init.
  pose proof (linear_init_fields F H bias g) as [Hi0 Ho0].
  destruct (Linear.init F H bias g) as [l0 g1].
  pose proof (linear_init_fields H H bias g1) as [Hi2 Ho2].
  destruct (Linear.init H H bias g1) as [l2 g2].
  cbn [fst] in *. unfold timestep_sized. cbn. repeat split; congruence.
Qed.

Lemma timestep_forward_sized (m : TimestepEmbedder.t) (H F B : nat) (x : tensor R) :
  timestep_sized m H F -> 2 <= F -> shape x = [B] ->
  exists y, TimestepEmbedder.forward m x = Ok y /\ shape y = [B; H] /\ wf y.
Proof.
  intros (HF & Hi0 & Hi2 & Ho2) H2 Hx. unfold TimestepEmbedder.forward. rewrite HF.
  destruct (@time_stepper_shape B F x Hx) as (e & -> & Hs & _).
  destruct (Nat.eqb_spec F 1); [lia|]. cbn [bind].
  rewrite (@linear_forward_ok _ e [B]) by (rewrite Hs, Hi0; reflexivity).
  cbn [bind].
  rewrite (@linear_forward_ok _ _ [B]) by (cbn; rewrite Hi2; reflexivity).
  rewrite Ho2. eexists. split; [reflexivity|]. split; [reflexivity | apply wf_tabulate].
Qed.

Lemma label_init_sized (num_classes H : nat) (p : R) (g : gen) :
  label_sized (fst (LabelEmbedder.init num_classes H p g)) H.
Proof. split; reflexivity. Qed.

Lemma token_dropper_bound (m : LabelEmbedder.t) (labels : tensor Z) (g : gen) (B : nat) :
  shape labels = [B] ->
  Forall (fun l => 0 <= l < Z.of_nat (LabelEmbedder.num_classes m))%Z (data labels) ->
  exists labels' g',
    LabelEmbedder.token_dropper m labels g = Ok (labels', g') /\
    shape labels' = [B] /\
    Forall (fun i => 0 <= i <= Z.of_nat (LabelEmbedder.num_classes m))%Z (data labels').
Proof.
  intros Hs Hl. unfold LabelEmbedder.token_dropper, draw, map2b. rewrite Hs.
  cbn [shape]. rewrite broadcast_shapes_same. cbn [bind].
  eexists _, _. split; [reflexivity|]. split; [reflexivity|].
  apply Forall_tabulate. intros idx _.
  destruct (get false _ _).
  - split; lia.
  - apply get_Forall
      with (P := fun i => (0 <= i <= Z.of_nat (LabelEmbedder.num_classes m))%Z).
    + lia.
    + eapply Forall_impl; [|exact Hl]. cbv beta. intros; lia.
Qed.

Lemma label_forward_sized (m : LabelEmbedder.t) (H B : nat) (labels : tensor Z) (g : gen) :
  label_sized m H -> shape labels = [B] ->
  Forall (fun l => 0 <= l < Z.of_nat (LabelEmbedder.num_classes m))%Z (data labels) ->
  exists e g', LabelEmbedder.forward m labels g = Ok (e, g') /\
               shape e = [B; H] /\ wf e.
Proof.
  intros [Hdim Hrows] Hs Hl. unfold LabelEmbedder.forward, LabelEmbedder.looked_up.
  destruct (Rltb 0 (LabelEmbedder.dropout_prob m)).
  - destruct (@token_dropper_bound m labels g B Hs Hl) as (looked & g' & -> & Hsl & Hr).
    cbn [bind].
    destruct (@embedding_forward_entries (LabelEmbedder.embedding_table m) looked B Hsl)
      as (e & -> & Hse & Hwe & _).
    { rewrite Hrows. eapply Forall_impl; [|exact Hr]. cbv beta. intros; lia. }
    exists e, g'. rewrite Hdim in Hse. auto.
  - cbn [bind].
    destruct (@embedding_forward_entries (LabelEmbedder.embedding_table m) labels B Hs)
      as (e & -> & Hse & Hwe & _).
    { rewrite Hrows, Nat.add_0_r. exact Hl. }
    exists e, g. rewrite Hdim in Hse. auto.
Qed.

(** X16.  The modules fit together as the script chains them.  For embedders,
    a block and a final layer of one hidden size [H] of at least 1, a
    frequency embedding size [F] of at least 2, a batch size [B] of at
    least 1 and labels from 0 to [num_classes - 1], whatever the parameters
    are: the sum of the timestep embedding and the label embedding is a
    conditioning of shape [[B, H]], the block maps [value] of shape
    [[B, T, H]] to the same shape, and the final layer maps the block's
    result to [[B, T, P]].  Under these conditions no step raises, for any
    generator. *)
Theorem script_forward_shapes
    (t_embedder : TimestepEmbedder.t) (l_embedder : LabelEmbedder.t)
    (DiT : DiffusionTransformer.t) (final : FinalLayer.t)
    (H F P B T : nat) (x : tensor R) (y : tensor Z) (value : tensor R) (g : gen) :
  timestep_sized t_embedder H F -> 2 <= F ->
  label_sized l_embedder H ->
  block_sized DiT H -> final_sized final H P ->
  0 < B -> 0 < H ->
  shape x = [B] -> shape y = [B] ->
  Forall (fun l => 0 <= l < Z.of_nat (LabelEmbedder.num_classes l_embedder))%Z (data y) ->
  shape value = [B; T; H] ->
  exists c result out g',
    script_forward t_embedder l_embedder DiT final x y value g = Ok (c, result, out, g') /\
    shape c = [B; H] /\ shape result = [B; T; H] /\ shape out = [B; T; P].
Proof.
  intros Ht HF Hl Hb Hf HB HH Hx Hy Hr Hv. unfold script_forward.
  destruct (@timestep_forward_sized t_embedder H F B x Ht HF Hx) as (t & -> & Hst & _).
  cbn [bind].
  destruct (@label_forward_sized l_embedder H B y g Hl Hy Hr) as (z & g1 & -> & Hsz & _).
  cbn [bind].
  destruct (@tadd_same_shape t z) as (c & -> & Hc); [now rewrite Hst, Hsz|].
  rewrite Hst in Hc. cbn [bind].
  destruct (@block_forward_ok DiT H B T value c g1 Hb HB HH Hv Hc)
    as (result & g2 & -> & Hres & _).
  cbn [bind].
  destruct (@final_forward_ok final H P B T result c Hf Hres Hc) as (out & -> & Hout & _).
  cbn [bind]. exists c, result, out, g2. auto.
Qed.

Lemma script_forward_shapes_witness :
  exists DiT g0 c result out g',
    DiffusionTransformer.init 1 1 1 (PyInt 1) false 1e-6%R 0%R true false (fun _ => 0%R)
      = Ok (DiT, g0) /\
    script_forward
      (fst (TimestepEmbedder.init 1 3 true (fun _ => 0%R)))
      (fst (LabelEmbedder.init 4 1 (1 / 10)%R (fun _ => 0%R)))
      (zero_block DiT)
      (zero_final (fst (FinalLayer.init 1 2 3 (fun _ => 0%R))))
      (Tensor [2] [1; 2]%R) (Tensor [2] [1; 3]%Z)
      (Tensor [2; 3; 1] [1; 2; 3; 4; 5; 6]%R) (fun _ => 0%R)
    = Ok (c, result, out, g') /\
    shape c = [2; 1] /\ shape result = [2; 3; 1] /\ shape out = [2; 3; 12].
Proof.
  destruct block_init_example as (DiT & g0 & E & _).
  destruct (@script_forward_shapes
              (fst (TimestepEmbedder.init 1 3 true (fun _ => 0%R)))
              (fst (LabelEmbedder.init 4 1 (1 / 10)%R (fun _ => 0%R)))
              (zero_block DiT)
              (zero_final (fst (FinalLayer.init 1 2 3 (fun _ => 0%R))))
              1 3 12 2 3
              (Tensor [2] [1; 2]%R) (Tensor [2] [1; 3]%Z)
              (Tensor [2; 3; 1] [1; 2; 3; 4; 5; 6]%R) (fun _ => 0%R))
    as (c & result & out & g' & Hf & Hc & Hres & Hout).
  - apply timestep_init_sized.
  - lia.
  - apply label_init_sized.
  - apply zero_block_sized. eapply block_init_sized. exact E.
  - apply zero_final_sized. exact (final_init_sized 1 2 3 (fun _ => 0%R)).
  - lia.
  - lia.
  - reflexivity.
  - reflexivity.
  - repeat (constructor; [cbn; lia|]). constructor.
  - reflexivity.
  - exists DiT, g0, c, result, out, g'. auto.
Defined.

(** * The float32 reading: properties *)

(** ** The arithmetic *)

Lemma finite_dec (v : f32) : {finite v} + {~ finite v}.
Proof. destruct v; [left; exact I | right | right | right]; intros []. Qed.

Lemma add_nan_r (rd : R -> f32) (a : f32) : F32.add rd a FNaN = FNaN.
Proof. destruct a; reflexivity. Qed.

Lemma mul_zero_r (rd : R -> f32) (v : f32) :
  rd 0%R = Fin 0 ->
  F32.mul rd v (Fin 0) = match v with Fin _ => Fin 0 | _ => FNaN end.
Proof.
  intros H0. destruct v as [x| | |]; cbn [F32.mul].
  - now rewrite Rmult_0_r.
  - now rewrite Reqb_refl.
  - now rewrite Reqb_refl.
  - reflexivity.
Qed.

Lemma mul_zero_l (rd : R -> f32) (v : f32) :
  rd 0%R = Fin 0 ->
  F32.mul rd (Fin 0) v = match v with Fin _ => Fin 0 | _ => FNaN end.
Proof.
  intros H0. destruct v as [x| | |]; cbn [F32.mul].
  - now rewrite Rmult_0_l.
  - now rewrite Reqb_refl.
  - now rewrite Reqb_refl.
  - reflexivity.
Qed.

Lemma add_zero_r (K : kernels) (v : f32) :
  representable K v -> F32.add (rnd K) v (Fin 0) = v.
Proof.
  destruct v as [x| | |]; cbn [F32.add representable]; try reflexivity.
  intros H. now rewrite Rplus_0_r.
Qed.

Lemma sum_zeros (rd : R -> f32) (l : list f32) :
  rd 0%R = Fin 0 -> Forall (eq (Fin 0)) l -> F32.sum rd l = Fin 0.
Proof.
  intros H0. induction 1 as [|v l E _ IH]; [reflexivity|]. subst v.
  cbn [F32.sum fold_right]. fold (F32.sum rd l). rewrite IH. cbn [F32.add].
  now rewrite Rplus_0_r.
Qed.

Lemma sum_nan (rd : R -> f32) (l : list f32) : In FNaN l -> F32.sum rd l = FNaN.
Proof.
  induction l as [|v l IH]; [intros []|].
  intros [E|Hin]; [subst v|]; cbn [F32.sum fold_right]; fold (F32.sum rd l).
  - reflexivity.
  - rewrite (IH Hin). apply add_nan_r.
Qed.

(** ** The reference kernels keep the laws *)

Lemma exp_unit_interval (x : R) : (x <= 0)%R -> (0 <= exp x <= 1)%R.
Proof.
  intros Hx. split; [left; apply exp_pos|].
  destruct Hx as [Hlt|E]; [|rewrite E, exp_0; lra].
  left. rewrite <- exp_0. now apply exp_increasing.
Qed.

Lemma exact_ieee : ieee exact_kernels.
Proof.
  constructor; try reflexivity.
  - intros x y Hxy. exact Hxy.
  - cbn. now rewrite exp_0.
  - intros x Hx. exists (exp x). split; [reflexivity | now apply exp_unit_interval].
Qed.

Lemma overflow_bound_large : (1 < overflow_bound)%R.
Proof. unfold overflow_bound. lra. Qed.

Lemma saturate_small (r : R) :
  (- overflow_bound < r < overflow_bound)%R -> saturate r = Fin r.
Proof.
  intros [H1 H2]. unfold saturate.
  destruct (Rle_dec overflow_bound r); [lra|].
  destruct (Rle_dec r (- overflow_bound)); [lra | reflexivity].
Qed.

Lemma saturate_large (r : R) : (overflow_bound <= r)%R -> saturate r = PInf.
Proof.
  intros H. unfold saturate. destruct (Rle_dec overflow_bound r); [reflexivity | contradiction].
Qed.

Lemma saturating_ieee : ieee saturating_kernels.
Proof.
  pose proof overflow_bound_large as Hb.
  constructor.
  - apply saturate_small. lra.
  - apply saturate_small. lra.
  - intros x y Hxy. cbn [rnd saturating_kernels reference]. unfold saturate.
    destruct (Rle_dec overflow_bound x), (Rle_dec overflow_bound y),
             (Rle_dec x (- overflow_bound)), (Rle_dec y (- overflow_bound));
      cbn [fle]; try exact I; lra.
  - reflexivity.
  - reflexivity.
  - cbn. rewrite exp_0. apply saturate_small. lra.
  - intros x Hx. exists (exp x). pose proof (exp_unit_interval Hx) as He.
    split; [|exact He]. cbn. apply saturate_small. lra.
Qed.


(** ** [nn.Linear] *)

Lemma f32_linear_forward_ok (K : kernels) (l : Linear.t) (x : tensor f32) (lead : list nat) :
  shape x = lead ++ [Linear.in_features l] ->
  F32.Linear_forward K l x
  = Ok (tabulate (lead ++ [Linear.out_features l]) (F32.Linear_entry K l x)).
Proof.
  intros Hs. unfold F32.Linear_forward.
  rewrite Hs, rev_unit, Nat.eqb_refl, rev_involutive. reflexivity.
Qed.

Lemma f32_linear_forward_mismatch (K : kernels) (l : Linear.t) (x : tensor f32)
    (lead : list nat) (k : nat) :
  shape x = lead ++ [k] -> k <> Linear.in_features l ->
  F32.Linear_forward K l x = Raise RuntimeError.
Proof.
  intros Hs Hk. unfold F32.Linear_forward. rewrite Hs, rev_unit.
  apply Nat.eqb_neq in Hk. now rewrite Hk.
Qed.

(** The products of a row with a zero weight. *)
Lemma zero_products (K : kernels) (l : Linear.t) (x : tensor f32) (pre : list nat) (j : nat) :
  rnd K 0 = Fin 0 -> all_zero (Linear.weight l) ->
  map (fun k => F32.mul (rnd K) (get FNaN x (pre ++ [k]))
                        (Fin (get 0%R (Linear.weight l) [j; k])))
      (seq 0 (Linear.in_features l))
  = map (fun k => match get FNaN x (pre ++ [k]) with Fin _ => Fin 0 | _ => FNaN end)
        (seq 0 (Linear.in_features l)).
Proof.
  intros H0 Hw. apply map_ext. intros k.
  rewrite (all_zero_get _ Hw). now apply mul_zero_r.
Qed.

(** A linear layer whose weight and bias are zero returns 0 on a row of
    finite values, and [nan] on a row that holds an infinity or [nan]. *)
Lemma zero_linear_entry (K : kernels) (l : Linear.t) (x : tensor f32) (idx : list nat) :
  rnd K 0 = Fin 0 -> zero_linear l ->
  ((forall k, k < Linear.in_features l -> finite (get FNaN x (removelast idx ++ [k]))) ->
   F32.Linear_entry K l x idx = Fin 0) /\
  ((exists k, k < Linear.in_features l /\ ~ finite (get FNaN x (removelast idx ++ [k]))) ->
   F32.Linear_entry K l x idx = FNaN).
Proof.
  intros H0 [Hw Hb]. unfold F32.Linear_entry.
  rewrite (@zero_products K l x (removelast idx) (last idx 0) H0 Hw).
  split.
  - intros Hfin.
    rewrite (@sum_zeros (rnd K)); [ | exact H0 | ].
    + destruct (Linear.bias l) as [b|]; [|reflexivity].
      rewrite (all_zero_get _ Hb). cbn [F32.add]. now rewrite Rplus_0_r.
    + apply Forall_forall. intros v Hv. apply in_map_iff in Hv as (k & <- & Hk).
      apply in_seq in Hk. specialize (Hfin k ltac:(lia)).
      destruct (get FNaN x (removelast idx ++ [k])); [reflexivity | | |]; destruct Hfin.
  - intros (k & Hk & Hnf).
    rewrite (@sum_nan (rnd K)).
    + destruct (Linear.bias l); reflexivity.
    + apply in_map_iff. exists k. split; [|apply in_seq; lia].
      destruct (get FNaN x (removelast idx ++ [k])); [destruct Hnf; exact I | | |]; reflexivity.
Qed.

(** ** [nn.LayerNorm], [chunk] and [modulate] *)

Lemma f32_layernorm_forward_ok (K : kernels) (l : LayerNorm.t) (x : tensor f32)
    (lead : list nat) :
  shape x = lead ++ [LayerNorm.normalized_shape l] ->
  F32.LayerNorm_forward K l x = Ok (tabulate (shape x) (F32.LayerNorm_entry K l x)).
Proof.
  intros Hs. unfold F32.LayerNorm_forward.
  rewrite Hs at 1. rewrite rev_unit, Nat.eqb_refl. reflexivity.
Qed.

Lemma chunk1_pieces {A} (d : A) (a : tensor A) (B n H : nat) :
  n <> 0 -> shape a = [B; n * H] ->
  chunk1 d n a
  = Ok (map (fun '(off, k) => tabulate [B; k] (piece d a off)) (offsets 0 (List.repeat H n))).
Proof.
  intros Hn Hs. unfold chunk1. rewrite Hs.
  destruct n as [|n']; [contradiction|].
  rewrite chunk_sizes_mul by exact Hn. reflexivity.
Qed.

Lemma f32_modulate_ok (K : kernels) (x shift scale : tensor f32) (B T H : nat) :
  shape x = [B; T; H] -> shape shift = [B; H] -> shape scale = [B; H] ->
  exists y, F32.modulate K x shift scale = Ok y /\ shape y = [B; T; H] /\ wf y.
Proof.
  intros Hx Hsh Hsc. unfold F32.modulate, unsqueeze1. rewrite Hsc, Hsh. cbn [bind].
  unfold F32.tmul, F32.tadd, map2b. cbn [shape tmap]. rewrite Hx, broadcast_token_l.
  cbn [bind shape tabulate]. rewrite broadcast_token_l.
  eexists. split; [reflexivity|]. split; [reflexivity | apply wf_tabulate].
Qed.

(** ** [FinalLayer] with a zero output projection *)

(** C7, as the code has it.  A final layer whose output projection has
    zero weight and bias returns a tensor of shape
    [[B, T, patch_size * patch_size * out_channels]]; the row of a token is
    0 throughout when the modulated token, the input of the projection,
    holds finite values only, and [nan] throughout when it holds an
    infinity or [nan].  This is so for every rounding that keeps 0 and for
    all kernels, whether the conditioning projection is zero or not. *)
Theorem final_layer_zero_where_finite
    (K : kernels) (m : FinalLayer.t) (H patch_size out_channels B T : nat)
    (x c : tensor f32) :
  rnd K 0 = Fin 0 ->
  final_sized m H (patch_size * patch_size * out_channels) ->
  zero_linear (FinalLayer.linear m) ->
  shape x = [B; T; H] -> shape c = [B; H] ->
  exists md y,
    F32.FinalLayer_modulated K m x c = Ok md /\ shape md = [B; T; H] /\
    F32.FinalLayer_forward K m x c = Ok y /\
    shape y = [B; T; patch_size * patch_size * out_channels] /\ wf y /\
    forall b t p, b < B -> t < T -> p < patch_size * patch_size * out_channels ->
      ((forall k, k < H -> finite (get FNaN md [b; t; k])) ->
       get FNaN y [b; t; p] = Fin 0) /\
      ((exists k, k < H /\ ~ finite (get FNaN md [b; t; k])) ->
       get FNaN y [b; t; p] = FNaN).
Proof.
  intros H0 (Hn & Hli & Hlo & Hai & Hao) Hzl Hx Hc.
  unfold F32.FinalLayer_forward, F32.FinalLayer_modulated.
  rewrite (@f32_linear_forward_ok K _ (F32.SiLU K c) [B])
    by (cbn [F32.SiLU tmap shape]; now rewrite Hc, Hai).
  cbn [bind app]. rewrite Hao.
  rewrite (@chunk1_pieces f32 FNaN _ B 2 H) by (reflexivity || lia).
  cbn [bind List.repeat offsets map].
  rewrite (@f32_layernorm_forward_ok K _ x [B; T]) by now rewrite Hx, Hn.
  cbn [bind].
  match goal with
  | |- context [F32.modulate K ?n ?sh ?sc] =>
      destruct (@f32_modulate_ok K n sh sc B T H) as (md & -> & Hmd & _);
        [rewrite shape_tabulate; exact Hx | reflexivity | reflexivity |]
  end.
  cbn [bind].
  rewrite (@f32_linear_forward_ok K _ md [B; T]) by now rewrite Hmd, Hli.
  rewrite Hlo. exists md. eexists.
  split; [reflexivity|]. split; [exact Hmd|]. split; [reflexivity|].
  split; [reflexivity|]. split; [apply wf_tabulate|].
  intros b t p Hb Ht Hp.
  rewrite get_tabulate by (repeat constructor; assumption).
  destruct (@zero_linear_entry K (FinalLayer.linear m) md [b; t; p] H0 Hzl) as [Hfin Hnan].
  rewrite Hli in Hfin, Hnan. cbn [removelast app] in Hfin, Hnan.
  split; assumption.
Qed.

(** ** [Attention]: shapes *)

Section F32_attention_shapes.

Variable K : kernels.
Variable m : Attention.t.
Variables B T : nat.

Let N := Attention.num_heads m.
Let D := Attention.div_dimension m.

Hypothesis Hpos : B * (N * D) <> 0.

Lemma f32_split_heads_ok (proj : Linear.t) (x : tensor f32) :
  Linear.out_features proj = N * D ->
  shape x = [B; T; Linear.in_features proj] ->
  exists y, F32.Attention_split_heads K m proj B x = Ok y /\
            shape y = [B; T; N; D] /\ wf y.
Proof.
  intros Ho Hx. unfold F32.Attention_split_heads.
  rewrite (@f32_linear_forward_ok K proj x [B; T] Hx). cbn [bind app].
  rewrite (@view_infer_ok _ _ _ T).
  - eexists. split; [reflexivity|]. split; [reflexivity|].
    unfold wf. cbn [data shape map tabulate]. rewrite length_map, length_seq.
    rewrite Ho. fold N D. cbn [numel fold_right app]. ring.
  - reflexivity.
  - cbn [known fold_right]. fold N D. nia.
  - cbn [shape tabulate known numel fold_right]. rewrite Ho. fold N D. ring.
Qed.

Lemma f32_merge_heads_ok (x : tensor f32) :
  shape x = [B; T; N; D] ->
  exists y, F32.Attention_merge_heads m B x = Ok y /\
            shape y = [B * N; T; D] /\ wf y.
Proof.
  intros Hx. unfold F32.Attention_merge_heads, permute, contiguous. rewrite Hx.
  cbn [length is_perm Nat.eqb andb forallb seq existsb orb map nth bind].
  rewrite (@view_infer_ok _ _ _ T).
  - eexists. split; [reflexivity|]. split; [reflexivity|].
    unfold wf. cbn [data shape map tabulate]. rewrite length_map, length_seq.
    fold N D. cbn [numel fold_right]. ring.
  - reflexivity.
  - cbn [known fold_right]. fold N D. nia.
  - cbn [shape tabulate known numel fold_right]. fold N D. ring.
Qed.

Hypothesis Hout : Linear.out_features (Attention.query_projection m) = N * D.

(** The scores without a mask. *)
Lemma f32_scores_ok (q k v : tensor f32) :
  shape q = [B; T; Linear.in_features (Attention.query_projection m)] ->
  shape k = [B; T; Linear.in_features (Attention.query_projection m)] ->
  shape v = [B; T; Linear.in_features (Attention.query_projection m)] ->
  exists sc v',
    F32.Attention_scores K m q k v None = Ok (sc, v', B) /\
    shape sc = [B * N; T; T] /\ wf sc /\
    shape v' = [B * N; T; D] /\ wf v'.
Proof.
  intros Hq Hk Hv. unfold F32.Attention_scores. rewrite Hv. cbn [bind].
  destruct (@f32_split_heads_ok _ q Hout Hq) as (q1 & -> & Hq1 & _).
  destruct (@f32_split_heads_ok _ k Hout Hk) as (k1 & -> & Hk1 & _).
  destruct (@f32_split_heads_ok _ v Hout Hv) as (v1 & -> & Hv1 & _).
  cbn [bind].
  destruct (@f32_merge_heads_ok q1 Hq1) as (q' & -> & Hq' & _).
  destruct (@f32_merge_heads_ok k1 Hk1) as (k' & -> & Hk' & _).
  destruct (@f32_merge_heads_ok v1 Hv1) as (v' & -> & Hv' & Hwv').
  cbn [bind].
  unfold transpose12, permute. rewrite Hk'.
  cbn [length is_perm Nat.eqb andb forallb seq existsb orb map nth bind app].
  unfold F32.bmm, bmm_gen. rewrite Hq'. cbn [shape tabulate].
  rewrite !Nat.eqb_refl. cbn [andb bind].
  eexists _, v'. split; [reflexivity|].
  split; [reflexivity|]. split; [|split; assumption].
  unfold wf. cbn [tmap data shape]. rewrite length_map. apply wf_tabulate.
Qed.

(** The scores with a mask: the laid mask writes [-inf] over the scores
    without a mask. *)
Lemma f32_scores_mask_ok (q k v : tensor f32) (mask : tensor bool) :
  shape q = [B; T; Linear.in_features (Attention.query_projection m)] ->
  shape k = [B; T; Linear.in_features (Attention.query_projection m)] ->
  shape v = [B; T; Linear.in_features (Attention.query_projection m)] ->
  shape mask = [B; T; T] ->
  exists raw sc v',
    F32.Attention_scores K m q k v None = Ok (raw, v', B) /\
    F32.Attention_scores K m q k v (Some mask) = Ok (sc, v', B) /\
    shape sc = [B * N; T; T] /\ wf sc /\
    shape v' = [B * N; T; D] /\ wf v' /\
    forall r i l, r < B * N -> i < T -> l < T ->
      get FNaN sc [r; i; l]
      = if get false (laid_mask m B T mask) [r; i; l] then NInf else get FNaN raw [r; i; l].
Proof.
  intros Hq Hk Hv Hm. unfold F32.Attention_scores. rewrite Hv. cbn [bind].
  destruct (@f32_split_heads_ok _ q Hout Hq) as (q1 & -> & Hq1 & _).
  destruct (@f32_split_heads_ok _ k Hout Hk) as (k1 & -> & Hk1 & _).
  destruct (@f32_split_heads_ok _ v Hout Hv) as (v1 & -> & Hv1 & _).
  cbn [bind].
  destruct (@f32_merge_heads_ok q1 Hq1) as (q' & -> & Hq' & _).
  destruct (@f32_merge_heads_ok k1 Hk1) as (k' & -> & Hk' & _).
  destruct (@f32_merge_heads_ok v1 Hv1) as (v' & -> & Hv' & Hwv').
  cbn [bind].
  unfold transpose12, permute. rewrite Hk'.
  cbn [length is_perm Nat.eqb andb forallb seq existsb orb map nth bind app].
  unfold F32.bmm, bmm_gen. rewrite Hq'. cbn [shape tabulate].
  rewrite !Nat.eqb_refl. cbn [andb bind].
  unfold unsqueeze1. rewrite Hm. cbn [bind].
  unfold repeat_tensor. cbn [shape length Nat.ltb Nat.leb Nat.sub List.repeat app combine map].
  cbn [bind]. fold N.
  unfold view at 1. cbn [inferred filter map length tmap shape tabulate].
  assert (E : numel [1 * B; N * 1; 1 * T; 1 * T]
              = known [Some (B * N); Some T; Some T]).
  { cbn [numel known fold_right]. ring. }
  rewrite E, Nat.eqb_refl. cbn [bind].
  unfold F32.masked_fill. cbn [shape]. rewrite broadcast_shapes_same, list_eqb_refl.
  cbn [bind].
  eexists _, _, v'. split; [reflexivity|]. split; [reflexivity|].
  split; [reflexivity|]. split; [apply wf_tabulate|]. split; [exact Hv'|].
  split; [exact Hwv'|].
  intros r i l Hr Hi Hl.
  assert (Hin : in_range [B * N; T; T] [r; i; l]) by (repeat constructor; assumption).
  rewrite get_tabulate by exact Hin. rewrite (bidx_same Hin). reflexivity.
Qed.

(** After the scores: the weights are their softmax. *)
Lemma f32_forward_after_scores (q k v : tensor f32) (mask : option (tensor bool))
    (sc v' : tensor f32) :
  F32.Attention_scores K m q k v mask = Ok (sc, v', B) ->
  shape sc = [B * N; T; T] -> shape v' = [B * N; T; D] ->
  exists ctx,
    F32.Attention_forward K m q k v mask = Ok (ctx, F32.softmax K sc) /\
    shape ctx = [B; T; N * D] /\ wf ctx.
Proof.
  intros Hs Hsc Hv'. unfold F32.Attention_forward. rewrite Hs. cbn [bind].
  unfold F32.bmm, bmm_gen. cbn [shape F32.softmax tabulate]. rewrite Hsc, Hv'.
  rewrite !Nat.eqb_refl. cbn [andb bind].
  rewrite (@view_infer_ok _ _ _ T);
    [ | reflexivity | cbn [known fold_right]; fold N D; nia
      | cbn [shape tabulate known numel fold_right]; fold N D; ring ].
  cbn [bind map]. unfold permute. cbn [shape].
  cbn [length is_perm Nat.eqb andb forallb seq existsb orb map nth bind app].
  unfold contiguous.
  rewrite (@view_infer_ok _ _ _ T);
    [ | reflexivity | cbn [known fold_right]; fold N D; nia
      | cbn [shape tabulate known numel fold_right]; fold N D; ring ].
  cbn [bind map].
  eexists. split; [reflexivity|]. split; [reflexivity|].
  unfold wf. cbn [data shape tabulate]. rewrite length_map, length_seq.
  cbn [numel fold_right]. fold N D. ring.
Qed.

End F32_attention_shapes.

(** ** The softmax of a row *)

Lemma max_nan_r (a : f32) : F32.max a FNaN = FNaN.
Proof. destruct a; reflexivity. Qed.

Lemma largest_nan (row : list f32) : In FNaN row -> fold_right F32.max NInf row = FNaN.
Proof.
  induction row as [|v row IH]; [intros []|].
  intros [E|Hin]; cbn [fold_right].
  - now subst v.
  - rewrite (IH Hin). apply max_nan_r.
Qed.

Lemma largest_pinf (row : list f32) :
  ~ In FNaN row -> In PInf row -> fold_right F32.max NInf row = PInf.
Proof.
  induction row as [|v row IH]; [intros _ []|].
  intros Hn Hin. cbn [fold_right].
  assert (Hn' : ~ In FNaN row) by (intros H; apply Hn; now right).
  assert (Hv : v <> FNaN) by (intros E; apply Hn; now left).
  destruct Hin as [E|Hin].
  - subst v. destruct (fold_right F32.max NInf row) eqn:E; try reflexivity.
    exfalso. clear IH Hn Hv.
    induction row as [|w row IH]; [discriminate|].
    cbn [fold_right] in E.
    destruct w; try (apply Hn'; now left);
      destruct (fold_right F32.max NInf row) eqn:E'; try discriminate;
      apply IH; try reflexivity; intros H; apply Hn'; now right.
  - rewrite (IH Hn' Hin). destruct v; try reflexivity. now destruct Hv.
Qed.

Lemma largest_ninf (row : list f32) :
  Forall (eq NInf) row -> fold_right F32.max NInf row = NInf.
Proof.
  induction 1 as [|v row E _ IH]; [reflexivity|].
  subst v. cbn [fold_right]. now rewrite IH.
Qed.

(** The largest score of a row without [nan] and [+inf] is [-inf] or a
    finite score of the row that bounds the others. *)
Lemma largest_finite (row : list f32) :
  ~ In FNaN row -> ~ In PInf row ->
  (fold_right F32.max NInf row = NInf /\ Forall (eq NInf) row) \/
  (exists mx, fold_right F32.max NInf row = Fin mx /\ In (Fin mx) row /\
              forall s, In (Fin s) row -> (s <= mx)%R).
Proof.
  induction row as [|v row IH]; intros Hn Hp.
  - left. split; [reflexivity | constructor].
  - assert (Hn' : ~ In FNaN row) by (intros H; apply Hn; now right).
    assert (Hp' : ~ In PInf row) by (intros H; apply Hp; now right).
    cbn [fold_right].
    destruct v as [x| | |]; [ | exfalso; apply Hp; now left | | exfalso; apply Hn; now left ].
    + right. destruct (IH Hn' Hp') as [[E Hall]|(mx & E & Hin & Hmax)]; rewrite E.
      * exists x. split; [reflexivity|]. split; [now left|].
        intros s [Es|Hs]; [injection Es as <-; lra|].
        pose proof (proj1 (Forall_forall _ _) Hall _ Hs). discriminate.
      * cbn [F32.max]. exists (Rmax x mx). split; [reflexivity|]. split.
        -- unfold Rmax. destruct (Rle_dec x mx); [now right | now left].
        -- intros s [Es|Hs].
           ++ injection Es as <-. apply Rmax_l.
           ++ pose proof (Hmax s Hs). pose proof (Rmax_r x mx). lra.
    + destruct (IH Hn' Hp') as [[E Hall]|(mx & E & Hin & Hmax)]; rewrite E.
      * left. split; [reflexivity | now constructor].
      * right. exists mx. split; [reflexivity|]. split; [now right|].
        intros s [Es|Hs]; [discriminate | now apply Hmax].
Qed.

Lemma in_nan_dec (row : list f32) : {In FNaN row} + {~ In FNaN row}.
Proof.
  induction row as [|v row [IH|IH]].
  - right. intros [].
  - left. now right.
  - destruct v; [right | right | right | left; now left];
      intros [E|H]; try discriminate; contradiction.
Qed.

(** A row that holds [nan] or [+inf], or [-inf] only, comes out of the
    softmax as [nan]. *)
Lemma softmax_row_unbounded (K : kernels) (row : list f32) (j : nat) :
  k_exp K FNaN = FNaN -> k_exp K NInf = Fin 0 ->
  In FNaN row \/ In PInf row \/ Forall (eq NInf) row ->
  j < length row ->
  nth j (F32.softmax_row K row) FNaN = FNaN.
Proof.
  intros Hen Hei Hrow Hj. unfold F32.softmax_row.
  set (largest := fold_right F32.max NInf row).
  set (f := fun s => k_exp K (F32.sub (rnd K) s largest)).
  set (z := F32.sum (rnd K) (map f row)).
  rewrite (nth_indep _ FNaN (F32.div (rnd K) (f FNaN) z))
    by now rewrite !length_map.
  rewrite (map_nth (fun e => F32.div (rnd K) e z)).
  rewrite (map_nth f).
  destruct (in_nan_dec row) as [Hnan|Hnan].
  - (* the largest is nan, and so is every exponential *)
    assert (E : largest = FNaN) by now apply largest_nan.
    unfold f. rewrite E. unfold F32.sub. cbn [F32.neg]. rewrite add_nan_r, Hen.
    reflexivity.
  - destruct Hrow as [H|[Hp|Hall]]; [contradiction| |].
    + (* the largest is +inf: its own exponential is nan, and so is the sum *)
      assert (E : largest = PInf) by now apply largest_pinf.
      assert (Hz : z = FNaN).
      { unfold z. apply sum_nan. apply in_map_iff. exists PInf. split; [|exact Hp].
        unfold f. rewrite E. cbn. exact Hen. }
      rewrite Hz. destruct (f (nth j row FNaN)); reflexivity.
    + assert (E : largest = NInf) by now apply largest_ninf.
      assert (Hs : nth j row FNaN = NInf).
      { symmetry. apply (proj1 (Forall_forall _ _) Hall). now apply nth_In. }
      unfold f. rewrite Hs, E. cbn. rewrite Hen. reflexivity.
Qed.

(** The exponentials of a row without [nan] and [+inf] that holds a finite
    score: reals in [[0, 1]], 1 for the largest score and 0 for [-inf]. *)
Lemma softmax_row_exps (K : kernels) (row : list f32) :
  ieee K -> row_bounded row ->
  exists el,
    map (fun s => k_exp K (F32.sub (rnd K) s (fold_right F32.max NInf row))) row
    = map Fin el /\
    Forall (fun e => 0 <= e <= 1)%R el /\
    In 1%R el /\
    forall j, j < length row -> nth j row FNaN = NInf -> nth j el 0%R = 0%R.
Proof.
  intros HK (Hn & Hp & s0 & Hs0).
  destruct (@largest_finite row Hn Hp) as [[_ Hall]|(mx & -> & Hin & Hmax)].
  { pose proof (proj1 (Forall_forall _ _) Hall _ Hs0). discriminate. }
  set (f := fun s => k_exp K (F32.sub (rnd K) s (Fin mx))).
  (* one exponential *)
  assert (Hone : forall s, In s row ->
            exists e, f s = Fin e /\ (0 <= e <= 1)%R /\ (s = NInf -> e = 0%R)).
  { intros s Hs. destruct s as [x| | |].
    - pose proof (Hmax x Hs) as Hx.
      pose proof (@law_rnd_mono K HK (x + - mx)%R 0%R ltac:(lra)) as Hle.
      rewrite (law_rnd_0 HK) in Hle.
      unfold f, F32.sub. cbn [F32.neg F32.add].
      destruct (rnd K (x + - mx)%R) as [d| | |]; cbn [fle] in Hle; try contradiction.
      + destruct (@law_exp_unit K HK d Hle) as (e & -> & He).
        exists e. split; [reflexivity|]. split; [exact He | discriminate].
      + exists 0%R. split; [apply (law_exp_ninf HK)|]. split; [lra | reflexivity].
    - contradiction.
    - exists 0%R. split; [apply (law_exp_ninf HK)|]. split; [lra | reflexivity].
    - contradiction. }
  (* the largest score has the exponential 1 *)
  assert (Hmx : f (Fin mx) = Fin 1).
  { unfold f, F32.sub. cbn [F32.neg F32.add]. rewrite Rplus_opp_r.
    rewrite (law_rnd_0 HK). apply (law_exp_0 HK). }
  clear Hn Hp Hs0 Hmax.
  assert (Hlist : exists el,
            map f row = map Fin el /\
            Forall (fun e => 0 <= e <= 1)%R el /\
            forall j, j < length row -> nth j row FNaN = NInf -> nth j el 0%R = 0%R).
  { clear Hin Hmx. induction row as [|s row IH].
    - exists []. split; [reflexivity|]. split; [constructor|]. intros j Hj. inversion Hj.
    - destruct (Hone s ltac:(now left)) as (e & He & Hr & Hz).
      destruct IH as (el & Hel & Hall & Hzero).
      { intros s' Hs'. apply Hone. now right. }
      exists (e :: el). cbn [map]. rewrite He, Hel.
      split; [reflexivity|]. split; [now constructor|].
      intros [|j] Hj Hnth; cbn [nth] in *.
      + now apply Hz.
      + apply Hzero; [cbn [length] in Hj; lia | exact Hnth]. }
  destruct Hlist as (el & Hel & Hall & Hzero).
  exists el. split; [exact Hel|]. split; [exact Hall|]. split; [|exact Hzero].
  assert (H1 : In (Fin 1) (map Fin el)).
  { rewrite <- Hel, <- Hmx. now apply in_map. }
  apply in_map_iff in H1 as (e & E & He). injection E as <-. exact He.
Qed.

(** A sum of values that are not negative is not negative, and is at least
    1 when one of them is 1. *)
Lemma sum_at_least (K : kernels) (el : list R) :
  ieee K -> Forall (fun e => 0 <= e <= 1)%R el ->
  fle (Fin 0) (F32.sum (rnd K) (map Fin el)) /\
  (In 1%R el -> fle (Fin 1) (F32.sum (rnd K) (map Fin el))).
Proof.
  intros HK. induction 1 as [|e el He _ [IH0 IH1]].
  - split; [cbn; lra | intros []].
  - cbn [map F32.sum fold_right]. fold (F32.sum (rnd K) (map Fin el)).
    destruct (F32.sum (rnd K) (map Fin el)) as [s| | |]; cbn [fle] in *;
      try contradiction.
    + cbn [F32.add]. split.
      * pose proof (@law_rnd_mono K HK 0%R (e + s)%R ltac:(lra)) as H.
        now rewrite (law_rnd_0 HK) in H.
      * intros [E|Hin].
        -- pose proof (@law_rnd_mono K HK 1%R (e + s)%R ltac:(lra)) as H.
           now rewrite (law_rnd_1 HK) in H.
        -- specialize (IH1 Hin).
           pose proof (@law_rnd_mono K HK 1%R (e + s)%R ltac:(lra)) as H.
           now rewrite (law_rnd_1 HK) in H.
    + cbn [F32.add]. split; [exact I | intros _; exact I].
Qed.

Lemma div_zero_by_at_least_1 (K : kernels) (z : f32) :
  ieee K -> fle (Fin 1) z -> F32.div (rnd K) (Fin 0) z = Fin 0.
Proof.
  intros HK Hz. destruct z as [s| | |]; cbn [fle] in Hz; try contradiction.
  - cbn [F32.div]. rewrite Reqb_false by lra.
    unfold Rdiv. rewrite Rmult_0_l. apply (law_rnd_0 HK).
  - reflexivity.
Qed.

(** In a row the softmax can normalise, a score of [-inf] gets the weight
    0. *)
Lemma softmax_row_masked_zero (K : kernels) (row : list f32) (j : nat) :
  ieee K -> row_bounded row ->
  j < length row -> nth j row FNaN = NInf ->
  nth j (F32.softmax_row K row) FNaN = Fin 0.
Proof.
  intros HK Hrow Hj Hnth.
  destruct (@softmax_row_exps K row HK Hrow) as (el & Hel & Hall & H1 & Hzero).
  unfold F32.softmax_row. rewrite Hel.
  assert (Hlen : length el = length row).
  { apply (f_equal (@length f32)) in Hel. now rewrite !length_map in Hel. }
  set (z := F32.sum (rnd K) (map Fin el)).
  rewrite (nth_indep _ FNaN (F32.div (rnd K) (Fin 0) z))
    by (rewrite !length_map; lia).
  rewrite (map_nth (fun e => F32.div (rnd K) e z)).
  change (Fin 0) with (Fin 0%R). rewrite (map_nth Fin).
  rewrite (Hzero j Hj Hnth).
  apply div_zero_by_at_least_1; [exact HK|].
  now apply (proj2 (@sum_at_least K el HK Hall)).
Qed.

(** Without rounding on [[0, n]], a sum of at most [n] values of
    [[0, 1]] is exact. *)
Lemma sum_exact (K : kernels) (n : nat) (el : list R) :
  exact_up_to K n -> length el <= n ->
  Forall (fun e => 0 <= e <= 1)%R el ->
  F32.sum (rnd K) (map Fin el) = Fin (Rsum el) /\
  (0 <= Rsum el <= INR (length el))%R.
Proof.
  intros Hex Hlen Hall. induction Hall as [|e el He _ IH].
  - split; [reflexivity|]. cbn. lra.
  - cbn [length] in Hlen. destruct (IH ltac:(lia)) as [Es Hb].
    cbn [map F32.sum fold_right]. fold (F32.sum (rnd K) (map Fin el)).
    rewrite Es. cbn [F32.add].
    change (Rsum (e :: el)) with (e + Rsum el)%R.
    assert (Hb' : (0 <= e + Rsum el <= INR (length (e :: el)))%R).
    { cbn [length]. rewrite S_INR. lra. }
    split; [|exact Hb'].
    apply Hex. split; [lra|].
    apply Rle_trans with (INR (length (e :: el))); [lra|].
    apply le_INR. cbn [length]. lia.
Qed.

(** Without rounding on [[0, n]], the weights of a row of [n] scores the
    softmax can normalise sum to 1. *)
Lemma softmax_row_sums_to_1 (K : kernels) (row : list f32) :
  ieee K -> exact_up_to K (length row) -> row_bounded row ->
  F32.sum (rnd K) (F32.softmax_row K row) = Fin 1.
Proof.
  intros HK Hex Hrow.
  destruct (@softmax_row_exps K row HK Hrow) as (el & Hel & Hall & H1 & _).
  assert (Hlen : length el = length row).
  { apply (f_equal (@length f32)) in Hel. now rewrite !length_map in Hel. }
  assert (Hpos : 1 <= length row).
  { rewrite <- Hlen. destruct el; [destruct H1 | cbn; lia]. }
  unfold F32.softmax_row. rewrite Hel.
  destruct (@sum_exact K (length row) el Hex ltac:(lia) Hall) as [Es Hb].
  rewrite Es.
  (* the sum of the exponentials is at least 1 *)
  assert (HS : (1 <= Rsum el)%R).
  { pose proof (proj2 (@sum_at_least K el HK Hall) H1) as H. now rewrite Es in H. }
  (* each weight is exact *)
  assert (Hw : map (fun e => F32.div (rnd K) e (Fin (Rsum el))) (map Fin el)
               = map Fin (map (fun e => e / Rsum el)%R el)).
  { rewrite !map_map. apply map_ext_in. intros e He.
    pose proof (proj1 (Forall_forall _ _) Hall e He) as Hr. cbv beta in Hr.
    cbn [F32.div]. rewrite Reqb_false by lra.
    apply Hex. split.
    - apply Rmult_le_pos; [lra|]. left. apply Rinv_0_lt_compat. lra.
    - apply Rle_trans with 1%R; [|change 1%R with (INR 1); apply le_INR; lia].
      apply Rmult_le_reg_r with (Rsum el); [lra|].
      unfold Rdiv. rewrite Rmult_assoc, Rinv_l by lra. lra. }
  rewrite Hw.
  destruct (@sum_exact K (length row) (map (fun e => e / Rsum el)%R el) Hex) as [Es' _].
  - rewrite length_map. lia.
  - apply Forall_forall. intros w Hin. apply in_map_iff in Hin as (e & <- & He).
    pose proof (proj1 (Forall_forall _ _) Hall e He) as Hr. cbv beta in Hr.
    split.
    + apply Rmult_le_pos; [lra|]. left. apply Rinv_0_lt_compat. lra.
    + apply Rmult_le_reg_r with (Rsum el); [lra|].
      unfold Rdiv. rewrite Rmult_assoc, Rinv_l by lra. lra.
  - rewrite Es'. f_equal.
    rewrite (@Rsum_map_div R (fun e => e) (Rsum el) el), map_id.
    unfold Rdiv. apply Rinv_r. lra.
Qed.

(** ** The weights of [Attention.forward] *)

Lemma f32_softmax_row_length (K : kernels) (row : list f32) :
  length (F32.softmax_row K row) = length row.
Proof. unfold F32.softmax_row. now rewrite !length_map. Qed.

Lemma row_of_length (t : tensor f32) (r i n : nat) : length (row_of t r i n) = n.
Proof. unfold row_of. now rewrite length_map, length_seq. Qed.

Lemma row_of_nth (t : tensor f32) (r i n l : nat) :
  l < n -> nth l (row_of t r i n) FNaN = get FNaN t [r; i; l].
Proof.
  intros Hl. unfold row_of.
  rewrite (nth_indep _ FNaN (get FNaN t [r; i; 0])) by now rewrite length_map, length_seq.
  rewrite (map_nth (fun l => get FNaN t [r; i; l])). now rewrite seq_nth.
Qed.

(** A weight is the entry of the softmax of its row of scores. *)
Lemma f32_softmax_entry (K : kernels) (sc : tensor f32) (a b c r i j : nat) :
  shape sc = [a; b; c] -> r < a -> i < b -> j < c ->
  get FNaN (F32.softmax K sc) [r; i; j]
  = nth j (F32.softmax_row K (row_of sc r i c)) FNaN.
Proof.
  intros Hs Hr Hi Hj. unfold F32.softmax. rewrite Hs.
  rewrite get_tabulate by (repeat constructor; assumption).
  reflexivity.
Qed.

Lemma f32_softmax_row (K : kernels) (sc : tensor f32) (a b c r i : nat) :
  shape sc = [a; b; c] -> r < a -> i < b ->
  row_of (F32.softmax K sc) r i c = F32.softmax_row K (row_of sc r i c).
Proof.
  intros Hs Hr Hi.
  apply (nth_ext _ _ FNaN FNaN).
  - now rewrite f32_softmax_row_length, !row_of_length.
  - intros l Hl. rewrite row_of_length in Hl.
    rewrite row_of_nth by exact Hl.
    now apply (@f32_softmax_entry K sc a b c).
Qed.

(** The weights of a row the softmax can normalise lie in [[0, 1]]. *)
Lemma softmax_row_weights_unit (K : kernels) (row : list f32) (j : nat) :
  ieee K -> row_bounded row -> j < length row ->
  exists p, nth j (F32.softmax_row K row) FNaN = Fin p /\ (0 <= p <= 1)%R.
Proof.
  intros HK Hrow Hj.
  destruct (@softmax_row_exps K row HK Hrow) as (el & Hel & Hall & H1 & _).
  assert (Hlen : length el = length row).
  { apply (f_equal (@length f32)) in Hel. now rewrite !length_map in Hel. }
  unfold F32.softmax_row. rewrite Hel.
  set (z := F32.sum (rnd K) (map Fin el)).
  rewrite (nth_indep _ FNaN (F32.div (rnd K) (Fin 0) z))
    by (rewrite !length_map; lia).
  rewrite (map_nth (fun e => F32.div (rnd K) e z)).
  change (Fin 0) with (Fin 0%R). rewrite (map_nth Fin).
  assert (He : (0 <= nth j el 0 <= 1)%R).
  { apply (proj1 (Forall_forall _ _) Hall). apply nth_In. lia. }
  pose proof (proj2 (@sum_at_least K el HK Hall) H1) as Hz. fold z in Hz.
  destruct z as [s| | |]; cbn [fle] in Hz; try contradiction.
  - cbn [F32.div]. rewrite Reqb_false by lra.
    assert (Hq : (0 <= nth j el 0 / s <= 1)%R).
    { split.
      - apply Rmult_le_pos; [lra|]. left. apply Rinv_0_lt_compat. lra.
      - apply Rmult_le_reg_r with s; [lra|].
        unfold Rdiv. rewrite Rmult_assoc, Rinv_l by lra. lra. }
    pose proof (@law_rnd_mono K HK 0%R _ (proj1 Hq)) as H0.
    pose proof (@law_rnd_mono K HK _ 1%R (proj2 Hq)) as H1'.
    rewrite (law_rnd_0 HK) in H0. rewrite (law_rnd_1 HK) in H1'.
    destruct (rnd K (nth j el 0 / s)%R) as [p| | |]; cbn [fle] in H0, H1'; try contradiction.
    exists p. split; [reflexivity | lra].
  - exists 0%R. split; [reflexivity | lra].
Qed.

(** The rows of the weights, by the scores that went into the softmax. *)
Lemma f32_weight_rows (K : kernels) (sc : tensor f32) (a T r i : nat) :
  ieee K -> shape sc = [a; T; T] -> r < a -> i < T ->
  (row_bounded (row_of sc r i T) ->
     (forall l, l < T ->
        exists p, get FNaN (F32.softmax K sc) [r; i; l] = Fin p /\ (0 <= p <= 1)%R) /\
     (forall l, l < T -> get FNaN sc [r; i; l] = NInf ->
        get FNaN (F32.softmax K sc) [r; i; l] = Fin 0) /\
     (exact_up_to K T ->
        F32.sum (rnd K) (row_of (F32.softmax K sc) r i T) = Fin 1)) /\
  (In FNaN (row_of sc r i T) \/ In PInf (row_of sc r i T) \/
   Forall (eq NInf) (row_of sc r i T) ->
     forall l, l < T -> get FNaN (F32.softmax K sc) [r; i; l] = FNaN).
Proof.
  intros HK Hs Hr Hi. split.
  - intros Hrow. split; [|split].
    + intros l Hl. rewrite (@f32_softmax_entry K sc a T T) by assumption.
      apply softmax_row_weights_unit; [exact HK | exact Hrow | now rewrite row_of_length].
    + intros l Hl Hneg. rewrite (@f32_softmax_entry K sc a T T) by assumption.
      apply softmax_row_masked_zero;
        [exact HK | exact Hrow | now rewrite row_of_length | now rewrite row_of_nth].
    + intros Hex. rewrite (@f32_softmax_row K sc a T T) by assumption.
      apply softmax_row_sums_to_1; [exact HK | now rewrite row_of_length | exact Hrow].
  - intros Hbad l Hl. rewrite (@f32_softmax_entry K sc a T T) by assumption.
    apply softmax_row_unbounded;
      [apply (law_exp_nan HK) | apply (law_exp_ninf HK) | exact Hbad
       | now rewrite row_of_length].
Qed.

Lemma f32_forward_ok (K : kernels) (m : Attention.t) (H B T : nat) (q k v : tensor f32) :
  attention_sized m H -> 0 < B -> 0 < H ->
  shape q = [B; T; H] -> shape k = [B; T; H] -> shape v = [B; T; H] ->
  exists sc v' ctx,
    F32.Attention_scores K m q k v None = Ok (sc, v', B) /\
    F32.Attention_forward K m q k v None = Ok (ctx, F32.softmax K sc) /\
    shape sc = [B * Attention.num_heads m; T; T] /\ wf sc /\
    shape ctx = [B; T; H] /\ wf ctx.
Proof.
  intros (HND & Hi & Ho) HB HH Hq Hk Hv.
  assert (Hpos : B * (Attention.num_heads m * Attention.div_dimension m) <> 0) by nia.
  rewrite <- Hi in Hq, Hk, Hv. rewrite <- HND in Ho.
  destruct (@f32_scores_ok K m B T Hpos Ho q k v Hq Hk Hv) as (sc & v' & Hs & Hsc & Hw & Hv' & _).
  destruct (@f32_forward_after_scores K m B T Hpos Ho q k v None sc v' Hs Hsc Hv')
    as (ctx & Hf & Hctx & Hwctx).
  exists sc, v', ctx. rewrite HND in Hctx. auto 10.
Qed.

Lemma f32_forward_mask_ok (K : kernels) (m : Attention.t) (H B T : nat) (q k v : tensor f32)
    (mask : tensor bool) :
  attention_sized m H -> 0 < B -> 0 < H ->
  shape q = [B; T; H] -> shape k = [B; T; H] -> shape v = [B; T; H] ->
  shape mask = [B; T; T] ->
  exists raw sc v' ctx,
    F32.Attention_scores K m q k v None = Ok (raw, v', B) /\
    F32.Attention_scores K m q k v (Some mask) = Ok (sc, v', B) /\
    F32.Attention_forward K m q k v (Some mask) = Ok (ctx, F32.softmax K sc) /\
    shape sc = [B * Attention.num_heads m; T; T] /\
    shape ctx = [B; T; H] /\
    forall r i l, r < B * Attention.num_heads m -> i < T -> l < T ->
      get FNaN sc [r; i; l]
      = if get false (laid_mask m B T mask) [r; i; l] then NInf else get FNaN raw [r; i; l].
Proof.
  intros (HND & Hi & Ho) HB HH Hq Hk Hv Hm.
  assert (Hpos : B * (Attention.num_heads m * Attention.div_dimension m) <> 0) by nia.
  rewrite <- Hi in Hq, Hk, Hv. rewrite <- HND in Ho.
  destruct (@f32_scores_mask_ok K m B T Hpos Ho q k v mask Hq Hk Hv Hm)
    as (raw & sc & v' & Hraw & Hs & Hsc & Hw & Hv' & _ & Hentry).
  destruct (@f32_forward_after_scores K m B T Hpos Ho q k v (Some mask) sc v' Hs Hsc Hv')
    as (ctx & Hf & Hctx & Hwctx).
  exists raw, sc, v', ctx. rewrite HND in Hctx. auto 10.
Qed.


(** C2, as the code has it, on float32 values.  When there is a single
    head, or the mask is the same for every element of the batch, the score
    of a masked position is [-inf] in every head; head [h] of batch [b] is
    row [h * B + b].  The masked position gets the weight 0 when the scores
    of its row hold no [nan], no [+inf] and a finite value.  In every other
    row, among them the rows whose keys are all masked, every weight is
    [nan]. *)
Theorem masked_weight_is_zero_f32
    (K : kernels) (H heads B T : nat) (g g' : gen) (m : Attention.t) (q k v : tensor f32)
    (mask : tensor bool) :
  ieee K ->
  Attention.init H heads g = Ok (m, g') ->
  0 < B -> 0 < H ->
  shape q = [B; T; H] -> shape k = [B; T; H] -> shape v = [B; T; H] ->
  shape mask = [B; T; T] ->
  (heads = 1 \/
   forall b b' i j, b < B -> b' < B -> get false mask [b; i; j] = get false mask [b'; i; j]) ->
  exists raw sc v' ctx w,
    F32.Attention_scores K m q k v None = Ok (raw, v', B) /\
    F32.Attention_scores K m q k v (Some mask) = Ok (sc, v', B) /\
    F32.Attention_forward K m q k v (Some mask) = Ok (ctx, w) /\
    shape w = [B * heads; T; T] /\
    forall b h i, b < B -> h < heads -> i < T ->
      (forall j, j < T ->
         get FNaN sc [h * B + b; i; j]
         = if get false mask [b; i; j] then NInf else get FNaN raw [h * B + b; i; j]) /\
      (row_bounded (row_of sc (h * B + b) i T) ->
         forall j, j < T -> get false mask [b; i; j] = true ->
           get FNaN w [h * B + b; i; j] = Fin 0) /\
      (In FNaN (row_of sc (h * B + b) i T) \/ In PInf (row_of sc (h * B + b) i T) \/
       Forall (eq NInf) (row_of sc (h * B + b) i T) ->
         forall j, j < T -> get FNaN w [h * B + b; i; j] = FNaN) /\
      ((forall j, j < T -> get false mask [b; i; j] = true) ->
         forall j, j < T -> get FNaN w [h * B + b; i; j] = FNaN).
Proof.
  intros HK Hinit HB HH Hq Hk Hv Hm Hlay.
  destruct (@attention_init_sized H heads g g' m Hinit) as [Hsized Hheads].
  destruct (@f32_forward_mask_ok K m H B T q k v mask Hsized HB HH Hq Hk Hv Hm)
    as (raw & sc & v' & ctx & Hraw & Hs & Hf & Hsc & _ & Hfill).
  assert (HN : Attention.num_heads m <> 0).
  { destruct Hsized as (HND & _). intros E. rewrite E in HND. simpl in HND. lia. }
  exists raw, sc, v', ctx, (F32.softmax K sc).
  split; [exact Hraw|]. split; [exact Hs|]. split; [exact Hf|].
  split; [unfold F32.softmax; now rewrite Hsc, Hheads|].
  intros b h i Hb Hh Hi.
  set (r := h * B + b).
  assert (Hr : r < B * Attention.num_heads m) by (subst r; rewrite Hheads; nia).
  (* the mask that the code lays on row [r] is the mask of batch [b] *)
  assert (Hlaid : forall l, l < T ->
            get false (laid_mask m B T mask) [r; i; l] = get false mask [b; i; l]).
  { intros l Hl. rewrite laid_mask_entry by assumption.
    destruct Hlay as [H1|Hsame].
    - rewrite Hheads, H1, Nat.div_1_r. subst r.
      assert (h = 0) by lia. subst h. reflexivity.
    - apply Hsame; [|exact Hb]. apply Nat.Div0.div_lt_upper_bound. lia. }
  assert (Hentry : forall j, j < T ->
            get FNaN sc [r; i; j]
            = if get false mask [b; i; j] then NInf else get FNaN raw [r; i; j]).
  { intros j Hj. rewrite Hfill by assumption. now rewrite Hlaid. }
  destruct (@f32_weight_rows K sc (B * Attention.num_heads m) T r i HK Hsc Hr Hi)
    as [Hgood Hbad].
  split; [exact Hentry|]. split; [|split; [exact Hbad|]].
  - intros Hrow j Hj Hmasked.
    destruct (Hgood Hrow) as (_ & Hzero & _).
    apply Hzero; [exact Hj|]. rewrite Hentry by exact Hj. now rewrite Hmasked.
  - intros Hall. apply Hbad. right. right.
    apply Forall_forall. intros s Hin.
    unfold row_of in Hin. apply in_map_iff in Hin as (l & <- & Hl).
    apply in_seq in Hl. rewrite Hentry by lia. now rewrite Hall by lia.
Qed.

(** ** [DiffusionTransformer] with a zero conditioning projection *)

Lemma f32_dropout_forward_shape (K : kernels) (d : Dropout.t) (x : tensor f32) (g : gen) :
  shape (fst (F32.Dropout_forward K d x g)) = shape x.
Proof.
  unfold F32.Dropout_forward.
  destruct (negb (Dropout.training d) || Reqb (Dropout.p d) 0 || (numel (shape x) =? 0));
    [reflexivity|].
  destruct (Reqb (Dropout.p d) 1); [reflexivity|].
  destruct (draw (length (data x)) g). reflexivity.
Qed.

Lemma f32_perceptron_forward_ok (K : kernels) (p : AttentionPerceptron.t) (H B T : nat)
    (x : tensor f32) (g : gen) :
  perceptron_sized p H -> shape x = [B; T; H] ->
  exists y g', F32.AttentionPerceptron_forward K p x g = Ok (y, g') /\ shape y = [B; T; H].
Proof.
  intros (Hi1 & Hi2 & Ho2 & Hn) Hx. unfold F32.AttentionPerceptron_forward.
  rewrite (@f32_linear_forward_ok K _ x [B; T]) by now rewrite Hx, Hi1.
  cbn [bind app].
  set (h := F32.GELU_tanh K _).
  assert (Hh : shape h = [B; T; Linear.out_features (AttentionPerceptron.fc1 p)])
    by reflexivity.
  pose proof (f32_dropout_forward_shape K (AttentionPerceptron.drop1 p) h g) as Hd1.
  destruct (F32.Dropout_forward K (AttentionPerceptron.drop1 p) h g) as [h1 g1].
  cbn [fst] in Hd1. rewrite Hh in Hd1.
  assert (Hnorm : exists h2,
             match AttentionPerceptron.norm p with
             | Some ln => F32.LayerNorm_forward K ln h1
             | None => Ok h1
             end = Ok h2 /\
             shape h2 = [B; T; Linear.out_features (AttentionPerceptron.fc1 p)]).
  { destruct (AttentionPerceptron.norm p) as [ln|].
    - rewrite (@f32_layernorm_forward_ok K ln h1 [B; T]) by now rewrite Hd1, Hn.
      eexists. split; [reflexivity|]. now rewrite shape_tabulate.
    - exists h1. auto. }
  destruct Hnorm as (h2 & -> & Hh2). cbn [bind].
  rewrite (@f32_linear_forward_ok K _ h2 [B; T]) by now rewrite Hh2, Hi2.
  cbn [bind app].
  match goal with
  | |- context [F32.Dropout_forward K ?d ?t ?gg] =>
      pose proof (f32_dropout_forward_shape K d t gg) as Hd2;
      destruct (F32.Dropout_forward K d t gg) as [h3 g3]
  end.
  cbn [fst] in Hd2. exists h3, g3. split; [reflexivity|].
  rewrite Hd2, shape_tabulate, Ho2. reflexivity.
Qed.

Lemma f32_tmul_gate (K : kernels) (gate h : tensor f32) (B T H : nat) :
  shape gate = [B; 1; H] -> shape h = [B; T; H] ->
  exists z, F32.tmul K gate h = Ok z /\ shape z = [B; T; H] /\
    forall b t k, b < B -> t < T -> k < H ->
      get FNaN z [b; t; k]
      = F32.mul (rnd K) (get FNaN gate [b; 0; k]) (get FNaN h [b; t; k]).
Proof.
  intros Hg Hh. unfold F32.tmul, map2b. rewrite Hg, Hh, broadcast_token_r.
  eexists. split; [reflexivity|]. split; [reflexivity|].
  intros b t k Hb Ht Hk.
  assert (Hin : in_range [B; T; H] [b; t; k]) by (repeat constructor; assumption).
  rewrite get_tabulate by exact Hin.
  now rewrite (bidx_same Hin), (@bidx_token B T H b t k Hb Hk).
Qed.

Lemma f32_tadd_same_shape (K : kernels) (x z : tensor f32) :
  shape z = shape x ->
  exists y, F32.tadd K x z = Ok y /\ shape y = shape x /\ wf y /\
    forall idx, in_range (shape x) idx ->
      get FNaN y idx = F32.add (rnd K) (get FNaN x idx) (get FNaN z idx).
Proof.
  intros Hs. unfold F32.tadd, map2b. rewrite Hs, broadcast_shapes_same.
  eexists. split; [reflexivity|]. split; [reflexivity|]. split; [apply wf_tabulate|].
  intros idx Hin. rewrite get_tabulate by exact Hin. now rewrite (bidx_same Hin).
Qed.


(** A chunk of a tensor of zeros, with a token axis put in, holds zeros. *)
Lemma zero_gate (a : tensor f32) (B n H off b k : nat) :
  shape a = [B; n] -> wf a -> Forall (eq (Fin 0)) (data a) ->
  b < B -> k < H -> off + H <= n ->
  get FNaN (Tensor [B; 1; H] (data (tabulate [B; H] (piece FNaN a off)))) [b; 0; k] = Fin 0.
Proof.
  intros Hs Hw Hz Hb Hk Hoff.
  transitivity (get FNaN (tabulate [B; H] (piece FNaN a off)) [b; k]).
  - unfold get. f_equal. cbn [shape tabulate ravel numel fold_right]. ring.
  - rewrite get_tabulate by (repeat constructor; assumption).
    cbn [piece]. symmetry.
    apply (proj1 (Forall_forall _ _) Hz).
    apply get_in; [exact Hw|]. rewrite Hs. repeat constructor; lia.
Qed.

(** C6, as the code has it, on float32 values.  For a batch size and a
    hidden size of at least 1, in a block whose attention size is its
    hidden size: when the conditioning projection returns zeros only, the
    block returns a tensor that holds the entry of [x] wherever the
    perceptron returned a finite value, and [nan] wherever it returned an
    infinity or [nan] (the gate 0 times such a value is [nan]).  It
    returns [x] itself when the perceptron returned finite values only. *)
Theorem block_identity_where_perceptron_finite
    (K : kernels) (m : DiffusionTransformer.t) (H B T : nat) (x c a : tensor f32) (g : gen) :
  rnd K 0 = Fin 0 ->
  block_sized m H -> 0 < B -> 0 < H ->
  shape x = [B; T; H] -> wf x -> Forall (representable K) (data x) ->
  shape c = [B; H] ->
  F32.Linear_forward K (DiffusionTransformer.adaptiveLN m) (F32.SiLU K c) = Ok a ->
  Forall (eq (Fin 0)) (data a) ->
  exists gate h g' y,
    F32.DiffusionTransformer_perceptron K m x c g = Ok (gate, h, g') /\
    shape h = [B; T; H] /\
    F32.DiffusionTransformer_forward K m x c g = Ok (y, g') /\
    shape y = [B; T; H] /\
    (forall b t k, b < B -> t < T -> k < H ->
       (finite (get FNaN h [b; t; k]) -> get FNaN y [b; t; k] = get FNaN x [b; t; k]) /\
       (~ finite (get FNaN h [b; t; k]) -> get FNaN y [b; t; k] = FNaN)) /\
    ((forall b t k, b < B -> t < T -> k < H -> finite (get FNaN h [b; t; k])) -> y = x).
Proof.
  intros H0 (Hn1 & Hn2 & Hatt & Hper & Hai & Hao) HB HH Hx Hwx Hrep Hc Ha Hz.
  assert (Hsa : shape a = [B; 6 * H] /\ wf a).
  { rewrite (@f32_linear_forward_ok K _ (F32.SiLU K c) [B]) in Ha
      by (cbn [F32.SiLU tmap shape]; now rewrite Hc, Hai).
    injection Ha as <-. split; [|apply wf_tabulate].
    cbn [shape tabulate app]. now rewrite Hao. }
  destruct Hsa as [Hsa Hwa].
  unfold F32.DiffusionTransformer_forward, F32.DiffusionTransformer_perceptron.
  rewrite Ha. cbn [bind].
  rewrite (@chunk1_pieces f32 FNaN a B 6 H) by (lia || exact Hsa).
  cbn [bind List.repeat offsets map].
  rewrite (@f32_layernorm_forward_ok K _ x [B; T]) by now rewrite Hx, Hn1.
  cbn [bind].
  match goal with
  | |- context [F32.modulate K ?n ?sh ?sc] =>
      destruct (@f32_modulate_ok K n sh sc B T H) as (attn_input & -> & Hin & _);
        [rewrite shape_tabulate; exact Hx | reflexivity | reflexivity |]
  end.
  cbn [bind unsqueeze1 shape tabulate].
  destruct (@f32_forward_ok K (DiffusionTransformer.attention m) H B T
              attn_input attn_input attn_input Hatt HB HH Hin Hin Hin)
    as (sc & v' & ctx & _ & -> & _ & _ & Hctx & _).
  cbn [bind].
  match goal with
  | |- context [F32.tmul K ?gate ctx] =>
      destruct (@f32_tmul_gate K gate ctx B T H)
        as (gated & -> & Hgated & _); [reflexivity | exact Hctx |]
  end.
  cbn [bind].
  destruct (@f32_tadd_same_shape K x gated) as (attn_out & -> & Hout & _);
    [now rewrite Hgated, Hx|].
  cbn [bind]. rewrite Hx in Hout.
  rewrite (@f32_layernorm_forward_ok K _ attn_out [B; T]) by now rewrite Hout, Hn2.
  cbn [bind].
  match goal with
  | |- context [F32.modulate K ?n ?sh ?sc] =>
      destruct (@f32_modulate_ok K n sh sc B T H) as (perceptron_input & -> & Hpi & _);
        [rewrite shape_tabulate; exact Hout | reflexivity | reflexivity |]
  end.
  cbn [bind].
  destruct (@f32_perceptron_forward_ok K (DiffusionTransformer.perceptron m) H B T
              perceptron_input g Hper Hpi) as (h & g' & -> & Hh).
  cbn [bind].
  match goal with
  | |- context [F32.tmul K ?gate h] =>
      set (mlp_gate := gate);
      destruct (@f32_tmul_gate K mlp_gate h B T H) as (z & Ez & Hzs & Hzv);
        [reflexivity | exact Hh |]
  end.
  (* the gate is zero *)
  assert (Hgate : forall b k, b < B -> k < H -> get FNaN mlp_gate [b; 0; k] = Fin 0).
  { intros b k Hb Hk. subst mlp_gate.
    apply (@zero_gate a B (6 * H) H _ b k Hsa Hwa Hz Hb Hk). lia. }
  destruct (@f32_tadd_same_shape K x z) as (y & Ey & Hy & _ & Hyv);
    [now rewrite Hzs, Hx|].
  exists mlp_gate, h, g', y.
  split; [reflexivity|]. split; [exact Hh|].
  cbn [bind]. rewrite Ez. cbn [bind]. rewrite Ey. cbn [bind].
  split; [reflexivity|]. split; [now rewrite Hy, Hx|].
  assert (Hentry : forall b t k, b < B -> t < T -> k < H ->
            get FNaN y [b; t; k]
            = F32.add (rnd K) (get FNaN x [b; t; k])
                (match get FNaN h [b; t; k] with Fin _ => Fin 0 | _ => FNaN end)).
  { intros b t k Hb Ht Hk.
    rewrite Hyv by (rewrite Hx; repeat constructor; assumption).
    rewrite Hzv, Hgate by assumption. now rewrite mul_zero_l. }
  assert (Hxrep : forall idx, representable K (get FNaN x idx)).
  { intros idx. apply get_Forall; [exact I | exact Hrep]. }
  split.
  - intros b t k Hb Ht Hk. rewrite Hentry by assumption. split.
    + intros Hf. destruct (get FNaN h [b; t; k]); try contradiction.
      apply add_zero_r. apply Hxrep.
    + intros Hf. destruct (get FNaN h [b; t; k]); [exfalso; apply Hf; exact I| | |];
        apply add_nan_r.
  - intros Hfin. apply tensor_eq; [now rewrite Hy|].
    unfold F32.tadd, map2b in Ey. rewrite Hzs, Hx, broadcast_shapes_same in Ey.
    injection Ey as <-.
    transitivity (data (tabulate (shape x) (get FNaN x))); [|now rewrite tabulate_get].
    rewrite Hx. f_equal. apply tabulate_ext. intros idx Hidx.
    pose proof Hidx as Hidx'.
    inversion Hidx as [|b B' l1 l1' Hb H1]; subst.
    inversion H1 as [|t T' l2 l2' Ht H2]; subst.
    inversion H2 as [|k H' l3 l3' Hk H3]; subst.
    inversion H3; subst.
    rewrite !(bidx_same Hidx').
    specialize (Hfin b t k Hb Ht Hk).
    assert (Ez' : get FNaN z [b; t; k] = Fin 0).
    { rewrite Hzv, Hgate by assumption. rewrite mul_zero_l by exact H0.
      destruct (get FNaN h [b; t; k]); try contradiction. reflexivity. }
    rewrite Ez'. apply add_zero_r. apply Hxrep.
Qed.

(** ** Evaluating the float32 reading on concrete tensors *)

Lemma bind_ok {A B} (v : A) (k : A -> res B) : bind (Ok v) k = k v.
Proof. reflexivity. Qed.

Lemma Reqb_true (x y : R) : x = y -> Reqb x y = true.
Proof. intros ->. apply Reqb_refl. Qed.

(** The call that a chain of [bind]s makes first. *)
Ltac head_of e :=
  lazymatch e with
  | bind ?e' _ => head_of e'
  | _ => e
  end.

Ltac eval_head :=
  match goal with
  | |- ?lhs = _ =>
      let e := head_of lhs in
      let v := eval cbv -[Rplus Rmult Rminus Rdiv Rinv Ropp exp sqrt IZR INR cos sin tanh PI
                          ln Rlt_dec Req_dec_T Rle_dec Rltb Reqb Rmax overflow_bound saturate]
               in e in
      change e with v
  end.

(** Facts on real numbers that the comparisons of a run need. *)
Ltac exp_positive :=
  repeat match goal with
         | |- context [exp ?t] =>
             let e := fresh "e" in
             pose proof (exp_pos t); set (e := exp t) in *; clearbody e
         end.

Ltac real_fact :=
  change (INR 1) with 1%R; rewrite ?sqrt_1;
  first
    [ lra
    | match goal with
      | |- sqrt ?v = 0%R => replace v with 0%R by lra; exact sqrt_0
      | |- sqrt ?v <> 0%R => apply Rgt_not_eq, sqrt_lt_R0; lra
      end
    | exp_positive; lra ].

Ltac decide_real :=
  repeat (match goal with
          | |- context [Reqb ?a ?b] =>
              first [ rewrite (@Reqb_true a b) by real_fact
                    | rewrite (@Reqb_false a b) by real_fact ]
          | |- context [Rltb ?a ?b] =>
              first [ rewrite (@Rltb_true a b) by real_fact
                    | rewrite (@Rltb_false a b) by real_fact ]
          end; cbv beta iota).

(** One call of a forward pass: evaluate it, settle its comparisons, hand
    its result to the rest. *)
Ltac stage := eval_head; decide_real; rewrite ?bind_ok; cbv beta iota.

(** ** C6 and C7 on concrete tensors *)

(** The block with [layernorm_epsilon = 0] on one token of one feature:
    the layer normalisation divides 0 by 0. *)
Lemma unguarded_block_forward :
  F32.DiffusionTransformer_forward exact_kernels unguarded_block
    (Tensor [1; 1; 1] [Fin 7]) (Tensor [1; 1] [Fin 3]) (fun _ => 0%R)
  = Ok (Tensor [1; 1; 1] [FNaN], fun _ => 0%R).
Proof.
  unfold F32.DiffusionTransformer_forward, F32.DiffusionTransformer_perceptron.
  cbv beta iota delta [unguarded_block DiffusionTransformer.adaptiveLN
       DiffusionTransformer.norm1 DiffusionTransformer.norm2
       DiffusionTransformer.attention DiffusionTransformer.perceptron].
  do 13 stage. reflexivity.
Qed.

Lemma unguarded_block_zero_conditioning :
  exists a,
    F32.Linear_forward exact_kernels (DiffusionTransformer.adaptiveLN unguarded_block)
      (F32.SiLU exact_kernels (Tensor [1; 1] [Fin 3])) = Ok a /\
    Forall (eq (Fin 0)) (data a).
Proof.
  eexists. split; [reflexivity|].
  cbv -[Rplus Rmult Rminus Rdiv Rinv Ropp exp IZR].
  repeat (constructor; [f_equal; lra|]). constructor.
Qed.

(** C6, as stated, fails.  On an empty batch the conditioning projection
    returns the empty [[0, 6]] tensor, zeros only, and the block raises in
    its attention, where [view(0, -1, heads, d)] cannot infer a size.  And
    in a block constructed with [layernorm_epsilon = 0] the layer
    normalisation of the token 7 is 0 / 0: the conditioning projection
    returns zeros, the perceptron returns [nan], and the block returns
    [7 + 0 * nan], which is [nan], not 7. *)
Lemma block_zero_conditioning_not_identity :
  ((exists a,
      F32.Linear_forward exact_kernels
        (DiffusionTransformer.adaptiveLN (zero_block gated_block))
        (F32.SiLU exact_kernels (Tensor [0; 1] [])) = Ok a /\
      Forall (eq (Fin 0)) (data a)) /\
   F32.DiffusionTransformer_forward exact_kernels (zero_block gated_block)
     (Tensor [0; 1; 1] []) (Tensor [0; 1] []) (fun _ => 0%R)
   = Raise RuntimeError) /\
  ((exists a,
      F32.Linear_forward exact_kernels (DiffusionTransformer.adaptiveLN unguarded_block)
        (F32.SiLU exact_kernels (Tensor [1; 1] [Fin 3])) = Ok a /\
      Forall (eq (Fin 0)) (data a)) /\
   F32.DiffusionTransformer_forward exact_kernels unguarded_block
     (Tensor [1; 1; 1] [Fin 7]) (Tensor [1; 1] [Fin 3]) (fun _ => 0%R)
   = Ok (Tensor [1; 1; 1] [FNaN], fun _ => 0%R)).
Proof.
  split; split.
  - eexists. split; [reflexivity|]. constructor.
  - reflexivity.
  - exact unguarded_block_zero_conditioning.
  - exact unguarded_block_forward.
Qed.

Lemma gated_block_sized : block_sized (zero_block gated_block) 1.
Proof. unfold block_sized, attention_sized, perceptron_sized. cbn. auto 10. Qed.

Lemma witness_block_perceptron :
  exists gate e,
    F32.DiffusionTransformer_perceptron exact_kernels (zero_block gated_block)
      (Tensor [1; 1; 1] [Fin 7]) (Tensor [1; 1] [Fin 3]) (fun _ => 0%R)
    = Ok (gate, Tensor [1; 1; 1] [Fin e], fun _ => 0%R).
Proof.
  eexists _, _.
  unfold F32.DiffusionTransformer_perceptron.
  cbv beta iota delta [zero_block gated_block DiffusionTransformer.adaptiveLN
       DiffusionTransformer.norm1 DiffusionTransformer.norm2
       DiffusionTransformer.attention DiffusionTransformer.perceptron].
  do 12 stage. reflexivity.
Qed.

Lemma block_identity_where_perceptron_finite_witness :
  exists g',
    F32.DiffusionTransformer_forward exact_kernels (zero_block gated_block)
      (Tensor [1; 1; 1] [Fin 7]) (Tensor [1; 1] [Fin 3]) (fun _ => 0%R)
    = Ok (Tensor [1; 1; 1] [Fin 7], g').
Proof.
  destruct (@block_identity_where_perceptron_finite exact_kernels (zero_block gated_block)
              1 1 1 (Tensor [1; 1; 1] [Fin 7]) (Tensor [1; 1] [Fin 3]) _ (fun _ => 0%R)
              eq_refl gated_block_sized ltac:(lia) ltac:(lia) eq_refl eq_refl
              ltac:(repeat constructor) eq_refl eq_refl)
    as (gate & h & g' & y & Hp & _ & Hf & _ & _ & Hid).
  - cbv -[Rplus Rmult Rminus Rdiv Rinv Ropp exp IZR].
    repeat (constructor; [f_equal; lra|]). constructor.
  - exists g'. rewrite Hf. f_equal. f_equal. apply Hid.
    destruct witness_block_perceptron as (gate' & e & He).
    rewrite He in Hp. injection Hp as _ <- _.
    intros b t k Hb Ht Hk.
    assert (b = 0) by lia. assert (t = 0) by lia. assert (k = 0) by lia. subst.
    exact I.
Defined.

(** The zeroed final layer on one finite token: the modulated token is
    finite. *)
Lemma witness_final_modulated :
  exists e,
    F32.FinalLayer_modulated exact_kernels
      (zero_final (fst (FinalLayer.init 1 1 1 (fun _ => 0%R))))
      (Tensor [1; 1; 1] [Fin 7]) (Tensor [1; 1] [Fin 3])
    = Ok (Tensor [1; 1; 1] [Fin e]).
Proof.
  eexists. unfold F32.FinalLayer_modulated.
  do 4 stage. reflexivity.
Qed.

Lemma final_layer_zero_where_finite_witness :
  exists y,
    F32.FinalLayer_forward exact_kernels
      (zero_final (fst (FinalLayer.init 1 1 1 (fun _ => 0%R))))
      (Tensor [1; 1; 1] [Fin 7]) (Tensor [1; 1] [Fin 3]) = Ok y /\
    shape y = [1; 1; 1] /\ get FNaN y [0; 0; 0] = Fin 0.
Proof.
  destruct (@final_layer_zero_where_finite exact_kernels
              (zero_final (fst (FinalLayer.init 1 1 1 (fun _ => 0%R)))) 1 1 1 1 1
              (Tensor [1; 1; 1] [Fin 7]) (Tensor [1; 1] [Fin 3]) eq_refl)
    as (md & y & Hmd & _ & Hf & Hs & _ & Hrow).
  - apply zero_final_sized. exact (final_init_sized 1 1 1 (fun _ => 0%R)).
  - apply zeroed_is_zero.
  - reflexivity.
  - reflexivity.
  - exists y. split; [exact Hf|]. split; [exact Hs|].
    apply (Hrow 0 0 0); [lia | lia | lia |].
    destruct witness_final_modulated as (e & He).
    rewrite He in Hmd. injection Hmd as <-.
    intros k Hk. assert (k = 0) by lia. subst k. exact I.
Defined.

(** C7, as stated, fails: [0 * nan] and [0 * inf] are [nan].  On a token
    that holds [nan], and on a token that holds [+inf], the zeroed final
    layer returns [nan]. *)
Lemma final_layer_zero_returns_nan :
  F32.FinalLayer_forward exact_kernels
    (zero_final (fst (FinalLayer.init 1 1 1 (fun _ => 0%R))))
    (Tensor [1; 1; 1] [FNaN]) (Tensor [1; 1] [Fin 3])
  = Ok (Tensor [1; 1; 1] [FNaN]) /\
  F32.FinalLayer_forward exact_kernels
    (zero_final (fst (FinalLayer.init 1 1 1 (fun _ => 0%R))))
    (Tensor [1; 1; 1] [PInf]) (Tensor [1; 1] [Fin 3])
  = Ok (Tensor [1; 1; 1] [FNaN]).
Proof.
  split; unfold F32.FinalLayer_forward, F32.FinalLayer_modulated;
    do 5 stage; reflexivity.
Qed.

(** ** C8 and C2 on concrete tensors *)

Ltac saturate_fact :=
  unfold overflow_bound; change (INR 1) with 1%R; rewrite ?sqrt_1; lra.

Ltac decide_saturate :=
  repeat (match goal with
          | |- context [saturate ?r] =>
              first [ rewrite (@saturate_small r) by saturate_fact
                    | rewrite (@saturate_large r) by saturate_fact ]
          end; cbv beta iota).

Ltac stage_saturating :=
  eval_head; repeat (progress (decide_saturate; decide_real));
  rewrite ?bind_ok; cbv beta iota.

Lemma constructed_head_init :
  exists g', Attention.init 1 1 (fun _ => 0%R) = Ok (constructed_head, g').
Proof. eexists. unfold constructed_head. reflexivity. Qed.




Lemma witness_masked_scores :
  exists e1 e3 e4 v',
    F32.Attention_scores exact_kernels constructed_head
      (Tensor [1; 2; 1] [Fin 1; Fin 2]) (Tensor [1; 2; 1] [Fin 1; Fin 2])
      (Tensor [1; 2; 1] [Fin 1; Fin 2])
      (Some (Tensor [1; 2; 2] [false; true; false; false]))
    = Ok (Tensor [1; 2; 2] [Fin e1; NInf; Fin e3; Fin e4], v', 1).
Proof.
  eexists _, _, _, _. unfold F32.Attention_scores.
  do 10 stage. reflexivity.
Qed.

Lemma masked_weight_is_zero_f32_witness :
  exists g' ctx w,
    Attention.init 1 1 (fun _ => 0%R) = Ok (constructed_head, g') /\
    F32.Attention_forward exact_kernels constructed_head
      (Tensor [1; 2; 1] [Fin 1; Fin 2]) (Tensor [1; 2; 1] [Fin 1; Fin 2])
      (Tensor [1; 2; 1] [Fin 1; Fin 2])
      (Some (Tensor [1; 2; 2] [false; true; false; false])) = Ok (ctx, w) /\
    get FNaN w [0 * 1 + 0; 0; 1] = Fin 0.
Proof.
  destruct constructed_head_init as (g' & E).
  destruct (@masked_weight_is_zero_f32 exact_kernels 1 1 1 2 (fun _ => 0%R) g'
              constructed_head
              (Tensor [1; 2; 1] [Fin 1; Fin 2]) (Tensor [1; 2; 1] [Fin 1; Fin 2])
              (Tensor [1; 2; 1] [Fin 1; Fin 2])
              (Tensor [1; 2; 2] [false; true; false; false]) exact_ieee E)
    as (raw & sc & v' & ctx & w & _ & Hs & Hf & _ & Hrow);
    [lia | lia | reflexivity | reflexivity | reflexivity | reflexivity
     | left; reflexivity |].
  exists g', ctx, w. split; [exact E|]. split; [exact Hf|].
  destruct (Hrow 0 0 0) as (_ & Hzero & _); [lia | lia | lia |].
  apply Hzero; [|lia | reflexivity].
  destruct witness_masked_scores as (e1 & e3 & e4 & v0 & He).
  rewrite He in Hs. injection Hs as <- _.
  split; [|split].
  - intros [H|[H|[]]]; discriminate.
  - intros [H|[H|[]]]; discriminate.
  - exists e1. left. reflexivity.
Defined.

(** Two sequences and two heads, all scores finite: the position marked
    for batch 1 keeps the weight 1/2 in head 0 of batch 1, which is row
    [0 * 2 + 1] of the weights. *)
Lemma masked_position_keeps_weight_f32 :
  exists ctx w,
    F32.Attention_forward exact_kernels two_heads two_by_two_f32 two_by_two_f32
      two_by_two_f32 (Some mask_batch_1) = Ok (ctx, w) /\
    get FNaN w [0 * 2 + 1; 0; 0] = Fin (1 / 2).
Proof.
  eexists _, (Tensor [4; 2; 2] _). split.
  - unfold F32.Attention_forward, F32.Attention_scores.
    do 15 stage. reflexivity.
  - cbv -[Rplus Rmult Rminus Rdiv Rinv Ropp exp sqrt IZR INR Rmax].
    f_equal. apply half_weight.
Qed.

(** C2, as stated, fails three times.  A position whose whole row is
    masked gets the weight [nan].  On the finite tokens [1e20] the score
    that is not masked overflows to [+inf], and the masked position gets
    [nan] as well.  And with two heads and two sequences the position
    marked for batch 1 keeps the weight 1/2 in head 0 of batch 1. *)
Lemma masked_weight_not_zero_f32 :
  (exists ctx w,
     F32.Attention_forward exact_kernels identity_head (Tensor [1; 1; 1] [Fin 1])
       (Tensor [1; 1; 1] [Fin 1]) (Tensor [1; 1; 1] [Fin 1])
       (Some (Tensor [1; 1; 1] [true])) = Ok (ctx, w) /\
     get false (Tensor [1; 1; 1] [true]) [0; 0; 0] = true /\
     get FNaN w [0 * 1 + 0; 0; 0] = FNaN) /\
  (exists ctx w,
     F32.Attention_forward saturating_kernels identity_head
       (Tensor [1; 2; 1] [Fin 1e20; Fin 1e20]) (Tensor [1; 2; 1] [Fin 1e20; Fin 1e20])
       (Tensor [1; 2; 1] [Fin 1e20; Fin 1e20])
       (Some (Tensor [1; 2; 2] [false; true; false; false])) = Ok (ctx, w) /\
     get false (Tensor [1; 2; 2] [false; true; false; false]) [0; 0; 1] = true /\
     get FNaN w [0 * 1 + 0; 0; 1] = FNaN) /\
  (exists ctx w,
     F32.Attention_forward exact_kernels two_heads two_by_two_f32 two_by_two_f32
       two_by_two_f32 (Some mask_batch_1) = Ok (ctx, w) /\
     get false mask_batch_1 [1; 0; 0] = true /\
     get FNaN w [0 * 2 + 1; 0; 0] = Fin (1 / 2)).
Proof.
  split; [|split].
  - eexists _, (Tensor [1; 1; 1] [FNaN]). split; [|split; reflexivity].
    unfold F32.Attention_forward, F32.Attention_scores.
    do 15 stage. reflexivity.
  - eexists _, (Tensor [1; 2; 2] [FNaN; FNaN; FNaN; FNaN]).
    split; [|split; reflexivity].
    unfold F32.Attention_forward, F32.Attention_scores.
    do 15 stage_saturating. reflexivity.
  - destruct masked_position_keeps_weight_f32 as (ctx & w & Hf & Hw).
    exists ctx, w. split; [exact Hf|]. split; [reflexivity | exact Hw].
Qed.
